(** * Dallinger: experiment lifecycle and the clock process

    A shallow embedding of [dallinger/experiment.py] (network allocation,
    recruitment, participant failure, completion polling) and of
    [dallinger/heroku/clock.py] (the periodic database checks), followed by
    the properties established about them.

    Conventions.  Database tables are lists of rows in storage order.
    Calls that leave the process (HTTP requests, the MTurk connection,
    [print], [time.sleep]) are recorded, in program order, as events of a
    trace carried by the world.  Python exceptions are the [Raise] outcome
    of a computation; the world reached when the exception was raised is
    kept, so that effects performed before it stay visible.  Python
    floats are IEEE 754 doubles, here the primitive floats; a [datetime]
    is the number of microseconds since an epoch. *)

From Stdlib Require Import List String Ascii Bool Arith ZArith Lia.
From Stdlib Require Import Permutation Sorted Floats.
Import ListNotations.

Local Open Scope string_scope.
Local Open Scope Z_scope.

(* ================================================================== *)
(** * Part I.  Definitions                                              *)
(* ================================================================== *)

(** ** Python values and library functions used by the sources *)

Module Py.

Inductive exn : Type :=
| AttributeError
| IndexError
| NotImplementedError
| RuntimeError
| ValueError
| TypeError
| IOError
| RequestException.

Definition exn_eqb (a b : exn) : bool :=
  match a, b with
  | AttributeError, AttributeError
  | IndexError, IndexError
  | NotImplementedError, NotImplementedError
  | RuntimeError, RuntimeError
  | ValueError, ValueError
  | TypeError, TypeError
  | IOError, IOError
  | RequestException, RequestException => true
  | _, _ => false
  end.

(** [issubclass(a, b)] on these classes: [NotImplementedError] derives
    from [RuntimeError], and the [RequestException] of [requests] from
    [IOError]. *)
Definition issubclass (a b : exn) : bool :=
  match a, b with
  | NotImplementedError, RuntimeError => true
  | RequestException, IOError => true
  | _, _ => exn_eqb a b
  end.

Inductive result (A : Type) : Type :=
| Ok (a : A)
| Raise (e : exn).
Arguments Ok {A} a.
Arguments Raise {A} e.

(** The values a JSON document or a configuration entry can hold, as far
    as the sources inspect them. *)
Inductive value : Type :=
| PyNone
| PyBool (b : bool)
| PyInt (z : Z)
| PyStr (s : string).

(** [x is False] *)
Definition is_False (v : value) : bool :=
  match v with PyBool false => true | _ => false end.

(** A dict with string keys, as an association list; [dict.get]. *)
Definition dict (V : Type) : Type := list (string * V).

Fixpoint dict_get {V : Type} (d : dict V) (k : string) : option V :=
  match d with
  | [] => None
  | (k', v) :: d' => if String.eqb k k' then Some v else dict_get d' k
  end.

Definition dict_get_default {V : Type} (d : dict V) (k : string) (dflt : V) : V :=
  match dict_get d k with Some v => v | None => dflt end.

(** [list.sort(key=...)] and SQL [ORDER BY]: a stable sort, written as
    insertion sort.  An element goes in front of the first element whose
    key is not smaller, so elements with equal keys keep their order. *)
Section Sort.
Context {A K : Type} (leb : K -> K -> bool) (key : A -> K).

Fixpoint insert (x : A) (l : list A) : list A :=
  match l with
  | [] => [x]
  | y :: l' => if leb (key x) (key y) then x :: l else y :: insert x l'
  end.

Definition sort_by_key (l : list A) : list A := fold_right insert [] l.
End Sort.

(** [l[start:]] for an arbitrary integer [start]: a negative start counts
    from the end, and both ends are clamped to the list. *)
Definition slice_from {A : Type} (start : Z) (l : list A) : list A :=
  let n := Z.of_nat (List.length l) in
  let s := if start <? 0 then Z.max 0 (start + n) else Z.min start n in
  skipn (Z.to_nat s) l.

(** [s[:-k]] for a positive [k]. *)
Definition drop_last (k : nat) (s : string) : string :=
  substring 0 (String.length s - k) s.

(** [str.lower()] on ASCII. *)
Definition lower_ascii (c : ascii) : ascii :=
  let n := nat_of_ascii c in
  if (Nat.leb 65 n && Nat.leb n 90)%bool then ascii_of_nat (n + 32) else c.

Fixpoint lower (s : string) : string :=
  match s with
  | EmptyString => EmptyString
  | String c s' => String (lower_ascii c) (lower s')
  end.

(** [template.format(arg)] for templates whose only replacement fields
    are [{}]: every field is replaced by [arg]; a template without a
    field is returned as it is, the argument being ignored. *)
Fixpoint format1 (template arg : string) : string :=
  match template with
  | EmptyString => EmptyString
  | String c rest =>
      match c, rest with
      | "{"%char, String "}"%char rest' => arg ++ format1 rest' arg
      | _, _ => String c (format1 rest arg)
      end
  end.

(** [x in l] for a list of strings. *)
Definition str_in (x : string) (l : list string) : bool :=
  existsb (String.eqb x) l.

(** [all(l)] *)
Definition all (l : list bool) : bool := forallb (fun b => b) l.

End Py.

Import Py.

(** ** Computations over a world

    [M W A]: a computation that reads and updates a world [W] and either
    returns an [A] or raises.  The world is threaded through a raise. *)

Definition M (W A : Type) : Type := W -> result A * W.

Definition ret {W A : Type} (a : A) : M W A := fun w => (Ok a, w).

Definition bind {W A B : Type} (c : M W A) (k : A -> M W B) : M W B :=
  fun w =>
    match c w with
    | (Ok a, w') => k a w'
    | (Raise e, w') => (Raise e, w')
    end.

Definition raise {W A : Type} (e : exn) : M W A := fun w => (Raise e, w).

(** [try: c except (e1, e2, ...): h] *)
Definition try_except {W A : Type} (c : M W A) (catches : exn -> bool)
    (h : M W A) : M W A :=
  fun w =>
    match c w with
    | (Ok a, w') => (Ok a, w')
    | (Raise e, w') => if catches e then h w' else (Raise e, w')
    end.

Declare Scope py_scope.
Delimit Scope py_scope with py.
Notation "x <- c ;; k" := (bind c (fun x => k))
  (at level 100, c at next level, right associativity) : py_scope.
Notation "c ;;; k" := (bind c (fun _ => k))
  (at level 100, right associativity) : py_scope.

(** [for x in l: body x] *)
Fixpoint for_each {W A : Type} (l : list A) (body : A -> M W unit) : M W unit :=
  match l with
  | [] => ret tt
  | x :: l' => bind (body x) (fun _ => for_each l' body)
  end.

(** ** The object model ([dallinger.models])

    The three mapped classes are declared in [dallinger/models.py]; the two
    modules embedded here only read and write the columns below. *)

Module Network.
(** Modelled from the spec: the columns of [Network] ([dallinger/models.py])
    that [experiment.py] uses: identity (the creation order), role and the
    [full] flag. *)
Record t : Type := Build { id : Z; role : string; full : bool }.
End Network.

Module Node.
(** Modelled from the spec: the columns of [Node] ([dallinger/models.py])
    that [experiment.py] uses: a node belongs to one participant and one
    network and carries a [failed] flag. *)
Record t : Type :=
  Build { id : Z; participant_id : Z; network_id : Z; failed : bool }.
End Node.

Module Participant.
(** Modelled from the spec: the columns of [Participant]
    ([dallinger/models.py]) that the two modules use.  A [datetime] is
    held as the number of microseconds since an epoch; [end_time] is
    [None] until the participant has ended. *)
Record t : Type :=
  Build { id : Z;
          assignment_id : string;
          hit_id : string;
          status : string;
          creation_time : Z;
          end_time : option Z }.

Definition set_status (s : string) (p : t) : t :=
  Build (id p) (assignment_id p) (hit_id p) s (creation_time p) (end_time p).
End Participant.

(** ** [dallinger/experiment.py] *)

Module Experiment.

(** The recruiter classes the [recruiter] property can return. *)
Inductive Recruiter : Type :=
| HotAirRecruiter
| BotRecruiter
| MTurkLargeRecruiter
| MTurkRecruiter.

(** [self.log(text, key)]: the key is a participant id or a literal. *)
Inductive log_key : Type :=
| KeyId (z : Z)
| KeyStr (s : string).

(** The texts passed to [self.log], with the values formatted into them. *)
Inductive log_text : Type :=
| No_networks_available
| Networks_available (legal : nat) (total : Z)
| Practice_networks_available (chosen : Z)
| No_practice_networks_available (chosen : Z)
| All_networks_full
| Waiting_for_experiment.

Inductive event : Type :=
| Stdout (key : log_key) (text : log_text)
| Logger_exception
| Logger_debug (data : dict value)
| Logger_debug_exported (filename : string)
| Requests_get (url : string)
| Time_sleep (seconds : Z)
| Close_recruitment (r : Recruiter)
| Call_Node_fail (n : Node.t)
| HerokuApp_destroy (app : string)
| Data_export (app : string) (local : bool).

(** The database tables the class queries, the positions reached in the
    two external sources (random numbers, HTTP responses) and the trace. *)
Record world : Type :=
  Build_world {
    network_table : list Network.t;
    node_table : list Node.t;
    random_pos : nat;
    requests_made : nat;
    trace : list event }.

(** What lies outside the class.
    - [random_draw k]: the k-th number the generator produces;
    - [requests_json k url]: what [requests.get(url)] followed by
      [resp.json()] gives for the k-th request of the run;
    - [config]: the configuration [get_config()] returns, [None] while
      it has not been loaded: [config.get] then raises [RuntimeError];
    - [heroku_url]: [HerokuApp(app_id).url] ([dallinger/heroku/tools.py]);
    - [export_filename]: the file name [export] returns
      ([dallinger/data.py]);
    - [node_fail]: [Node.fail] ([dallinger/models.py]), as the state of
      the node after the call. *)
Record environment : Type :=
  Build_environment {
    random_draw : nat -> nat;
    requests_json : nat -> string -> result (dict value);
    config : option (dict string);
    heroku_url : string -> string;
    export_filename : string -> bool -> string;
    node_fail : Node.t -> result Node.t }.

(** The attributes of an [Experiment] instance that the methods read. *)
Record experiment : Type :=
  Build_experiment {
    verbose : bool;
    practice_repeats : Z;
    experiment_repeats : Z;
    app_id : string;
    exp_config : dict string }.

Definition emit (e : event) : M world unit :=
  fun w =>
    (Ok tt,
     Build_world (network_table w) (node_table w) (random_pos w)
       (requests_made w) (trace w ++ [e])).

Definition set_node_table (rows : list Node.t) : M world unit :=
  fun w =>
    (Ok tt,
     Build_world (network_table w) rows (random_pos w)
       (requests_made w) (trace w)).

Definition read {A : Type} (f : world -> A) : M world A :=
  fun w => (Ok (f w), w).

Section Methods.
Variable env : environment.
Variable self : experiment.

Local Open Scope py_scope.

(** [log(self, text, key, force=False)] *)
Definition log (text : log_text) (key : log_key) : M world unit :=
  if verbose self then emit (Stdout key text) else ret tt.

(** [random.choice(seq)]: a draw, then the element at an index below
    [len(seq)]; [IndexError] on an empty sequence. *)
Definition random_choice {A : Type} (seq : list A) : M world A :=
  fun w =>
    let r := random_draw env (random_pos w) in
    let w' := Build_world (network_table w) (node_table w)
                (S (random_pos w)) (requests_made w) (trace w) in
    match seq with
    | [] => (Raise IndexError, w')
    | x :: _ => (Ok (nth (r mod List.length seq)%nat seq x), w')
    end.

(** [config.get(name, None)] *)
Definition config_get (name : string) : M world (option string) :=
  match config env with
  | None => raise RuntimeError
  | Some settings => ret (dict_get settings name)
  end.

(** The [recruiter] property.  The mode is read under
    [except RuntimeError]; the setting is not. *)
Definition recruiter : M world Recruiter :=
  debug_mode <-
    try_except
      (mode <- config_get "mode" ;;
       ret match mode with
           | Some m => String.eqb m "debug"
           | None => false
           end)
      (fun e => issubclass e RuntimeError)
      (ret false) ;;
  setting <- config_get "recruiter" ;;
  let setting_is (name : string) :=
    match setting with Some r => String.eqb r name | None => false end in
  if setting_is "bogus" then raise NotImplementedError
  else if (debug_mode && negb (setting_is "bots"))%bool then ret HotAirRecruiter
  else if setting_is "bots" then ret BotRecruiter
  else if setting_is "mturklarge" then ret MTurkLargeRecruiter
  else ret MTurkRecruiter.

(** [networks(self, role="all", full="all")]; [None] stands for
    ["all"].  The [ValueError] branch needs a [full] that is neither
    ["all"] nor a boolean, which the argument type rules out. *)
Definition networks (role : option string) (full : option bool)
  : M world (list Network.t) :=
  match full, role with
  | None, None => read network_table
  | None, Some r =>
      read (fun w => filter (fun n => String.eqb (Network.role n) r)
                       (network_table w))
  | Some f, None =>
      read (fun w => filter (fun n => Bool.eqb (Network.full n) f)
                       (network_table w))
  | Some f, Some r =>
      read (fun w => filter (fun n => (String.eqb (Network.role n) r
                                       && Bool.eqb (Network.full n) f)%bool)
                       (network_table w))
  end.

(** [choose_network(self, networks, participant)] *)
Definition choose_network (networks : list Network.t)
    (participant : Participant.t) : M world Network.t :=
  random_choice networks.

(** [get_network_for_participant(self, participant)], over the
    policy method [choose_network], which a subclass may override. *)
Definition get_network_for_participant_with
    (choose_network : list Network.t -> Participant.t -> M world Network.t)
    (participant : Participant.t) : M world (option Network.t) :=
  let key := Participant.id participant in
  networks_with_space <-
    read (fun w =>
            sort_by_key Z.leb Network.id
              (filter (fun n => Bool.eqb (Network.full n) false)
                 (network_table w))) ;;
  networks_participated_in <-
    read (fun w =>
            map Node.network_id
              (filter (fun n => Node.participant_id n =? Participant.id participant)
                 (node_table w))) ;;
  let legal_networks :=
    filter (fun net =>
              negb (existsb (Z.eqb (Network.id net)) networks_participated_in))
      networks_with_space in
  match legal_networks with
  | [] =>
      log No_networks_available (KeyId key) ;;;
      ret None
  | _ :: _ =>
      log (Networks_available (List.length legal_networks)
             (practice_repeats self + experiment_repeats self))
        (KeyId key) ;;;
      let legal_practice_networks :=
        filter (fun net => String.eqb (Network.role net) "practice")
          legal_networks in
      match legal_practice_networks with
      | chosen_network :: _ =>
          log (Practice_networks_available (Network.id chosen_network))
            (KeyId key) ;;;
          ret (Some chosen_network)
      | [] =>
          chosen_network <- choose_network legal_networks participant ;;
          log (No_practice_networks_available (Network.id chosen_network))
            (KeyId key) ;;;
          ret (Some chosen_network)
      end
  end.

Definition get_network_for_participant
  : Participant.t -> M world (option Network.t) :=
  get_network_for_participant_with choose_network.

(** [recruit(self)] *)
Definition recruit : M world unit :=
  open_networks <- networks None (Some false) ;;
  match open_networks with
  | [] =>
      log All_networks_full (KeyStr "-----") ;;;
      r <- recruiter ;;
      emit (Close_recruitment r)
  | _ :: _ => ret tt
  end.

(** [node.fail()] on a mapped object: the call is made on the object
    as loaded, and the row of that node takes the state it returns. *)
Definition Node_fail (node : Node.t) : M world unit :=
  emit (Call_Node_fail node) ;;;
  match node_fail env node with
  | Raise e => raise e
  | Ok node' =>
      rows <- read node_table ;;
      set_node_table
        (map (fun r => if Node.id r =? Node.id node then node' else r) rows)
  end.

(** [fail_participant(self, participant)] *)
Definition fail_participant (participant : Participant.t) : M world unit :=
  participant_nodes <-
    read (fun w =>
            filter (fun n => ((Node.participant_id n =? Participant.id participant)
                              && Bool.eqb (Node.failed n) false)%bool)
              (node_table w)) ;;
  for_each participant_nodes Node_fail.

(** [requests.get(url)] followed by [resp.json()]. *)
Definition requests_get_json (url : string) : M world (dict value) :=
  fun w =>
    (requests_json env (requests_made w) url,
     Build_world (network_table w) (node_table w) (random_pos w)
       (S (requests_made w)) (trace w ++ [Requests_get url])).

(** [experiment_completed(self)] *)
Definition experiment_completed : M world value :=
  let heroku_app_url := heroku_url env (app_id self) in
  let status_url := format1 "/summary" heroku_app_url in
  data <-
    try_except (requests_get_json status_url)
      (fun e => (exn_eqb e ValueError || exn_eqb e RequestException)%bool)
      (emit Logger_exception ;;; ret []) ;;
  emit (Logger_debug data) ;;;
  ret (dict_get_default data "completed" (PyBool false)).

(** [end_experiment(self)] *)
Definition end_experiment : M world unit :=
  emit (HerokuApp_destroy (app_id self)).

(** [retrieve_data(self)]; the result is the file name given to [Data]. *)
Definition retrieve_data : M world string :=
  let local :=
    match dict_get (exp_config self) "mode" with
    | Some m => String.eqb m "debug"
    | None => false
    end in
  emit (Data_export (app_id self) local) ;;;
  let filename := export_filename env (app_id self) local in
  emit (Logger_debug_exported filename) ;;;
  ret filename.

(** [while self.experiment_completed() is False: time.sleep(30)], run
    for at most [fuel] tests of the condition.  [true]: the loop was
    left; [false]: the condition still held after [fuel] tests. *)
Fixpoint wait_for_completion (fuel : nat) : M world bool :=
  match fuel with
  | O => ret false
  | S fuel' =>
      completed <- experiment_completed ;;
      if is_False completed
      then emit (Time_sleep 30) ;;; wait_for_completion fuel'
      else ret true
  end.

(** [_finish_experiment(self)]; [None] when the fuel ran out inside the
    polling loop. *)
Definition _finish_experiment (fuel : nat) : M world (option string) :=
  let debug :=
    match dict_get (exp_config self) "mode" with
    | Some m => String.eqb m "debug"
    | None => false
    end in
  if negb debug then
    log Waiting_for_experiment (KeyStr "") ;;;
    left_loop <- wait_for_completion fuel ;;
    if left_loop then
      end_experiment ;;;
      filename <- retrieve_data ;;
      ret (Some filename)
    else ret None
  else
    filename <- retrieve_data ;;
    ret (Some filename).

End Methods.

End Experiment.

(** ** [dallinger/heroku/clock.py] *)

Module Clock.

(** The texts of the [print] statements, with the values formatted in. *)
Inductive print_text : Type :=
| Running_emergency_code (participant : Z) (status : string)
| Status_set_to (status : string)
| Submitted_notification_missed (participant : Z)
| Abandoned_or_returned_notification_missed (participant : Z)
| Most_recent_participants_have_bad_data (threshold : Z).

Inductive event : Type :=
| Print (text : print_text)
| Conn_get_assignment (assignment_id : string)
| Session_commit
| Requests_patch (url : string) (data : dict string)
| Conn_expire_hit (hit_id : string)
| Requests_post (url : string) (data : dict string).

(** [participant_table]: the rows of [Participant] as the session sees
    them (pending attribute writes included); [committed_table]: the rows
    as of the last commit; [trace]: the calls made so far. *)
Record world : Type :=
  Build_world {
    participant_table : list Participant.t;
    committed_table : list Participant.t;
    trace : list event }.

(** What lies outside the module.
    - [HOST]: [os.environ['HOST']];
    - [duration]: [float(config.get('HIT Configuration', 'duration'))],
      in hours, a double;
    - [bad_data_threshold]:
      [int(config.get('Clock Parameters', 'bad_data_threshold'))];
    - [current_time]: [datetime.now()] of the cycle;
    - [get_assignment a]: what [conn.get_assignment(a)] gives, as the
      [AssignmentStatus] of each assignment of the result set, or the
      exception the call raises.
    The requests, the calls on the MTurk connection and the commits are
    recorded as made; a failure of one of them is not part of the model. *)
Record environment : Type :=
  Build_environment {
    HOST : string;
    duration : float;
    bad_data_threshold : Z;
    current_time : Z;
    get_assignment : string -> result (list string) }.

Definition emit (e : event) : M world unit :=
  fun w =>
    (Ok tt, Build_world (participant_table w) (committed_table w) (trace w ++ [e])).

Definition read {A : Type} (f : world -> A) : M world A :=
  fun w => (Ok (f w), w).

(** [Participant.query.get(ident)] *)
Definition Participant_query_get (ident : Z) : M world (option Participant.t) :=
  read (fun w => find (fun p => Participant.id p =? ident) (participant_table w)).

(** [p.status = s] on a mapped object: the row of [p] takes the value. *)
Definition set_status (p : Participant.t) (s : string) : M world unit :=
  fun w =>
    (Ok tt,
     Build_world
       (map (fun r => if Participant.id r =? Participant.id p
                      then Participant.set_status s r else r)
          (participant_table w))
       (committed_table w) (trace w)).

(** [session.commit()] *)
Definition session_commit : M world unit :=
  fun w =>
    (Ok tt,
     Build_world (participant_table w) (participant_table w)
       (trace w ++ [Session_commit])).

(** An integer as a float whose mantissa is the integer itself. *)
Definition Z2SF (z : Z) : spec_float :=
  match z with
  | Z0 => S754_zero false
  | Zpos m => S754_finite false m 0
  | Zneg m => S754_finite true m 0
  end.

(** [timedelta.total_seconds()]: the microseconds of the difference over
    [10**6] in true division, that is, the double nearest to the
    quotient. *)
Definition total_seconds (microseconds : Z) : float :=
  SF2Prim (SFdiv 53 1024 (Z2SF microseconds) (Z2SF 1000000)).

(** The comparison of two [end_time] keys that are both [None] or both
    a [datetime]. *)
Definition end_time_leb (a b : option Z) : bool :=
  match a, b with
  | Some x, Some y => x <=? y
  | _, _ => true
  end.

(** [participants.sort(key=lambda x: x.end_time)].  A [datetime] does
    not compare with [None]: the comparison raises [TypeError], and a
    sort of keys among which both occur has to make one, nothing else
    ordering the two groups.  Keys that are all [None] compare equal, and
    the sort, which is stable, leaves the list as it is. *)
Definition sort_by_end_time (participants : list Participant.t)
  : result (list Participant.t) :=
  let keys := map Participant.end_time participants in
  if (existsb (fun k => match k with None => true | Some _ => false end) keys
      && existsb (fun k => match k with Some _ => true | None => false end) keys)%bool
  then Raise TypeError
  else Ok (sort_by_key end_time_leb Participant.end_time participants).

Section Jobs.
Variable env : environment.

Local Open Scope py_scope.

(** [set_autorecruit(autorecruit)] *)
Definition set_autorecruit (autorecruit : bool) : M world unit :=
  let host := drop_last (String.length ".herokuapp.com") (HOST env) in
  let args :=
    if autorecruit then [("auto_recruit", "true")]
    else [("auto_recruit", "false")] in
  emit (Requests_patch
          (format1 "https://api.heroku.com/apps/{}/config-vars" host)
          args).

(** [expire_hit()]: reading [hit_id] off [None] raises. *)
Definition expire_hit : M world unit :=
  first <- Participant_query_get 1 ;;
  match first with
  | None => raise AttributeError
  | Some p => emit (Conn_expire_hit (Participant.hit_id p))
  end.

(** [send_notification(event_type, assignment_id)] *)
Definition send_notification (event_type assignment_id : string) : M world unit :=
  let args :=
    [("Event.1.EventType", event_type);
     ("Event.1.AssignmentId", assignment_id)] in
  emit (Requests_post ("http://" ++ HOST env ++ "/notifications") args).

(** The [try] block of the loop body:
    [conn.get_assignment(p.assignment_id)[0].AssignmentStatus], with
    [status = None] under the bare [except]. *)
Definition ask_status (p : Participant.t) : M world (option string) :=
  emit (Conn_get_assignment (Participant.assignment_id p)) ;;;
  match get_assignment env (Participant.assignment_id p) with
  | Ok (status :: _) => ret (Some status)
  | Ok [] => ret None
  | Raise _ => ret None
  end.

(** The body of the [for] loop of [check_for_missed_notifications].
    The products, the sum and the comparison are those of doubles. *)
Definition check_participant (p : Participant.t) : M world unit :=
  let duration := (duration env * 60 * 60)%float in
  let p_time :=
    total_seconds (current_time env - Participant.creation_time p) in
  if PrimFloat.ltb (duration + 120)%float p_time then
    emit (Print (Running_emergency_code (Participant.id p)
                   (Participant.status p))) ;;;
    status <- ask_status p ;;
    (* the final [else] branch; a [None] status reaches it, since it
       is neither in the list nor equal to ["Submitted"] *)
    let otherwise :=
      set_autorecruit false ;;;
      expire_hit ;;;
      send_notification "NotificationMissing" (Participant.assignment_id p) ;;;
      emit (Print (Abandoned_or_returned_notification_missed
                     (Participant.id p))) in
    match status with
    | Some s =>
        if str_in s ["Approved"; "Rejected"] then
          emit (Print (Status_set_to (lower s))) ;;;
          set_status p (lower s) ;;;
          session_commit
        else if String.eqb s "Submitted" then
          send_notification "AssignmentSubmitted" (Participant.assignment_id p) ;;;
          emit (Print (Submitted_notification_missed (Participant.id p)))
        else otherwise
    | None => otherwise
    end
  else ret tt.

(** [check_for_missed_notifications()] *)
Definition check_for_missed_notifications : M world unit :=
  participants <-
    read (fun w =>
            filter (fun p => String.eqb (Participant.status p) "working")
              (participant_table w)) ;;
  for_each participants check_participant.

(** The participants [check_for_bad_data] looks at: those whose status
    is not ["working"], sorted by [end_time], sliced with
    [[-threshold:]]. *)
Definition recently_finished (rows : list Participant.t)
  : result (list Participant.t) :=
  let participants :=
    filter (fun p => negb (String.eqb (Participant.status p) "working")) rows in
  match sort_by_end_time participants with
  | Ok participants => Ok (slice_from (- bad_data_threshold env) participants)
  | Raise e => Raise e
  end.

(** [check_for_bad_data()] *)
Definition check_for_bad_data : M world unit :=
  participants <- (fun w => (recently_finished (participant_table w), w)) ;;
  if all (map (fun p => String.eqb (Participant.status p) "bad_data") participants)
  then
    set_autorecruit false ;;;
    expire_hit ;;;
    emit (Print (Most_recent_participants_have_bad_data (bad_data_threshold env)))
  else ret tt.

(** [check_database()] *)
Definition check_database : M world unit :=
  check_for_missed_notifications ;;;
  check_for_bad_data.

End Jobs.

End Clock.

(** ** Vocabulary of the properties *)

Module ExperimentVocabulary.
Import Experiment.

(** The participant has a node (failed or not) in the network. *)
Definition has_node (w : world) (p : Participant.t) (net : Network.t) : Prop :=
  exists n, In n (node_table w)
            /\ Node.participant_id n = Participant.id p
            /\ Node.network_id n = Network.id net.

(** A network the participant may still join: in the table, not full, and
    without a node of the participant. *)
Definition eligible (w : world) (p : Participant.t) (net : Network.t) : Prop :=
  In net (network_table w) /\ Network.full net = false /\ ~ has_node w p net.

(** The list [legal_networks] that [get_network_for_participant] builds. *)
Definition legal_networks (w : world) (p : Participant.t) : list Network.t :=
  filter (fun net =>
            negb (existsb (Z.eqb (Network.id net))
                    (map Node.network_id
                       (filter (fun n => Node.participant_id n =? Participant.id p)
                          (node_table w)))))
    (sort_by_key Z.leb Network.id
       (filter (fun n => Bool.eqb (Network.full n) false) (network_table w))).

(** The world after some lines were written with [self.log]: only the
    trace grows, and only if the experiment is verbose. *)
Definition logged (self : experiment) (lines : list event) (w : world) : world :=
  Build_world (network_table w) (node_table w) (random_pos w) (requests_made w)
    (if verbose self then trace w ++ lines else trace w).

(** The world after the events [evs] were appended to the trace. *)
Definition with_events (evs : list event) (w : world) : world :=
  Build_world (network_table w) (node_table w) (random_pos w) (requests_made w)
    (trace w ++ evs).

(** The networks with [full = False]. *)
Definition open_network (w : world) (net : Network.t) : Prop :=
  In net (network_table w) /\ Network.full net = false.

(** The [recruiter] property yields a recruiter: the configuration is
    loaded and its [recruiter] setting is not ['bogus']. *)
Definition recruiter_available (env : environment) : Prop :=
  exists settings,
    config env = Some settings
    /\ dict_get settings "recruiter" <> Some "bogus".

(** The command [close_recruitment] was issued to some recruiter. *)
Definition closes_recruitment (e : event) : bool :=
  match e with
  | Close_recruitment _ => true
  | _ => false
  end.

(** What [fail_participant] needs of [Node.fail]: called on a node that
    has not failed, it returns normally and leaves the node failed, with
    the same identity and the same participant. *)
Definition node_fail_contract (env : environment) : Prop :=
  forall n, Node.failed n = false ->
    exists n', node_fail env n = Ok n'
               /\ Node.failed n' = true
               /\ Node.id n' = Node.id n
               /\ Node.participant_id n' = Node.participant_id n.

(** The nodes [fail_participant] selects. *)
Definition participant_nodes (p : Participant.t) (w : world) : list Node.t :=
  filter (fun n => ((Node.participant_id n =? Participant.id p)
                    && Bool.eqb (Node.failed n) false)%bool)
    (node_table w).

(** A row of the node table after [node.fail()] ran on each node of [l]
    in turn. *)
Fixpoint row_after (env : environment) (l : list Node.t) (r : Node.t) : Node.t :=
  match l with
  | [] => r
  | x :: l' =>
      row_after env l'
        (if Node.id r =? Node.id x
         then match node_fail env x with Ok x' => x' | Raise _ => r end
         else r)
  end.

(** A URL that names its scheme. *)
Definition has_scheme (url : string) : bool :=
  (prefix "http://" url || prefix "https://" url)%bool.

(** The HTTP client refuses a URL without a scheme, as [requests] does
    ([MissingSchema], a [RequestException]). *)
Definition rejects_schemeless (env : environment) : Prop :=
  forall k url, has_scheme url = false ->
    requests_json env k url = Raise RequestException.

(** One round of the polling loop when the request is refused. *)
Definition refused_poll : list event :=
  [Requests_get "/summary"; Logger_exception; Logger_debug []; Time_sleep 30].

End ExperimentVocabulary.

Module ClockVocabulary.
Import Clock.

(** The test of the loop body, as the code computes it in doubles: the
    seconds since the participant was created exceed the duration of the
    HIT, given in hours, plus two minutes. *)
Definition overdue (env : environment) (p : Participant.t) : bool :=
  PrimFloat.ltb (duration env * 60 * 60 + 120)%float
    (total_seconds (current_time env - Participant.creation_time p)).

Definition with_events (evs : list event) (w : world) : world :=
  Build_world (participant_table w) (committed_table w) (trace w ++ evs).

(** The request of [set_autorecruit(False)]. *)
Definition disable_autorecruit (env : environment) : event :=
  Requests_patch
    (format1 "https://api.heroku.com/apps/{}/config-vars"
       (drop_last 14 (HOST env)))
    [("auto_recruit", "false")].

(** The request of [send_notification(event_type, assignment_id)]. *)
Definition notification (env : environment) (event_type assignment_id : string)
  : event :=
  Requests_post ("http://" ++ HOST env ++ "/notifications")
    [("Event.1.EventType", event_type); ("Event.1.AssignmentId", assignment_id)].

(** The calls that act on the experiment: changing the recruitment
    setting, expiring a HIT, posting a notification. *)
Definition corrective (e : event) : bool :=
  match e with
  | Requests_patch _ _ | Conn_expire_hit _ | Requests_post _ _ => true
  | Print _ | Conn_get_assignment _ | Session_commit => false
  end.

(** The expiry of a HIT, and the [NotificationMissing] alert. *)
Definition expires_or_alerts (e : event) : bool :=
  match e with
  | Conn_expire_hit _ => true
  | Requests_post _ data =>
      match dict_get data "Event.1.EventType" with
      | Some event_type => String.eqb event_type "NotificationMissing"
      | None => false
      end
  | _ => false
  end.

(** The working participants, as the cycle selects them. *)
Definition working (rows : list Participant.t) : list Participant.t :=
  filter (fun p => String.eqb (Participant.status p) "working") rows.

(** The participants that have finished: any status but ["working"]. *)
Definition finished (rows : list Participant.t) : list Participant.t :=
  filter (fun p => negb (String.eqb (Participant.status p) "working")) rows.

(** The condition of [check_for_bad_data]. *)
Definition all_bad_data (l : list Participant.t) : bool :=
  all (map (fun p => String.eqb (Participant.status p) "bad_data") l).

(** The primary key: no two rows have the same id. *)
Definition unique_ids (rows : list Participant.t) : Prop :=
  NoDup (map Participant.id rows).

(** The HIT [expire_hit] reads: the one of participant 1, if there is
    such a participant. *)
Definition first_hit (rows : list Participant.t) : option string :=
  option_map Participant.hit_id
    (find (fun q => Participant.id q =? 1) rows).

(** The end times can be sorted: all are set, or none is. *)
Definition comparable_end_times (l : list Participant.t) : Prop :=
  (forall p, In p l -> Participant.end_time p <> None)
  \/ (forall p, In p l -> Participant.end_time p = None).

(** [a] did not end after [b], where both have an end time. *)
Definition ends_no_later (a b : Participant.t) : Prop :=
  match Participant.end_time a, Participant.end_time b with
  | Some x, Some y => x <= y
  | _, _ => True
  end.

(** In the words of the specification: the most recent assignment that
    is still open, that is, the one of the participant created last among
    those still working. *)
Definition spec_most_recent_open_assignment (rows : list Participant.t)
  : option Participant.t :=
  fold_left
    (fun best p =>
       if String.eqb (Participant.status p) "working" then
         match best with
         | None => Some p
         | Some b =>
             if Participant.creation_time b <=? Participant.creation_time p
             then Some p else Some b
         end
       else best)
    rows None.

(** The status the platform reports for the participant's assignment,
    [None] when the query raises or the result set is empty. *)
Definition reported_status (env : environment) (p : Participant.t) : option string :=
  match get_assignment env (Participant.assignment_id p) with
  | Ok (s :: _) => Some s
  | Ok [] => None
  | Raise _ => None
  end.

(** The platform gives no status, or one that is none of [Approved],
    [Rejected] and [Submitted]: the final [else] branch is taken. *)
Definition unsettled (env : environment) (p : Participant.t) : Prop :=
  match reported_status env p with
  | Some s => str_in s ["Approved"; "Rejected"; "Submitted"] = false
  | None => True
  end.

(** The first two calls of the body for an overdue participant. *)
Definition emergency_events (p : Participant.t) : list event :=
  [Print (Running_emergency_code (Participant.id p) (Participant.status p));
   Conn_get_assignment (Participant.assignment_id p)].

(** The calls of the [Approved]/[Rejected] branch for [p]. *)
Definition repair_events (p : Participant.t) (s : string) : list event :=
  emergency_events p ++ [Print (Status_set_to (lower s)); Session_commit].

(** The world after the [Approved]/[Rejected] branch ran for [p]. *)
Definition repaired (p : Participant.t) (s : string) (w : world) : world :=
  Build_world
    (map (fun r => if Participant.id r =? Participant.id p
                   then Participant.set_status (lower s) r else r)
       (participant_table w))
    (map (fun r => if Participant.id r =? Participant.id p
                   then Participant.set_status (lower s) r else r)
       (participant_table w))
    (trace w ++ repair_events p s).

(** The calls of the final [else] branch for [p], [hit] being the HIT
    of participant 1. *)
Definition shutdown_events (env : environment) (p : Participant.t) (hit : string)
  : list event :=
  emergency_events p
  ++ [disable_autorecruit env;
      Conn_expire_hit hit;
      notification env "NotificationMissing" (Participant.assignment_id p);
      Print (Abandoned_or_returned_notification_missed (Participant.id p))].

(** The outcome of the final [else] branch for [p]. *)
Definition shutdown (env : environment) (p : Participant.t) (w : world)
  : result unit * world :=
  match first_hit (participant_table w) with
  | Some hit => (Ok tt, with_events (shutdown_events env p hit) w)
  | None =>
      (Raise AttributeError,
       with_events (emergency_events p ++ [disable_autorecruit env]) w)
  end.

(** The calls of the [Submitted] branch for [p]. *)
Definition replay_events (env : environment) (p : Participant.t) : list event :=
  emergency_events p
  ++ [notification env "AssignmentSubmitted" (Participant.assignment_id p);
      Print (Submitted_notification_missed (Participant.id p))].

(** The calls the loop body makes for [p] while participant 1, with the
    HIT [hit], is in the table. *)
Definition calls_for (env : environment) (hit : string) (p : Participant.t)
  : list event :=
  if overdue env p then
    match reported_status env p with
    | Some s =>
        if str_in s ["Approved"; "Rejected"] then repair_events p s
        else if String.eqb s "Submitted" then replay_events env p
             else shutdown_events env p hit
    | None => shutdown_events env p hit
    end
  else [].

(** The calls of one cycle in which every overdue participant takes the
    final [else] branch. *)
Definition shutdown_round (env : environment) (hit : string)
    (l : list Participant.t) : list event :=
  flat_map (fun p => if overdue env p then shutdown_events env p hit else []) l.


(** The status query and the notifications that name the participant's
    assignment. *)
Definition concerns (p : Participant.t) (e : event) : Prop :=
  match e with
  | Conn_get_assignment a => a = Participant.assignment_id p
  | Requests_post _ data =>
      dict_get data "Event.1.AssignmentId" = Some (Participant.assignment_id p)
  | _ => True
  end.

End ClockVocabulary.

(** ** Concrete states used in the examples *)

Module ExperimentSamples.
Import Experiment.

Definition practice_1 : Network.t := Network.Build 1 "practice" false.
Definition experiment_2 : Network.t := Network.Build 2 "experiment" false.
Definition practice_3 : Network.t := Network.Build 3 "practice" true.
Definition experiment_4 : Network.t := Network.Build 4 "experiment" false.

Definition alice : Participant.t :=
  Participant.Build 7 "assignment-7" "hit-A" "working" 0 None.
Definition bob : Participant.t :=
  Participant.Build 8 "assignment-8" "hit-A" "working" 0 None.

(** Alice has been through the first practice network (her node there has
    failed) and is active in network 2; Bob has no node yet. *)
Definition alice_node_1 : Node.t := Node.Build 1 7 1 true.
Definition alice_node_2 : Node.t := Node.Build 2 7 2 false.

(** Modelled from the spec: [Node.fail] ([dallinger/models.py]), which
    sets the flag and is a no-op on a node that has already failed. *)
Definition sample_node_fail (n : Node.t) : result Node.t :=
  Ok (Node.Build (Node.id n) (Node.participant_id n) (Node.network_id n) true).

(** A deployment whose status endpoint, at the URL of the application,
    answers that the experiment has completed; as [requests] does, the
    client refuses a URL that names no scheme. *)
Definition sample_env : environment :=
  Build_environment
    (fun k => (3 * k + 1)%nat)
    (fun _ url =>
       if (prefix "https://" url || prefix "http://" url)%bool
       then Ok [("completed", PyBool true)]
       else Raise RequestException)
    (Some [("mode", "sandbox")])
    (fun app => "https://dlgr-" ++ app ++ ".herokuapp.com")
    (fun app local => app ++ "-data.zip")
    sample_node_fail.

(** The same deployment under another configuration. *)
Definition env_configured (config : option (dict string)) : environment :=
  Build_environment (random_draw sample_env) (requests_json sample_env) config
    (heroku_url sample_env) (export_filename sample_env) sample_node_fail.

(** The test hook: the recruiter setting ['bogus']. *)
Definition bogus_env : environment :=
  env_configured (Some [("mode", "sandbox"); ("recruiter", "bogus")]).

Definition sample_self : experiment :=
  Build_experiment true 2 2 "5f3a" [("mode", "sandbox")].

Definition sample_world : world :=
  Build_world [experiment_4; practice_3; experiment_2; practice_1]
    [alice_node_1; alice_node_2] 0 0 [].

Definition all_full_world : world :=
  Build_world [practice_3] [] 0 0 [].

End ExperimentSamples.

Module ClockSamples.
Import Clock.

(** Times, in microseconds. *)
Definition seconds (n : Z) : Z := n * 1000000.

(** Carol was the first participant and finished with bad data; Dave
    arrived later, under a second HIT, and is still working. *)
Definition carol : Participant.t :=
  Participant.Build 1 "assignment-1" "hit-A" "bad_data" 0 (Some (seconds 100)).
Definition dave : Participant.t :=
  Participant.Build 2 "assignment-2" "hit-B" "working" (seconds 400) None.

Definition two_participants : world :=
  Build_world [carol; dave] [carol; dave] [].

(** A single participant, still working. *)
Definition erin : Participant.t :=
  Participant.Build 1 "assignment-1" "hit-A" "working" 0 None.

Definition one_working : world := Build_world [erin] [erin] [].

(** Before the first participant. *)
Definition no_participant : world := Build_world [] [] [].

(** HITs last one hour; the cycle runs 10000 seconds after the start;
    the platform answers [answer] to every status query. *)
Definition env_answering (answer : result (list string)) : environment :=
  Build_environment "dlgr-5f3a.herokuapp.com" 1%float 1 (seconds 10000)
    (fun _ => answer).

(** Three participants have finished, Frank first and Heidi last; a
    fourth is still working.  In [two_of_three_bad] Grace was approved. *)
Definition frank : Participant.t :=
  Participant.Build 1 "assignment-1" "hit-A" "bad_data" 0 (Some (seconds 300)).
Definition grace (status : string) : Participant.t :=
  Participant.Build 2 "assignment-2" "hit-A" status (seconds 10)
    (Some (seconds 500)).
Definition heidi : Participant.t :=
  Participant.Build 3 "assignment-3" "hit-A" "bad_data" (seconds 20)
    (Some (seconds 700)).
Definition ivan : Participant.t :=
  Participant.Build 4 "assignment-4" "hit-A" "working" (seconds 900) None.

Definition three_of_three_bad : world :=
  Build_world [heidi; frank; ivan; grace "bad_data"]
    [heidi; frank; ivan; grace "bad_data"] [].

Definition two_of_three_bad : world :=
  Build_world [heidi; frank; ivan; grace "approved"]
    [heidi; frank; ivan; grace "approved"] [].

(** The same deployment with another threshold. *)
Definition env_threshold (threshold : Z) : environment :=
  Build_environment "dlgr-5f3a.herokuapp.com" 1%float threshold (seconds 10000)
    (fun _ => Raise RequestException).

Definition env_threshold_3 : environment := env_threshold 3.

(** The platform cannot be reached: every status query raises. *)
Definition platform_unreachable : environment :=
  env_answering (Raise RequestException).

(** A table that does not hold participant 1: Kim and Lee are both
    working and overdue. *)
Definition kim : Participant.t :=
  Participant.Build 2 "assignment-2" "hit-A" "working" 0 None.
Definition lee : Participant.t :=
  Participant.Build 3 "assignment-3" "hit-A" "working" 0 None.

Definition kim_and_lee : world := Build_world [kim; lee] [kim; lee] [].

(** The platform cannot be reached for Kim's assignment and answers
    [answer] for every other. *)
Definition env_unreachable_for_kim (answer : string) : environment :=
  Build_environment "dlgr-5f3a.herokuapp.com" 1%float 1 (seconds 10000)
    (fun a => if String.eqb a "assignment-2" then Raise RequestException
              else Ok [answer]).

(** The cycle of [env_answering], an hour later. *)
Definition an_hour_later (answer : result (list string)) : environment :=
  Build_environment "dlgr-5f3a.herokuapp.com" 1%float 1 (seconds 13600)
    (fun _ => answer).

(** Durations as [float] reads them: ["4.29"] and ["0.03"]. *)
Definition env_lasting (duration : float) (now : Z) : environment :=
  Build_environment "dlgr-5f3a.herokuapp.com" duration 1 now
    (fun _ => Raise RequestException).

Definition hours_4_29 : float := 0x1.128f5c28f5c29p+2%float.
Definition hours_0_03 : float := 0x1.eb851eb851eb8p-6%float.

End ClockSamples.

(** ** [dallinger/experiment.py]: the failure handlers *)

Module ExperimentHandlers.
Import Experiment.

Section Handlers.
Variable env : environment.

(** [data_check_failed(self, participant)] *)
Definition data_check_failed (participant : Participant.t) : M world unit :=
  fail_participant env participant.

(** [attention_check_failed(self, participant)] *)
Definition attention_check_failed (participant : Participant.t) : M world unit :=
  fail_participant env participant.

(** [assignment_abandoned(self, participant)] *)
Definition assignment_abandoned (participant : Participant.t) : M world unit :=
  fail_participant env participant.

(** [assignment_returned(self, participant)] *)
Definition assignment_returned (participant : Participant.t) : M world unit :=
  fail_participant env participant.

(** [assignment_reassigned(self, participant)] *)
Definition assignment_reassigned (participant : Participant.t) : M world unit :=
  fail_participant env participant.

End Handlers.

(** The five handlers. *)
Definition failure_handlers (env : environment)
  : list (Participant.t -> M world unit) :=
  [data_check_failed env; attention_check_failed env; assignment_abandoned env;
   assignment_returned env; assignment_reassigned env].

End ExperimentHandlers.

(** ** More of the Python library *)

Module PyMore.

(** [collections.Counter(iterable)]: a dict from each element to the
    number of times it occurs.  The order of the items of a dict is not
    specified; here a key sits where it was first met. *)
Fixpoint counter_add (k : string) (c : dict nat) : dict nat :=
  match c with
  | [] => [(k, 1%nat)]
  | (k', n) :: c' =>
      if String.eqb k k' then (k', S n) :: c' else (k', n) :: counter_add k c'
  end.

Definition Counter (l : list string) : dict nat :=
  fold_left (fun c k => counter_add k c) l [].

(** [needle in hay] on strings: [needle] occurs in [hay]. *)
Fixpoint str_contains (needle hay : string) : bool :=
  (prefix needle hay
   || match hay with
      | EmptyString => false
      | String _ rest => str_contains needle rest
      end)%bool.

(** [d[k] = v] *)
Fixpoint dict_set {V : Type} (d : dict V) (k : string) (v : V) : dict V :=
  match d with
  | [] => [(k, v)]
  | (k', v') :: d' =>
      if String.eqb k k' then (k', v) :: d' else (k', v') :: dict_set d' k v
  end.

(** [try: c finally: f]: [f] runs whether [c] returns or raises; an
    exception of [f] replaces the outcome of [c]. *)
Definition try_finally {W A : Type} (c : M W A) (f : M W unit) : M W A :=
  fun w =>
    match c w with
    | (r, w') =>
        match f w' with
        | (Ok _, w'') => (r, w'')
        | (Raise e, w'') => (Raise e, w'')
        end
    end.

(** [for _ in range(n): c] *)
Fixpoint repeat_times {W : Type} (n : nat) (c : M W unit) : M W unit :=
  match n with
  | O => ret tt
  | S n' => bind c (fun _ => repeat_times n' c)
  end.

End PyMore.

(** ** [dallinger/experiment.py]: set-up, summary and launch

    These methods use what the world of [Experiment] does not hold: the
    participant table, the session, the working directory and the
    launching commands.  Their world has the tables and positions of
    [Experiment.world] besides, and a method embedded in [Experiment] is
    run on them by [lift]; its events enter the trace in their place. *)

Module Lifecycle.
Import PyMore.

(** The texts [collect] passes to [self.log], under the key
    ["Retrieve:"], with the id formatted in. *)
Inductive retrieve_text : Type :=
| Data_found_retrieving (app_id : string)
| Could_not_fetch_data_checking_registry (app_id : string)
| Appears_to_be_a_new_experiment_id (app_id : string).

(** What [data_load(app_id)] ([dallinger/data.py]) does: it returns the
    data or raises. *)
Inductive data_load_outcome : Type :=
| Data_loaded (data : string)
| Data_raises (e : exn).

Inductive event : Type :=
| Experiment_event (e : Experiment.event)
| Stdout_status_summary (sorted_counts : list (string * nat))
| Stdout_retrieve (text : retrieve_text)
| Data_load_called (app_id : string)
| Session_add (network : Network.t)
| Session_commit
| Os_chdir (path : string)
| Config_register_extra_parameters
| Config_load_from_file
| Config_clear
| Command_line_debug (bot : bool) (exp_config : dict string)
| Deploy_sandbox_shared_setup (app : string) (verbose : bool)
    (exp_config : dict string).

Record world : Type :=
  Build_world {
    network_table : list Network.t;
    node_table : list Node.t;
    participant_table : list Participant.t;
    random_pos : nat;
    requests_made : nat;
    cwd : string;
    trace : list event }.

(** What lies outside the class, besides [Experiment.environment].
    - [create_network rows]: the network [create_network()] returns
      ([Empty()], of [dallinger/networks.py]) as the session adds it to a
      table that holds [rows], with the id the database gives it;
    - [module_dir]: the directory of the file that defines the class of
      the experiment;
    - [uuid_of n]: [str(uuid.UUID(int=n))], for the number [n] that
      [random.getrandbits(128)] draws;
    - [data_load], [is_registered]: the functions of [dallinger/data.py];
    - [uuid_parses s]: [uuid.UUID(s, version=4)] returns rather than
      raising [ValueError]. *)
Record collaborators : Type :=
  Build_collaborators {
    create_network : list Network.t -> Network.t;
    module_dir : string;
    uuid_of : nat -> string;
    data_load : string -> data_load_outcome;
    is_registered : string -> bool;
    uuid_parses : string -> bool }.

Definition emit (e : event) : M world unit :=
  fun w =>
    (Ok tt,
     Build_world (network_table w) (node_table w) (participant_table w)
       (random_pos w) (requests_made w) (cwd w) (trace w ++ [e])).

Definition read {A : Type} (f : world -> A) : M world A :=
  fun w => (Ok (f w), w).

(** The part of the world the methods of [Experiment] work on, with an
    empty trace. *)
Definition inner (w : world) : Experiment.world :=
  Experiment.Build_world (network_table w) (node_table w) (random_pos w)
    (requests_made w) [].

Definition lift {A : Type} (c : M Experiment.world A) : M world A :=
  fun w =>
    match c (inner w) with
    | (r, iw) =>
        (r,
         Build_world (Experiment.network_table iw) (Experiment.node_table iw)
           (participant_table w) (Experiment.random_pos iw)
           (Experiment.requests_made iw) (cwd w)
           (trace w ++ map Experiment_event (Experiment.trace iw)))
    end.

(** [os.chdir(path)] *)
Definition os_chdir (path : string) : M world unit :=
  fun w =>
    (Ok tt,
     Build_world (network_table w) (node_table w) (participant_table w)
       (random_pos w) (requests_made w) path (trace w ++ [Os_chdir path])).

Definition set_role (role : string) (n : Network.t) : Network.t :=
  Network.Build (Network.id n) role (Network.full n).

Section Methods.
Variable env : Experiment.environment.
Variable ext : collaborators.
Variable self : Experiment.experiment.

Local Open Scope py_scope.

(** One round of a loop of [setup]:
    [network = self.create_network(); network.role = role;
     self.session.add(network)]. *)
Definition add_network (role : string) : M world unit :=
  fun w =>
    let network := set_role role (create_network ext (network_table w)) in
    (Ok tt,
     Build_world (network_table w ++ [network]) (node_table w)
       (participant_table w) (random_pos w) (requests_made w) (cwd w)
       (trace w ++ [Session_add network])).

(** [setup(self)] *)
Definition setup : M world unit :=
  existing <- lift (Experiment.networks None None) ;;
  match existing with
  | [] =>
      repeat_times (Z.to_nat (Experiment.practice_repeats self))
        (add_network "practice") ;;;
      repeat_times (Z.to_nat (Experiment.experiment_repeats self))
        (add_network "experiment") ;;;
      emit Session_commit
  | _ :: _ => ret tt
  end.

(** [log_summary(self)] *)
Definition log_summary : M world (list (string * nat)) :=
  participants <- read participant_table ;;
  let counts := Counter (map Participant.status participants) in
  let sorted_counts := sort_by_key String.leb fst counts in
  (if Experiment.verbose self
   then emit (Stdout_status_summary sorted_counts) else ret tt) ;;;
  ret sorted_counts.

(** [make_uuid(cls)] *)
Definition make_uuid : M world string :=
  fun w =>
    (Ok (uuid_of ext (Experiment.random_draw env (random_pos w))),
     Build_world (network_table w) (node_table w) (participant_table w)
       (S (random_pos w)) (requests_made w) (cwd w) (trace w)).

(** The body of [run(self, exp_config=None, app_id=None, bot=False,
    **kwargs)], for at most [fuel] rounds of the polling loop.  The
    method assigns [self.app_id] and [self.exp_config]; the experiment
    with these attributes is returned with the result. *)
Definition run_body (fuel : nat) (exp_config : option (dict string))
    (app_id : option string) (bot : bool) (kwargs : dict string)
  : M world (Experiment.experiment * option string) :=
  app_id <- match app_id with
            | None => make_uuid
            | Some a => ret a
            end ;;
  let kwargs := if bot then dict_set kwargs "recruiter" "bots" else kwargs in
  let exp_config :=
    match exp_config with
    | None | Some [] => kwargs
    | Some ((_ :: _) as given) => given
    end in
  let self' :=
    Experiment.Build_experiment (Experiment.verbose self)
      (Experiment.practice_repeats self) (Experiment.experiment_repeats self)
      app_id exp_config in
  (if match dict_get exp_config "mode" with
      | Some m => String.eqb m "debug"
      | None => false
      end
   then emit (Command_line_debug bot exp_config)
   else emit (Deploy_sandbox_shared_setup app_id (Experiment.verbose self)
                exp_config)) ;;;
  data <- lift (Experiment._finish_experiment env self' fuel) ;;
  ret (self', data).

(** [exp_class_working_dir(meth)]: the wrapper it returns. *)
Definition exp_class_working_dir {A : Type} (meth : M world A) : M world A :=
  fun w =>
    let orig_path := cwd w in
    try_finally
      (os_chdir (module_dir ext) ;;;
       emit Config_register_extra_parameters ;;;
       emit Config_load_from_file ;;;
       meth)
      (emit Config_clear ;;;
       os_chdir orig_path)
      w.

(** [run], as decorated. *)
Definition run (fuel : nat) (exp_config : option (dict string))
    (app_id : option string) (bot : bool) (kwargs : dict string)
  : M world (Experiment.experiment * option string) :=
  exp_class_working_dir (run_body fuel exp_config app_id bot kwargs).

(** [self.log(text, key="Retrieve:")] *)
Definition log_retrieve (text : retrieve_text) : M world unit :=
  if Experiment.verbose self then emit (Stdout_retrieve text) else ret tt.

(** [collect(self, app_id, exp_config=None, bot=False, **kwargs)], for at
    most [fuel] rounds of the polling loop of the run it may start.  The
    result is the data, with the experiment as [run] leaves it. *)
Definition collect (fuel : nat) (app_id : string)
    (exp_config : option (dict string)) (bot : bool) (kwargs : dict string)
  : M world (Experiment.experiment * option string) :=
  fun w =>
    let orig_path := cwd w in
    (results <-
       try_finally
         (os_chdir (module_dir ext) ;;;
          emit (Data_load_called app_id) ;;;
          match data_load ext app_id with
          | Data_loaded results =>
              log_retrieve (Data_found_retrieving app_id) ;;;
              ret (Some results)
          | Data_raises e =>
              (* [except IOError]: the class and what derives from it *)
              if issubclass e IOError then
                log_retrieve (Could_not_fetch_data_checking_registry app_id) ;;;
                ret None
              else raise e
          end)
         (os_chdir orig_path) ;;
     match results with
     | Some results => ret (self, Some results)
     | None =>
         let exp_config :=
           match exp_config with
           | None | Some [] => []
           | Some ((_ :: _) as given) => given
           end in
         let is_debug (d : dict string) :=
           match dict_get d "mode" with
           | Some m => String.eqb m "debug"
           | None => false
           end in
         if is_registered ext app_id then raise RuntimeError
         else if (is_debug kwargs || is_debug exp_config)%bool then raise RuntimeError
         else if negb (uuid_parses ext app_id) then raise ValueError
         else
           log_retrieve (Appears_to_be_a_new_experiment_id app_id) ;;;
           run fuel (Some exp_config) (Some app_id) bot kwargs
     end) w.

End Methods.

End Lifecycle.

(** ** [dallinger/experiment.py]: [load] *)

Module Loader.
Import PyMore.

(** A class of the experiment module: the [__name__] of each of its
    [__bases__]. *)
Record class_ : Type := Build_class { bases : list string }.

(** What [imp.load_source] gives: the module, as the classes
    [inspect.getmembers(exp, inspect.isclass)] lists (name and class,
    sorted by name), or the exception it raises. *)
Inductive source : Type :=
| Loaded_module (members : list (string * class_))
| ImportError_raised
| Other_exception_raised (e : exn).

Inductive outcome : Type :=
| Returns (name : string) (c : class_)
| Raises_ImportError
| Raises (e : exn).

(** [c[1].__bases__[0].__name__ in "Experiment"], the test of the list
    comprehension; [None] when the class has no base, where the indexing
    raises [IndexError]. *)
Definition derives_from_experiment (c : string * class_) : option bool :=
  match bases (snd c) with
  | [] => None
  | base :: _ => Some (str_contains base "Experiment")
  end.

(** The list comprehension [[c for c in classes if ...]]: the test is
    made on every class, and the first that raises ends it. *)
Fixpoint experiment_classes (classes : list (string * class_))
  : option (list (string * class_)) :=
  match classes with
  | [] => Some []
  | c :: rest =>
      match derives_from_experiment c with
      | None => None
      | Some keep =>
          match experiment_classes rest with
          | None => None
          | Some exps => Some (if keep then c :: exps else exps)
          end
      end
  end.

(** [load()]: the outcome, [sys.path] afterwards, and whether
    [logger.error] was called. *)
Definition load (getcwd : string) (sys_path : list string) (src : source)
  : outcome * list string * bool :=
  let sys_path :=
    if existsb (String.eqb getcwd) sys_path then sys_path
    else (sys_path ++ [getcwd])%list in
  match src with
  | Loaded_module classes =>
      match experiment_classes classes with
      | None => (Raises IndexError, sys_path, false)
      | Some [] => (Raises IndexError, sys_path, false)
      | Some ((this_experiment, c) :: _) => (Returns this_experiment c, sys_path, false)
      end
  | ImportError_raised => (Raises_ImportError, sys_path, true)
  | Other_exception_raised e => (Raises e, sys_path, false)
  end.

End Loader.

(** ** Vocabulary of the further properties *)

Module ExperimentCoverageVocabulary.
Import Experiment ExperimentVocabulary.

(** [Node.fail] leaves the node in its network. *)
Definition node_fail_keeps_network (env : environment) : Prop :=
  forall n n', node_fail env n = Ok n' -> Node.network_id n' = Node.network_id n.

(** The primary key of the node table. *)
Definition unique_node_ids (w : world) : Prop :=
  NoDup (map Node.id (node_table w)).

(** A row of the node table after the nodes of participant [pid] were
    failed: a node of that participant that has not failed takes the
    state [Node.fail] gives it, every other row stays. *)
Definition fail_row (env : environment) (pid : Z) (r : Node.t) : Node.t :=
  if ((Node.participant_id r =? pid) && Bool.eqb (Node.failed r) false)%bool
  then match node_fail env r with Ok r' => r' | Raise _ => r end
  else r.

(** The events [self.log] writes. *)
Definition is_log_line (e : event) : Prop :=
  match e with Stdout _ _ => True | _ => False end.

End ExperimentCoverageVocabulary.

Module LifecycleVocabulary.
Import PyMore Lifecycle.

(** The number of times [s] occurs in [l]. *)
Definition occurrences (s : string) (l : list string) : nat :=
  List.length (filter (String.eqb s) l).

Definition with_events (evs : list event) (w : world) : world :=
  Build_world (network_table w) (node_table w) (participant_table w)
    (random_pos w) (requests_made w) (cwd w) (trace w ++ evs).

(** The world with another network table. *)
Definition with_networks (rows : list Network.t) (w : world) : world :=
  Build_world rows (node_table w) (participant_table w)
    (random_pos w) (requests_made w) (cwd w) (trace w).

(** The rows [setup] adds for one role: each is what [create_network]
    gave for the table as it was then, with the role written into it. *)
Definition created_with (ext : collaborators) (role : string) (n : Network.t)
  : Prop :=
  exists rows, n = set_role role (create_network ext rows).

(** The calls that start an experiment, locally or on the platform. *)
Definition launches (e : event) : bool :=
  match e with
  | Command_line_debug _ _ | Deploy_sandbox_shared_setup _ _ _ => true
  | _ => false
  end.

(** The configuration is in debug mode. *)
Definition is_debug (d : dict string) : bool :=
  match dict_get d "mode" with
  | Some m => String.eqb m "debug"
  | None => false
  end.

(** The steps of the wrapper before the method. *)
Definition entered (ext : collaborators) (w : world) : world :=
  Build_world (network_table w) (node_table w) (participant_table w)
    (random_pos w) (requests_made w) (module_dir ext)
    (trace w ++ [Os_chdir (module_dir ext);
                 Config_register_extra_parameters;
                 Config_load_from_file]).

(** The steps of the wrapper after the method, back to [orig_path]. *)
Definition left (orig_path : string) (w : world) : world :=
  Build_world (network_table w) (node_table w) (participant_table w)
    (random_pos w) (requests_made w) orig_path
    (trace w ++ [Config_clear; Os_chdir orig_path]).

(** The world [collect] leaves after it looked for existing data: it
    went to the directory of the experiment, called [data_load], wrote
    [line] if it logs one, and came back. *)
Definition after_lookup (ext : collaborators) (self : Experiment.experiment)
    (app_id : string) (line : list retrieve_text) (w : world) : world :=
  with_events
    ([Os_chdir (module_dir ext); Data_load_called app_id]
     ++ (if Experiment.verbose self then map Stdout_retrieve line else [])
     ++ [Os_chdir (cwd w)]) w.

(** [exp_config or {}] *)
Definition or_empty (exp_config : option (dict string)) : dict string :=
  match exp_config with
  | None | Some [] => []
  | Some ((_ :: _) as given) => given
  end.

End LifecycleVocabulary.

Module LoaderVocabulary.
Import PyMore Loader.

(** [needle] occurs in [hay]. *)
Definition occurs_in (needle hay : string) : Prop :=
  exists before after, hay = before ++ needle ++ after.

(** The class passes the test of the list comprehension. *)
Definition qualifies (c : string * class_) : bool :=
  match derives_from_experiment c with
  | Some true => true
  | _ => false
  end.

End LoaderVocabulary.

Module CompletionSamples.
Import Experiment.

(** An experiment run in debug mode. *)
Definition debug_self : experiment :=
  Build_experiment true 2 2 "5f3a" [("mode", "debug")].

End CompletionSamples.

Module LifecycleSamples.
Import Lifecycle.

(** [str(uuid.UUID(int=n))]: the 32 hexadecimal digits of [n], in
    groups of 8, 4, 4, 4 and 12. *)
Definition hex_digit (d : N) : ascii :=
  nth (N.to_nat d) (list_ascii_of_string "0123456789abcdef") "0"%char.

Fixpoint hex_digits_from_last (count : nat) (n : N) : list ascii :=
  match count with
  | O => []
  | S count' => hex_digit (n mod 16) :: hex_digits_from_last count' (n / 16)
  end.

Definition sample_uuid_of (n : nat) : string :=
  let hex :=
    string_of_list_ascii (rev (hex_digits_from_last 32 (N.of_nat n))) in
  substring 0 8 hex ++ "-" ++ substring 8 4 hex ++ "-" ++ substring 12 4 hex
  ++ "-" ++ substring 16 4 hex ++ "-" ++ substring 20 12 hex.

(** [uuid.UUID(s, version=4)] on the plain forms of an id: without its
    hyphens the string has to be 32 hexadecimal digits. *)
Definition is_hex_digit (c : ascii) : bool :=
  let n := nat_of_ascii c in
  ((Nat.leb 48 n && Nat.leb n 57) || (Nat.leb 97 n && Nat.leb n 102)
   || (Nat.leb 65 n && Nat.leb n 70))%bool.

Fixpoint without_hyphens (s : string) : string :=
  match s with
  | EmptyString => EmptyString
  | String c rest =>
      if Ascii.eqb c "-"%char then without_hyphens rest
      else String c (without_hyphens rest)
  end.

Definition sample_uuid_parses (s : string) : bool :=
  let hex := without_hyphens s in
  (Nat.eqb (String.length hex) 32
   && forallb is_hex_digit (list_ascii_of_string hex))%bool.

(** New networks are not full and take the next free id.  There is data
    for the application ["5f3a"] and for no other, and the id ["taken"]
    is registered. *)
Definition sample_ext : collaborators :=
  Build_collaborators
    (fun rows => Network.Build (1 + Z.of_nat (List.length rows)) "" false)
    "/app/experiment"
    sample_uuid_of
    (fun app => if String.eqb app "5f3a" then Data_loaded "5f3a-data.zip"
                else Data_raises IOError)
    (fun app => String.eqb app "taken")
    sample_uuid_parses.

(** The same with the storage out of reach: [data_load] raises the
    [RequestException] of [requests]. *)
Definition ext_unreachable : collaborators :=
  Build_collaborators (create_network sample_ext) (module_dir sample_ext)
    sample_uuid_of (fun _ => Data_raises RequestException)
    (is_registered sample_ext) sample_uuid_parses.


Definition carol_bad : Participant.t :=
  Participant.Build 1 "assignment-1" "hit-A" "bad_data" 0 (Some 100).
Definition dan_working : Participant.t :=
  Participant.Build 2 "assignment-2" "hit-A" "working" 0 None.
Definition eve_approved : Participant.t :=
  Participant.Build 3 "assignment-3" "hit-A" "approved" 0 (Some 200).
Definition fay_working : Participant.t :=
  Participant.Build 4 "assignment-4" "hit-A" "working" 0 None.

Definition empty_world : world := Build_world [] [] [] 0 0 "/home/user" [].

Definition four_participants : world :=
  Build_world [] [] [dan_working; carol_bad; fay_working; eve_approved]
    0 0 "/home/user" [].

End LifecycleSamples.

Module LoaderSamples.
Import Loader.

(** A module with a helper class derived from [object], an experiment
    derived from a class called [Exp], and one derived from [Experiment]. *)
Definition helper : string * class_ := ("Helper", Build_class ["object"]).
Definition my_exp : string * class_ := ("Memory", Build_class ["Exp"; "object"]).
Definition real_exp : string * class_ := ("Recall", Build_class ["Experiment"]).
(** An old-style class: it has no base. *)
Definition old_style : string * class_ := ("Zed", Build_class []).

End LoaderSamples.

Module WatchdogSamples.
Import Clock.

(** Judy started 1000 seconds before the cycle, within the hour of the
    HIT; Erin, the first participant, is overdue. *)
Definition judy : Participant.t :=
  Participant.Build 2 "assignment-2" "hit-A" "working" (ClockSamples.seconds 9000) None.

Definition judy_only : world := Build_world [judy] [judy] [].

Definition erin_and_judy : world :=
  Build_world [ClockSamples.erin; judy] [ClockSamples.erin; judy] [].

(** The deployment of [ClockSamples] with a threshold of 0, and with a
    custom domain of 14 characters after the name. *)
Definition env_threshold_0 : environment := ClockSamples.env_threshold 0.

Definition env_custom_domain : environment :=
  Build_environment "lab.example-univ.org" 1%float 1 (ClockSamples.seconds 10000)
    (fun _ => Raise RequestException).

End WatchdogSamples.

(* ================================================================== *)
(** * Part II.  Properties                                              *)
(* ================================================================== *)

(** ** The stable sort *)

Section SortFacts.
Context {A K : Type} (leb : K -> K -> bool) (key : A -> K).
Hypothesis leb_total : forall a b, leb a b = false -> leb b a = true.
Hypothesis leb_trans : forall a b c, leb a b = true -> leb b c = true -> leb a c = true.

Lemma insert_perm (x : A) (l : list A) :
  Permutation (insert leb key x l) (x :: l).
Proof.
  induction l as [|y l IH]; simpl.
  - apply Permutation_refl.
  - destruct (leb (key x) (key y)).
    + apply Permutation_refl.
    + eapply Permutation_trans.
      * apply perm_skip, IH.
      * apply perm_swap.
Qed.

Lemma sort_by_key_perm (l : list A) : Permutation (sort_by_key leb key l) l.
Proof.
  induction l as [|x l IH]; simpl.
  - constructor.
  - eapply Permutation_trans; [apply insert_perm|].
    now apply perm_skip.
Qed.

Lemma sort_by_key_In (l : list A) (x : A) :
  In x (sort_by_key leb key l) <-> In x l.
Proof.
  split; apply Permutation_in;
    [|apply Permutation_sym]; apply sort_by_key_perm.
Qed.

Lemma sort_by_key_length (l : list A) :
  List.length (sort_by_key leb key l) = List.length l.
Proof. apply Permutation_length, sort_by_key_perm. Qed.

Lemma insert_sorted (x : A) (l : list A) :
  StronglySorted (fun a b => leb (key a) (key b) = true) l ->
  StronglySorted (fun a b => leb (key a) (key b) = true) (insert leb key x l).
Proof.
  induction 1 as [|y l Hs IH Hy]; simpl.
  - repeat constructor.
  - destruct (leb (key x) (key y)) eqn:E.
    + constructor; [now constructor|].
      constructor; [exact E|].
      rewrite Forall_forall in *; intros z Hz.
      eapply leb_trans; [exact E|]. now apply Hy.
    + constructor; [exact IH|].
      rewrite Forall_forall in *; intros z Hz.
      apply (Permutation_in _ (insert_perm x l)) in Hz.
      destruct Hz as [<-|Hz]; [now apply leb_total | now apply Hy].
Qed.

Lemma sort_by_key_sorted (l : list A) :
  StronglySorted (fun a b => leb (key a) (key b) = true) (sort_by_key leb key l).
Proof.
  induction l as [|x l IH]; simpl; [constructor | now apply insert_sorted].
Qed.
End SortFacts.

Lemma StronglySorted_filter {A : Type} (R : A -> A -> Prop) (f : A -> bool)
    (l : list A) :
  StronglySorted R l -> StronglySorted R (filter f l).
Proof.
  induction 1 as [|x l Hs IH Hx]; simpl; [constructor|].
  destruct (f x); [|exact IH].
  constructor; [exact IH|].
  rewrite Forall_forall in *; intros y Hy.
  apply filter_In in Hy. now apply Hx.
Qed.

Lemma StronglySorted_app_le {A : Type} (R : A -> A -> Prop) (l1 l2 : list A) :
  StronglySorted R (l1 ++ l2) ->
  forall a b, In a l1 -> In b l2 -> R a b.
Proof.
  induction l1 as [|x l1 IH]; simpl; intros Hs a b Ha Hb; [contradiction|].
  inversion Hs as [|? ? Hs' Hx]; subst.
  destruct Ha as [<-|Ha].
  - rewrite Forall_forall in Hx. apply Hx, in_or_app. now right.
  - now apply IH.
Qed.

Lemma filter_nil_iff {A : Type} (f : A -> bool) (l : list A) :
  filter f l = [] <-> forall x, In x l -> f x = false.
Proof.
  induction l as [|y l IH]; simpl.
  - split; [intros _ x [] | reflexivity].
  - destruct (f y) eqn:E.
    + split; [discriminate|]. intros H. specialize (H y (or_introl eq_refl)). congruence.
    + rewrite IH. split.
      * intros H x [<-|Hx]; [exact E | now apply H].
      * intros H x Hx. apply H. now right.
Qed.

Lemma Zleb_total (a b : Z) : (a <=? b) = false -> (b <=? a) = true.
Proof. intros H. apply Z.leb_gt in H. apply Z.leb_le. lia. Qed.

Lemma Zleb_trans (a b c : Z) :
  (a <=? b) = true -> (b <=? c) = true -> (a <=? c) = true.
Proof. rewrite !Z.leb_le. lia. Qed.

(** The sort looks at the keys through the comparisons only. *)
Lemma insert_ext {A K K' : Type} (leb : K -> K -> bool) (key : A -> K)
    (leb' : K' -> K' -> bool) (key' : A -> K') (x : A) (l : list A) :
  (forall y, In y l -> leb (key x) (key y) = leb' (key' x) (key' y)) ->
  insert leb key x l = insert leb' key' x l.
Proof.
  induction l as [|y l IH]; intros H; simpl; [reflexivity|].
  rewrite (H y (or_introl eq_refl)).
  destruct (leb' (key' x) (key' y)); [reflexivity|].
  f_equal. apply IH. intros z Hz. apply H. now right.
Qed.

Lemma sort_by_key_ext {A K K' : Type} (leb : K -> K -> bool) (key : A -> K)
    (leb' : K' -> K' -> bool) (key' : A -> K') (l : list A) :
  (forall x y, In x l -> In y l -> leb (key x) (key y) = leb' (key' x) (key' y)) ->
  sort_by_key leb key l = sort_by_key leb' key' l.
Proof.
  induction l as [|x l IH]; intros H; simpl; [reflexivity|].
  rewrite <- IH by (intros a b Ha Hb; apply H; now right).
  apply insert_ext. intros y Hy. apply sort_by_key_In in Hy.
  apply H; [now left | now right].
Qed.

Lemma NoDup_map_of_filter {A B : Type} (f : A -> B) (keep : A -> bool)
    (l : list A) :
  NoDup (map f l) -> NoDup (map f (filter keep l)).
Proof.
  induction l as [|x l IH]; simpl; intros H; [constructor|].
  inversion H as [|? ? Hx Hl]; subst.
  destruct (keep x); [|now apply IH].
  simpl. constructor; [|now apply IH].
  intros Hin. apply Hx. apply in_map_iff in Hin.
  destruct Hin as (y & Hy & Hin). apply filter_In in Hin.
  apply in_map_iff. exists y. tauto.
Qed.


(** ** The network allocator *)

Module AllocatorProps.
Import Experiment ExperimentVocabulary.

Lemma legal_networks_spec (w : world) (p : Participant.t) (net : Network.t) :
  In net (legal_networks w p) <-> eligible w p net.
Proof.
  unfold legal_networks, eligible, has_node.
  rewrite filter_In, sort_by_key_In, filter_In.
  split.
  - intros [[Hin Hfull] Hnot]. split; [exact Hin|]. split.
    + now destruct (Network.full net).
    + intros (n & Hn & Hp & Hnet).
      apply negb_true_iff in Hnot.
      assert (existsb (Z.eqb (Network.id net))
                (map Node.network_id
                   (filter (fun n0 => Node.participant_id n0 =? Participant.id p)
                      (node_table w))) = true) as Hex; [|congruence].
      apply existsb_exists. exists (Node.network_id n). split.
      * apply in_map, filter_In. split; [exact Hn|]. now apply Z.eqb_eq.
      * apply Z.eqb_eq. now symmetry.
  - intros (Hin & Hfull & Hnot). split.
    + split; [exact Hin|]. now rewrite Hfull.
    + apply negb_true_iff.
      destruct (existsb _ _) eqn:E; [|reflexivity].
      exfalso. apply Hnot.
      apply existsb_exists in E. destruct E as (z & Hz & Heq).
      apply in_map_iff in Hz. destruct Hz as (n & <- & Hn).
      apply filter_In in Hn. destruct Hn as [Hn Hp].
      exists n. split; [exact Hn|]. split.
      * now apply Z.eqb_eq.
      * apply Z.eqb_eq in Heq. now symmetry.
Qed.

Lemma legal_networks_sorted (w : world) (p : Participant.t) :
  StronglySorted (fun a b => (Network.id a <=? Network.id b) = true)
    (legal_networks w p).
Proof.
  unfold legal_networks. apply StronglySorted_filter.
  apply (sort_by_key_sorted Z.leb Network.id Zleb_total Zleb_trans).
Qed.

(** The method, case by case on the list it builds. *)
Lemma get_network_for_participant_with_unfold self choose p w :
  get_network_for_participant_with self choose p w =
  match legal_networks w p with
  | [] => (Ok None, logged self [Stdout (KeyId (Participant.id p)) No_networks_available] w)
  | first :: others =>
      let w1 :=
        logged self
          [Stdout (KeyId (Participant.id p))
             (Networks_available (List.length (first :: others))
                (practice_repeats self + experiment_repeats self))] w in
      match filter (fun net => String.eqb (Network.role net) "practice")
              (first :: others) with
      | chosen :: _ =>
          (Ok (Some chosen),
           logged self
             [Stdout (KeyId (Participant.id p))
                (Networks_available (List.length (first :: others))
                   (practice_repeats self + experiment_repeats self));
              Stdout (KeyId (Participant.id p))
                (Practice_networks_available (Network.id chosen))] w)
      | [] =>
          match choose (first :: others) p w1 with
          | (Ok chosen, w2) =>
              (Ok (Some chosen),
               logged self
                 [Stdout (KeyId (Participant.id p))
                    (No_practice_networks_available (Network.id chosen))] w2)
          | (Raise e, w2) => (Raise e, w2)
          end
      end
  end.
Proof.
  unfold get_network_for_participant_with, bind, read.
  fold (legal_networks w p).
  destruct (legal_networks w p) as [|first others].
  - unfold log, logged, emit, ret. destruct w. now destruct (verbose self).
  - cbv zeta.
    destruct (filter _ (first :: others)) as [|chosen rest] eqn:Ef.
    + unfold log, logged, emit, ret. destruct w.
      destruct (verbose self); simpl;
        destruct (choose (first :: others) p _) as [[chosen|e] w2];
        try reflexivity; now destruct w2.
    + unfold log, logged, emit, ret. destruct w.
      destruct (verbose self); simpl; rewrite <- ?app_assoc; reflexivity.
Qed.

(** The default policy picks one of the networks it is given. *)
Lemma choose_network_picks env networks p w :
  networks <> [] ->
  exists chosen w',
    choose_network env networks p w = (Ok chosen, w') /\ In chosen networks.
Proof.
  intros Hne. unfold choose_network, random_choice.
  destruct networks as [|x rest]; [congruence|].
  eexists _, _. split; [reflexivity|].
  apply nth_In. apply Nat.mod_upper_bound. discriminate.
Qed.

(** With any policy that answers with one of the networks it is given,
    the method returns [None] or an eligible network. *)
Lemma get_network_for_participant_with_eligible self choose p w :
  (forall networks w0, networks <> [] ->
     exists chosen w', choose networks p w0 = (Ok chosen, w') /\ In chosen networks) ->
  match fst (get_network_for_participant_with self choose p w) with
  | Ok (Some net) => In net (legal_networks w p)
  | Ok None => legal_networks w p = []
  | Raise _ => False
  end.
Proof.
  intros Hchoose. rewrite get_network_for_participant_with_unfold.
  destruct (legal_networks w p) as [|first others] eqn:El; [reflexivity|].
  cbv zeta.
  destruct (filter _ (first :: others)) as [|chosen rest] eqn:Ef.
  - match goal with
    | |- context [choose ?l p ?w1] =>
        destruct (Hchoose l w1) as (chosen & w' & -> & Hin); [discriminate|]
    end.
    exact Hin.
  - simpl fst.
    assert (In chosen (filter (fun net => String.eqb (Network.role net) "practice")
                         (first :: others))) as Hin
      by (rewrite Ef; now left).
    apply filter_In in Hin. tauto.
Qed.

(** C2.  For every participant and every state of the database,
    [get_network_for_participant] returns without raising; a network it
    returns is in the table, has [full = False] and holds no node of the
    participant; it returns [None] exactly when no such network exists.
    The candidates are the networks of [legal_networks], which are in
    ascending order of their ids. *)
Theorem get_network_for_participant_only_new_networks env self p w :
  let outcome := fst (get_network_for_participant env self p w) in
  (exists choice, outcome = Ok choice)
  /\ (forall net, outcome = Ok (Some net) ->
        eligible w p net /\ In net (legal_networks w p))
  /\ (outcome = Ok None <-> ~ exists net, eligible w p net)
  /\ StronglySorted (fun a b => (Network.id a <=? Network.id b) = true)
       (legal_networks w p).
Proof.
  cbv zeta. unfold get_network_for_participant.
  pose proof (get_network_for_participant_with_eligible self
                (choose_network env) p w
                (fun networks w0 => choose_network_picks env networks p w0)) as H.
  destruct (fst (get_network_for_participant_with self (choose_network env) p w))
    as [[net|]|e]; [| |contradiction].
  - split; [now eexists|]. split; [|split].
    + intros net' [= <-]. split; [now apply legal_networks_spec | exact H].
    + split; [discriminate|].
      intros Hno. exfalso. apply Hno. exists net. now apply legal_networks_spec.
    + apply legal_networks_sorted.
  - split; [now eexists|]. split; [|split].
    + discriminate.
    + split; [|reflexivity].
      intros _ (net & Hnet). apply legal_networks_spec in Hnet.
      now rewrite H in Hnet.
    + apply legal_networks_sorted.
Qed.

(** C3.  Whenever a practice network is eligible for the participant, the
    method returns the first practice network of the candidate list, which
    is an eligible practice network of least id; whatever the policy
    [choose_network] is (it may even raise), the outcome and the world are
    the same, only the two log lines being written: the policy is not
    consulted. *)
Theorem practice_networks_take_priority self choose p w :
  (exists net, eligible w p net /\ Network.role net = "practice") ->
  exists chosen,
    get_network_for_participant_with self choose p w =
      (Ok (Some chosen),
       logged self
         [Stdout (KeyId (Participant.id p))
            (Networks_available (List.length (legal_networks w p))
               (practice_repeats self + experiment_repeats self));
          Stdout (KeyId (Participant.id p))
            (Practice_networks_available (Network.id chosen))] w)
    /\ hd_error (filter (fun net => String.eqb (Network.role net) "practice")
                   (legal_networks w p)) = Some chosen
    /\ eligible w p chosen
    /\ Network.role chosen = "practice"
    /\ (forall net, eligible w p net -> Network.role net = "practice" ->
          Network.id chosen <= Network.id net).
Proof.
  intros (net0 & Hel0 & Hrole0).
  apply legal_networks_spec in Hel0.
  assert (In net0 (filter (fun net => String.eqb (Network.role net) "practice")
                     (legal_networks w p))) as Hin0
    by (apply filter_In; split; [exact Hel0 | now apply String.eqb_eq]).
  pose proof (StronglySorted_filter _
                (fun net => String.eqb (Network.role net) "practice") _
                (legal_networks_sorted w p)) as Hsorted.
  rewrite get_network_for_participant_with_unfold.
  destruct (legal_networks w p) as [|first others] eqn:El; [contradiction|].
  cbv zeta.
  destruct (filter _ (first :: others)) as [|chosen rest] eqn:Ef; [contradiction|].
  exists chosen. split; [reflexivity|]. split; [reflexivity|].
  assert (In chosen (filter (fun net => String.eqb (Network.role net) "practice")
                       (first :: others))) as Hin
    by (rewrite Ef; now left).
  apply filter_In in Hin. destruct Hin as [Hin Hrole].
  split; [apply legal_networks_spec; now rewrite El|].
  split; [now apply String.eqb_eq|].
  intros net Hel Hr.
  apply legal_networks_spec in Hel. rewrite El in Hel.
  assert (In net (chosen :: rest)) as Hnet
    by (rewrite <- Ef; apply filter_In; split; [exact Hel | now apply String.eqb_eq]).
  inversion Hsorted as [|? ? _ Hall]; subst.
  destruct Hnet as [<-|Hnet]; [lia|].
  rewrite Forall_forall in Hall. apply Z.leb_le. now apply Hall.
Qed.

(** The policy is consulted in the remaining case: some network is
    eligible and none of the eligible ones is a practice network.  It is
    given the whole candidate list, and its answer is returned. *)
Lemma choose_network_consulted_without_practice self choose p w :
  legal_networks w p <> [] ->
  (forall net, eligible w p net -> Network.role net <> "practice") ->
  get_network_for_participant_with self choose p w =
    match choose (legal_networks w p) p
            (logged self
               [Stdout (KeyId (Participant.id p))
                  (Networks_available (List.length (legal_networks w p))
                     (practice_repeats self + experiment_repeats self))] w) with
    | (Ok chosen, w2) =>
        (Ok (Some chosen),
         logged self
           [Stdout (KeyId (Participant.id p))
              (No_practice_networks_available (Network.id chosen))] w2)
    | (Raise e, w2) => (Raise e, w2)
    end.
Proof.
  intros Hne Hnone.
  rewrite get_network_for_participant_with_unfold.
  destruct (legal_networks w p) as [|first others] eqn:El; [congruence|].
  cbv zeta.
  destruct (filter _ (first :: others)) as [|chosen rest] eqn:Ef; [reflexivity|].
  exfalso.
  assert (In chosen (filter (fun net => String.eqb (Network.role net) "practice")
                       (first :: others))) as Hin
    by (rewrite Ef; now left).
  apply filter_In in Hin. destruct Hin as [Hin Hrole].
  apply (Hnone chosen).
  - apply legal_networks_spec. now rewrite El.
  - now apply String.eqb_eq.
Qed.

(** Bob, who has no node yet, is sent to practice network 1 although the
    table lists it last; the policy given here would raise if it were
    called. *)
Lemma practice_networks_take_priority_witness :
  exists chosen,
    get_network_for_participant_with ExperimentSamples.sample_self
      (fun _ _ => raise NotImplementedError)
      ExperimentSamples.bob ExperimentSamples.sample_world =
      (Ok (Some chosen),
       logged ExperimentSamples.sample_self
         [Stdout (KeyId 8) (Networks_available 3 4);
          Stdout (KeyId 8) (Practice_networks_available (Network.id chosen))]
         ExperimentSamples.sample_world)
    /\ hd_error (filter (fun net => String.eqb (Network.role net) "practice")
                   (legal_networks ExperimentSamples.sample_world
                      ExperimentSamples.bob)) = Some chosen
    /\ eligible ExperimentSamples.sample_world ExperimentSamples.bob chosen
    /\ Network.role chosen = "practice"
    /\ (forall net,
          eligible ExperimentSamples.sample_world ExperimentSamples.bob net ->
          Network.role net = "practice" ->
          Network.id chosen <= Network.id net).
Proof.
  apply (practice_networks_take_priority ExperimentSamples.sample_self
           (fun _ _ => raise NotImplementedError)
           ExperimentSamples.bob ExperimentSamples.sample_world).
  exists ExperimentSamples.practice_1. split; [|reflexivity].
  apply legal_networks_spec. vm_compute. left. reflexivity.
Defined.

Example nobody_gets_a_full_network :
  fst (get_network_for_participant ExperimentSamples.sample_env
         ExperimentSamples.sample_self ExperimentSamples.bob
         ExperimentSamples.all_full_world)
  = Ok None.
Proof. reflexivity. Qed.

Example alice_gets_an_experiment_network :
  fst (get_network_for_participant ExperimentSamples.sample_env
         ExperimentSamples.sample_self ExperimentSamples.alice
         ExperimentSamples.sample_world)
  = Ok (Some ExperimentSamples.experiment_4).
Proof. reflexivity. Qed.

Example bob_gets_the_practice_network :
  fst (get_network_for_participant ExperimentSamples.sample_env
         ExperimentSamples.sample_self ExperimentSamples.bob
         ExperimentSamples.sample_world)
  = Ok (Some ExperimentSamples.practice_1).
Proof. reflexivity. Qed.

End AllocatorProps.

(** ** Recruitment *)

Module RecruitmentProps.
Import Experiment ExperimentVocabulary.

(** The [recruiter] property raises [RuntimeError] while the
    configuration is not loaded and [NotImplementedError] under the
    setting ['bogus']; it returns a recruiter class in every other case.
    It never changes the world. *)
Lemma recruiter_unloaded env w :
  config env = None -> recruiter env w = (Raise RuntimeError, w).
Proof.
  intros H. unfold recruiter, bind, try_except, config_get. rewrite H.
  reflexivity.
Qed.

Lemma recruiter_bogus env settings w :
  config env = Some settings ->
  dict_get settings "recruiter" = Some "bogus" ->
  recruiter env w = (Raise NotImplementedError, w).
Proof.
  intros Hc H. unfold recruiter, bind, try_except, config_get. rewrite Hc.
  unfold ret. now rewrite H.
Qed.

Lemma recruiter_resolves env w :
  recruiter_available env -> exists r, recruiter env w = (Ok r, w).
Proof.
  intros (settings & Hc & H).
  unfold recruiter, bind, try_except, config_get. rewrite Hc. unfold ret.
  destruct (dict_get settings "recruiter") as [r|].
  - destruct (String.eqb r "bogus") eqn:E.
    + apply String.eqb_eq in E. congruence.
    + repeat match goal with
             | |- context [if ?b then _ else _] => destruct b
             end; eexists; reflexivity.
  - repeat match goal with
           | |- context [if ?b then _ else _] => destruct b
           end; eexists; reflexivity.
Qed.

Lemma recruiter_keeps_the_world env w : snd (recruiter env w) = w.
Proof.
  unfold recruiter, bind, try_except, config_get.
  destruct (config env) as [settings|]; [|reflexivity]. unfold ret.
  repeat match goal with
         | |- context [if ?b then _ else _] => destruct b
         end; reflexivity.
Qed.

Lemma recruit_with_open_network env self w :
  (exists net, open_network w net) -> recruit env self w = (Ok tt, w).
Proof.
  intros (net & Hin & Hfull).
  unfold recruit, networks, bind, read.
  destruct (filter _ (network_table w)) as [|n l] eqn:Ef; [|reflexivity].
  exfalso. rewrite filter_nil_iff in Ef. specialize (Ef net Hin).
  rewrite Hfull in Ef. discriminate.
Qed.

Lemma recruit_without_open_network env self w r :
  (forall net, ~ open_network w net) ->
  recruiter env (logged self [Stdout (KeyStr "-----") All_networks_full] w)
    = (Ok r, logged self [Stdout (KeyStr "-----") All_networks_full] w) ->
  recruit env self w =
    (Ok tt,
     with_events [Close_recruitment r]
       (logged self [Stdout (KeyStr "-----") All_networks_full] w)).
Proof.
  intros Hnone Hr.
  unfold recruit, networks, bind, read.
  destruct (filter _ (network_table w)) as [|n l] eqn:Ef.
  - unfold log, ret. destruct (verbose self) eqn:Ev.
    + unfold emit at 1. unfold logged in Hr. rewrite Ev in Hr.
      unfold logged. rewrite Ev. rewrite Hr. reflexivity.
    + unfold logged in Hr. rewrite Ev in Hr. destruct w; simpl in *.
      rewrite Hr. unfold logged. rewrite Ev. reflexivity.
  - exfalso.
    assert (In n (filter (fun n0 => Bool.eqb (Network.full n0) false)
                    (network_table w))) as Hin by (rewrite Ef; now left).
    apply filter_In in Hin. destruct Hin as [Hin Hfull].
    apply (Hnone n). split; [exact Hin|]. now destruct (Network.full n).
Qed.

(** Without an open network the method logs and goes on to
    [self.recruiter().close_recruitment()]. *)
Lemma recruit_reaches_close_recruitment env self w :
  (forall net, ~ open_network w net) ->
  recruit env self w =
    bind (recruiter env) (fun r => emit (Close_recruitment r))
      (logged self [Stdout (KeyStr "-----") All_networks_full] w).
Proof.
  intros Hnone.
  unfold recruit, networks, bind at 1, read.
  destruct (filter _ (network_table w)) as [|n l] eqn:Ef.
  - unfold log, logged. destruct (verbose self).
    + reflexivity.
    + unfold bind at 1, ret. now destruct w.
  - exfalso.
    assert (In n (filter (fun n0 => Bool.eqb (Network.full n0) false)
                    (network_table w))) as Hin by (rewrite Ef; now left).
    apply filter_In in Hin. destruct Hin as [Hin Hfull].
    apply (Hnone n). split; [exact Hin|]. now destruct (Network.full n).
Qed.

(** Without an open network, what [recruit] does is decided by the
    [recruiter] property, read after the log line was written. *)
Lemma recruit_without_recruiter env self w e :
  (forall net, ~ open_network w net) ->
  recruiter env (logged self [Stdout (KeyStr "-----") All_networks_full] w)
  = (Raise e, logged self [Stdout (KeyStr "-----") All_networks_full] w) ->
  recruit env self w
  = (Raise e, logged self [Stdout (KeyStr "-----") All_networks_full] w).
Proof.
  intros Hnone Hr. rewrite (recruit_reaches_close_recruitment env self w Hnone).
  unfold bind. now rewrite Hr.
Qed.

(** C7, as the code has it.  When a network with [full = False] exists,
    [recruit] does nothing and leaves the world as it was.  When none
    remains, it writes its log line and asks the [recruiter] property for
    the recruiter: if the configuration is loaded and its [recruiter]
    setting is not the test hook ['bogus'], [close_recruitment] is issued
    to that recruiter; under ['bogus'] the call raises
    [NotImplementedError], and with the configuration not loaded
    [RuntimeError], and no command is issued.  So the command is issued
    if and only if no network with [full = False] remains and the
    property yields a recruiter. *)
Theorem recruit_closes_iff_no_open_network env self w :
  ((exists net, open_network w net) -> recruit env self w = (Ok tt, w))
  /\ ((forall net, ~ open_network w net) ->
      (recruiter_available env ->
       exists r,
         recruit env self w =
           (Ok tt,
            with_events [Close_recruitment r]
              (logged self [Stdout (KeyStr "-----") All_networks_full] w)))
      /\ (forall settings,
            config env = Some settings ->
            dict_get settings "recruiter" = Some "bogus" ->
            recruit env self w =
              (Raise NotImplementedError,
               logged self [Stdout (KeyStr "-----") All_networks_full] w))
      /\ (config env = None ->
          recruit env self w =
            (Raise RuntimeError,
             logged self [Stdout (KeyStr "-----") All_networks_full] w)))
  /\ ((exists r added,
         trace (snd (recruit env self w)) = (trace w ++ added)%list
         /\ In (Close_recruitment r) added)
      <-> (forall net, ~ open_network w net) /\ recruiter_available env).
Proof.
  assert ((forall net, ~ open_network w net) ->
          recruiter_available env ->
          exists r,
            recruit env self w =
              (Ok tt,
               with_events [Close_recruitment r]
                 (logged self [Stdout (KeyStr "-----") All_networks_full] w)))
    as Hclose.
  { intros Hnone Hcfg.
    destruct (recruiter_resolves env
                (logged self [Stdout (KeyStr "-----") All_networks_full] w) Hcfg)
      as (r & Hr).
    exists r. now apply recruit_without_open_network. }
  assert (forall e,
            (forall net, ~ open_network w net) ->
            recruit env self w =
              (Raise e, logged self [Stdout (KeyStr "-----") All_networks_full] w) ->
            forall r added,
              trace (snd (recruit env self w)) = (trace w ++ added)%list ->
              ~ In (Close_recruitment r) added) as Hraised.
  { intros e Hnone Hrun r added Htrace Hin. rewrite Hrun in Htrace.
    cbn [snd] in Htrace. unfold logged in Htrace. cbn [trace] in Htrace.
    destruct (verbose self).
    - apply app_inv_head in Htrace. subst added.
      destruct Hin as [Hin|[]]. discriminate.
    - rewrite <- (app_nil_r (trace w)) in Htrace at 1.
      apply app_inv_head in Htrace. subst added. destruct Hin. }
  split; [apply recruit_with_open_network|]. split.
  - intros Hnone. split; [now apply Hclose|]. split.
    + intros settings Hc Hbogus. apply recruit_without_recruiter; [exact Hnone|].
      now apply (recruiter_bogus env settings).
    + intros Hc. apply recruit_without_recruiter; [exact Hnone|].
      now apply recruiter_unloaded.
  - split.
    + intros (r & added & Htrace & Hin).
      assert (forall net, ~ open_network w net) as Hnone.
      { intros net Hopen.
        rewrite (recruit_with_open_network env self w) in Htrace
          by (now exists net).
        simpl in Htrace.
        rewrite <- (app_nil_r (trace w)) in Htrace at 1.
        apply app_inv_head in Htrace. subst added. contradiction. }
      split; [exact Hnone|].
      destruct (config env) as [settings|] eqn:Hc.
      * destruct (dict_get settings "recruiter") as [name|] eqn:Hs.
        -- destruct (String.eqb name "bogus") eqn:E.
           ++ apply String.eqb_eq in E. subst name. exfalso.
              apply (Hraised NotImplementedError Hnone) with (r := r)
                (added := added); [|exact Htrace|exact Hin].
              apply recruit_without_recruiter; [exact Hnone|].
              now apply (recruiter_bogus env settings).
           ++ exists settings. split; [exact Hc|]. rewrite Hs.
              intros Heq. inversion Heq. subst name.
              rewrite String.eqb_refl in E. discriminate.
        -- exists settings. split; [exact Hc|]. rewrite Hs. discriminate.
      * exfalso.
        apply (Hraised RuntimeError Hnone) with (r := r) (added := added);
          [|exact Htrace|exact Hin].
        apply recruit_without_recruiter; [exact Hnone|].
        now apply recruiter_unloaded.
    + intros [Hnone Hcfg]. destruct (Hclose Hnone Hcfg) as (r & ->).
      exists r. simpl. unfold logged.
      destruct (verbose self); simpl.
      * exists [Stdout (KeyStr "-----") All_networks_full; Close_recruitment r].
        rewrite <- app_assoc. split; [reflexivity|]. simpl. tauto.
      * exists [Close_recruitment r]. split; [reflexivity|]. now left.
Qed.

Lemma recruit_closes_iff_no_open_network_witness :
  recruit ExperimentSamples.sample_env ExperimentSamples.sample_self
    ExperimentSamples.sample_world = (Ok tt, ExperimentSamples.sample_world)
  /\ recruit ExperimentSamples.sample_env ExperimentSamples.sample_self
       ExperimentSamples.all_full_world =
     (Ok tt,
      with_events
        [Stdout (KeyStr "-----") All_networks_full; Close_recruitment MTurkRecruiter]
        ExperimentSamples.all_full_world)
  /\ recruit (ExperimentSamples.env_configured None)
       ExperimentSamples.sample_self ExperimentSamples.all_full_world =
     (Raise RuntimeError,
      with_events [Stdout (KeyStr "-----") All_networks_full]
        ExperimentSamples.all_full_world).
Proof.
  assert (forall net, ~ open_network ExperimentSamples.all_full_world net)
    as Hfull by (intros net [[<-|[]] Hf]; discriminate).
  split; [|split].
  - apply (recruit_closes_iff_no_open_network ExperimentSamples.sample_env
             ExperimentSamples.sample_self ExperimentSamples.sample_world).
    exists ExperimentSamples.experiment_4. split; [now left | reflexivity].
  - destruct (recruit_closes_iff_no_open_network ExperimentSamples.sample_env
                ExperimentSamples.sample_self ExperimentSamples.all_full_world)
      as (_ & Hnone & _).
    destruct (Hnone Hfull) as (Hclose & _).
    destruct Hclose as (r & Hr).
    + exists [("mode", "sandbox")]. split; [reflexivity|discriminate].
    + reflexivity.
  - destruct (recruit_closes_iff_no_open_network
                (ExperimentSamples.env_configured None)
                ExperimentSamples.sample_self ExperimentSamples.all_full_world)
      as (_ & Hnone & _).
    destruct (Hnone Hfull) as (_ & _ & Hunloaded).
    apply Hunloaded. reflexivity.
Defined.

(** C7, as stated, fails under the test hook.  Every network is full, so
    no network with [full = False] remains; under the recruiter setting
    ['bogus'] the call raises [NotImplementedError] after its log line,
    and no [close_recruitment] command has been issued. *)
Lemma recruit_under_bogus_closes_nothing :
  (forall net, ~ open_network ExperimentSamples.all_full_world net)
  /\ recruit ExperimentSamples.bogus_env ExperimentSamples.sample_self
       ExperimentSamples.all_full_world
     = (Raise NotImplementedError,
        with_events [Stdout (KeyStr "-----") All_networks_full]
          ExperimentSamples.all_full_world)
  /\ filter closes_recruitment
       (trace (snd (recruit ExperimentSamples.bogus_env
                      ExperimentSamples.sample_self
                      ExperimentSamples.all_full_world))) = [].
Proof.
  split; [|split; reflexivity].
  intros net [[<-|[]] Hf]. discriminate.
Qed.

End RecruitmentProps.

(** ** Failing a participant *)

Module FailureProps.
Import Experiment ExperimentVocabulary.

Section RowAfter.
Variable env : environment.
Hypothesis contract : node_fail_contract env.

Lemma row_after_id l r :
  Forall (fun n => Node.failed n = false) l ->
  Node.id (row_after env l r) = Node.id r.
Proof.
  intros Hl. revert r.
  induction Hl as [|x l Hx Hl IH]; intros r; simpl; [reflexivity|].
  rewrite IH.
  destruct (Node.id r =? Node.id x) eqn:E; [|reflexivity].
  destruct (contract x Hx) as (x' & -> & _ & Hid & _).
  apply Z.eqb_eq in E. congruence.
Qed.

Lemma row_after_stays_failed l r :
  Forall (fun n => Node.failed n = false) l ->
  Node.failed r = true -> Node.failed (row_after env l r) = true.
Proof.
  intros Hl. revert r.
  induction Hl as [|x l Hx Hl IH]; intros r Hr; simpl; [exact Hr|].
  apply IH.
  destruct (Node.id r =? Node.id x); [|exact Hr].
  now destruct (contract x Hx) as (x' & -> & Hf & _).
Qed.

Lemma row_after_touched l r :
  Forall (fun n => Node.failed n = false) l ->
  In (Node.id r) (map Node.id l) -> Node.failed (row_after env l r) = true.
Proof.
  intros Hl. revert r.
  induction Hl as [|x l Hx Hl IH]; intros r Hin; simpl in *; [contradiction|].
  destruct (contract x Hx) as (x' & Hx' & Hf & Hid & _). rewrite Hx'.
  destruct (Node.id r =? Node.id x) eqn:E.
  - now apply row_after_stays_failed.
  - apply IH. destruct Hin as [Hin|Hin]; [|exact Hin].
    apply Z.eqb_neq in E. congruence.
Qed.

Lemma row_after_same_or_failed l r :
  Forall (fun n => Node.failed n = false) l ->
  row_after env l r = r \/ Node.failed (row_after env l r) = true.
Proof.
  intros Hl. revert r.
  induction Hl as [|x l Hx Hl IH]; intros r; simpl; [now left|].
  destruct (contract x Hx) as (x' & Hx' & Hf & _). rewrite Hx'.
  destruct (Node.id r =? Node.id x).
  - right. now apply row_after_stays_failed.
  - apply IH.
Qed.

(** The loop of [fail_participant] over nodes that have not failed: it
    returns normally, calls [fail] once on each node in order, and rewrites
    the node table row by row. *)
Lemma for_each_Node_fail l :
  Forall (fun n => Node.failed n = false) l ->
  forall w,
    for_each l (Node_fail env) w =
      (Ok tt,
       Build_world (network_table w) (map (row_after env l) (node_table w))
         (random_pos w) (requests_made w)
         (trace w ++ map Call_Node_fail l)).
Proof.
  induction 1 as [|x l Hx Hl IH]; intros w; simpl.
  - unfold ret. rewrite map_id, app_nil_r. now destruct w.
  - unfold bind at 1. unfold Node_fail at 1. unfold bind, emit, read, set_node_table.
    destruct (contract x Hx) as (x' & Hx' & _). rewrite Hx'.
    rewrite IH. simpl. rewrite map_map, <- app_assoc. reflexivity.
Qed.
End RowAfter.

Lemma participant_nodes_not_failed p w :
  Forall (fun n => Node.failed n = false) (participant_nodes p w).
Proof.
  apply Forall_forall. intros n Hn. unfold participant_nodes in Hn.
  apply filter_In in Hn. destruct Hn as [_ Hn].
  apply andb_true_iff in Hn. destruct Hn as [_ Hn].
  now destruct (Node.failed n).
Qed.

(** C8.  Given [Node.fail] as the models module provides it (see
    [node_fail_contract]), [fail_participant] returns normally; it calls
    [fail] exactly on the nodes of the participant that have
    [failed = False]; afterwards every node of the participant is failed;
    and a second call makes no call to [fail] and leaves the world, hence
    the set of failed nodes, exactly as the first call left it. *)
Theorem fail_participant_idempotent env p w :
  node_fail_contract env ->
  exists w1,
    fail_participant env p w = (Ok tt, w1)
    /\ (forall n, In n (node_table w1) ->
          Node.participant_id n = Participant.id p -> Node.failed n = true)
    /\ trace w1 = (trace w ++ map Call_Node_fail (participant_nodes p w))%list
    /\ (forall n, In n (participant_nodes p w) ->
          In n (node_table w) /\ Node.participant_id n = Participant.id p
          /\ Node.failed n = false)
    /\ fail_participant env p w1 = (Ok tt, w1).
Proof.
  intros contract.
  pose proof (participant_nodes_not_failed p w) as Hl.
  assert (fail_participant env p w =
            for_each (participant_nodes p w) (Node_fail env) w) as Hrun
    by reflexivity.
  rewrite (for_each_Node_fail env contract _ Hl) in Hrun.
  eexists. split; [exact Hrun|].
  assert (forall n,
            In n (map (row_after env (participant_nodes p w)) (node_table w)) ->
            Node.participant_id n = Participant.id p -> Node.failed n = true)
    as Hall.
  { intros n Hn Hp. apply in_map_iff in Hn. destruct Hn as (r0 & <- & Hr0).
    destruct (row_after_same_or_failed env contract _ r0 Hl) as [Hsame|Hfailed];
      [|exact Hfailed].
    destruct (Node.failed r0) eqn:Ef.
    - now apply row_after_stays_failed.
    - apply row_after_touched; [exact contract | exact Hl |].
      apply in_map. unfold participant_nodes. apply filter_In.
      split; [exact Hr0|]. rewrite Hsame in Hp.
      apply andb_true_iff. split; [now apply Z.eqb_eq | now rewrite Ef]. }
  split; [exact Hall|]. split; [reflexivity|]. split.
  - intros n Hn. unfold participant_nodes in Hn. apply filter_In in Hn.
    destruct Hn as [Hin Hn]. apply andb_true_iff in Hn. destruct Hn as [Hp Hf].
    split; [exact Hin|]. split; [now apply Z.eqb_eq|].
    now destruct (Node.failed n).
  - unfold fail_participant, bind, read. simpl node_table.
    match goal with
    | |- for_each ?sel _ _ = _ => assert (sel = []) as ->
    end.
    { apply filter_nil_iff. intros n Hn.
      destruct (Node.participant_id n =? Participant.id p) eqn:Ep; [|reflexivity].
      apply Z.eqb_eq in Ep. now rewrite (Hall n Hn Ep). }
    reflexivity.
Qed.

(** Alice's two nodes: the one in network 1 has failed already, so only
    the one in network 2 is failed by the call. *)
Lemma fail_participant_idempotent_witness :
  exists w1,
    fail_participant ExperimentSamples.sample_env ExperimentSamples.alice
      ExperimentSamples.sample_world = (Ok tt, w1)
    /\ (forall n, In n (node_table w1) ->
          Node.participant_id n = Participant.id ExperimentSamples.alice ->
          Node.failed n = true)
    /\ trace w1 =
         (trace ExperimentSamples.sample_world
          ++ map Call_Node_fail
               (participant_nodes ExperimentSamples.alice
                  ExperimentSamples.sample_world))%list
    /\ (forall n,
          In n (participant_nodes ExperimentSamples.alice
                  ExperimentSamples.sample_world) ->
          In n (node_table ExperimentSamples.sample_world)
          /\ Node.participant_id n = Participant.id ExperimentSamples.alice
          /\ Node.failed n = false)
    /\ fail_participant ExperimentSamples.sample_env ExperimentSamples.alice w1
       = (Ok tt, w1).
Proof.
  apply (fail_participant_idempotent ExperimentSamples.sample_env
           ExperimentSamples.alice ExperimentSamples.sample_world).
  intros n Hn. eexists. split; [reflexivity|]. simpl. auto.
Defined.

Example fail_alice_trace :
  trace (snd (fail_participant ExperimentSamples.sample_env ExperimentSamples.alice
                ExperimentSamples.sample_world))
  = [Call_Node_fail ExperimentSamples.alice_node_2].
Proof. reflexivity. Qed.

End FailureProps.

(** ** Waiting for the experiment to complete *)

Module CompletionProps.
Import Experiment ExperimentVocabulary.

(** The template of [experiment_completed] has no replacement field, so
    the URL it builds is the same for every application. *)
Lemma status_url_ignores_the_application (url : string) :
  format1 "/summary" url = "/summary".
Proof. reflexivity. Qed.

(** With a field in the template the URL of the application would be
    used. *)
Lemma status_url_with_a_field (url : string) :
  format1 "{}/summary" url = url ++ "/summary".
Proof. reflexivity. Qed.

Lemma experiment_completed_refused env self w :
  rejects_schemeless env ->
  experiment_completed env self w =
    (Ok (PyBool false),
     Build_world (network_table w) (node_table w) (random_pos w)
       (S (requests_made w))
       (trace w ++ [Requests_get "/summary"; Logger_exception; Logger_debug []])).
Proof.
  intros Hrej.
  unfold experiment_completed, bind, try_except, requests_get_json.
  rewrite status_url_ignores_the_application.
  rewrite (Hrej (requests_made w) "/summary" eq_refl).
  simpl. unfold emit, ret, bind. simpl. rewrite <- !app_assoc. reflexivity.
Qed.

Lemma wait_for_completion_refused env self :
  rejects_schemeless env ->
  forall fuel w,
    wait_for_completion env self fuel w =
      (Ok false,
       Build_world (network_table w) (node_table w) (random_pos w)
         (fuel + requests_made w)
         (trace w ++ List.concat (repeat refused_poll fuel))).
Proof.
  intros Hrej. induction fuel as [|fuel IH]; intros w.
  - simpl. unfold ret. rewrite app_nil_r. now destruct w.
  - cbn [wait_for_completion]. unfold bind at 1.
    rewrite experiment_completed_refused by exact Hrej.
    cbn [is_False]. unfold bind, emit. rewrite IH. simpl.
    rewrite <- !app_assoc. simpl. rewrite Nat.add_succ_r. reflexivity.
Qed.

(** C9 (what the code does in a managed run).  The status URL is built
    from a template without a field, so it is ["/summary"] whatever the
    application; an HTTP client that refuses a URL without a scheme raises
    on it, the exception is caught, and [experiment_completed] answers
    [False].  Hence outside debug mode, whatever the status endpoint of the
    deployment would answer and however long the loop is run, it has not
    been left: every round makes the same refused request and sleeps 30
    seconds, and neither the teardown nor the data export is reached. *)
Theorem finish_experiment_never_leaves_the_loop env self fuel w :
  rejects_schemeless env ->
  dict_get (exp_config self) "mode" <> Some "debug" ->
  _finish_experiment env self fuel w =
    (Ok None,
     Build_world (network_table w) (node_table w) (random_pos w)
       (fuel + requests_made w)
       (trace (logged self [Stdout (KeyStr "") Waiting_for_experiment] w)
        ++ List.concat (repeat refused_poll fuel))).
Proof.
  intros Hrej Hmode. unfold _finish_experiment.
  assert (match dict_get (exp_config self) "mode" with
          | Some m => String.eqb m "debug"
          | None => false
          end = false) as ->.
  { destruct (dict_get (exp_config self) "mode") as [m|]; [|reflexivity].
    destruct (String.eqb m "debug") eqn:E; [|reflexivity].
    apply String.eqb_eq in E. congruence. }
  cbn [negb]. unfold bind at 1. unfold log, logged.
  destruct (verbose self).
  - unfold emit at 1. unfold bind.
    rewrite wait_for_completion_refused by exact Hrej. reflexivity.
  - unfold ret at 1. unfold bind.
    rewrite wait_for_completion_refused by exact Hrej. reflexivity.
Qed.

(** The sample deployment: its status endpoint reports completion at the
    URL of the application, and yet [_finish_experiment] is still polling
    after a thousand rounds. *)
Lemma finish_experiment_never_leaves_the_loop_witness :
  requests_json ExperimentSamples.sample_env 0
    (heroku_url ExperimentSamples.sample_env
       (app_id ExperimentSamples.sample_self) ++ "/summary")
    = Ok [("completed", PyBool true)]
  /\ fst (_finish_experiment ExperimentSamples.sample_env
            ExperimentSamples.sample_self 1000 ExperimentSamples.sample_world)
     = Ok None.
Proof.
  split; [reflexivity|].
  rewrite (finish_experiment_never_leaves_the_loop ExperimentSamples.sample_env
             ExperimentSamples.sample_self 1000 ExperimentSamples.sample_world).
  - reflexivity.
  - intros k url H. unfold has_scheme in H.
    apply orb_false_iff in H. destruct H as [H1 H2].
    simpl. rewrite H1, H2. reflexivity.
  - vm_compute. discriminate.
Defined.

(** In debug mode the loop and the teardown are skipped: the data are
    exported at once, from the local database. *)
Lemma finish_experiment_debug env self fuel w :
  dict_get (exp_config self) "mode" = Some "debug" ->
  _finish_experiment env self fuel w =
    (Ok (Some (export_filename env (app_id self) true)),
     with_events
       [Data_export (app_id self) true;
        Logger_debug_exported (export_filename env (app_id self) true)] w).
Proof.
  intros Hmode. unfold _finish_experiment, retrieve_data. rewrite Hmode.
  cbn [String.eqb Ascii.eqb Bool.eqb negb].
  unfold bind, emit, ret, with_events. cbn [network_table node_table random_pos
                                           requests_made trace].
  rewrite <- app_assoc. reflexivity.
Qed.

(** One round of the loop when the request is answered. *)
Lemma wait_for_completion_round env self fuel w (v : value) :
  requests_json env (requests_made w) "/summary" = Ok [("completed", v)] ->
  wait_for_completion env self (S fuel) w =
    if is_False v
    then wait_for_completion env self fuel
           (Build_world (network_table w) (node_table w) (random_pos w)
              (S (requests_made w))
              (trace w ++ [Requests_get "/summary";
                           Logger_debug [("completed", v)];
                           Time_sleep 30]))
    else (Ok true,
          Build_world (network_table w) (node_table w) (random_pos w)
            (S (requests_made w))
            (trace w ++ [Requests_get "/summary";
                         Logger_debug [("completed", v)]])).
Proof.
  intros Hget. cbn [wait_for_completion]. unfold bind at 1.
  unfold experiment_completed, bind, try_except, requests_get_json.
  rewrite status_url_ignores_the_application, Hget.
  unfold emit, ret.
  change (dict_get_default [("completed", v)] "completed" (PyBool false)) with v.
  destruct (is_False v); cbn [network_table node_table random_pos requests_made trace];
    rewrite <- !app_assoc; reflexivity.
Qed.

(** The loop logic by itself: were the request to ["/summary"] answered,
    with [completed] being [False] in the first [k] rounds and another
    value in the next, the loop would be left after [k] sleeps of 30
    seconds. *)
Lemma wait_for_completion_leaves env self (v : value) :
  is_False v = false ->
  forall k w,
    (forall i, (i < k)%nat ->
       requests_json env (requests_made w + i) "/summary"
       = Ok [("completed", PyBool false)]) ->
    requests_json env (requests_made w + k) "/summary" = Ok [("completed", v)] ->
    fst (wait_for_completion env self (S k) w) = Ok true
    /\ trace (snd (wait_for_completion env self (S k) w)) =
         (trace w
          ++ List.concat
               (repeat [Requests_get "/summary";
                        Logger_debug [("completed", PyBool false)];
                        Time_sleep 30] k)
          ++ [Requests_get "/summary"; Logger_debug [("completed", v)]])%list.
Proof.
  intros Hv. induction k as [|k IH]; intros w Hfalse Hlast.
  - rewrite Nat.add_0_r in Hlast.
    rewrite (wait_for_completion_round env self 0 w v Hlast), Hv.
    split; reflexivity.
  - pose proof (Hfalse 0%nat (Nat.lt_0_succ k)) as H0. rewrite Nat.add_0_r in H0.
    rewrite (wait_for_completion_round env self (S k) w (PyBool false) H0).
    cbn [is_False].
    match goal with
    | |- context [wait_for_completion env self (S k) ?w1] =>
        destruct (IH w1) as (Hres & Htrace)
    end.
    + intros i Hi. cbn [requests_made].
      replace (S (requests_made w) + i)%nat with (requests_made w + S i)%nat by lia.
      apply Hfalse. lia.
    + cbn [requests_made].
      replace (S (requests_made w) + k)%nat with (requests_made w + S k)%nat by lia.
      exact Hlast.
    + split; [exact Hres|]. rewrite Htrace. cbn [trace repeat List.concat].
      rewrite <- !app_assoc. reflexivity.
Qed.

End CompletionProps.

(** ** The missed-notification check *)

Module WatchdogProps.
Import Clock ClockVocabulary.

(** How the cycle reaches a participant: the loop runs the body on the
    working participants in table order, in the world the earlier
    iterations have left. *)
Lemma for_each_app {W A : Type} (l1 l2 : list A) (body : A -> M W unit) (w : W) :
  for_each (l1 ++ l2) body w =
  bind (for_each l1 body) (fun _ => for_each l2 body) w.
Proof.
  revert w. induction l1 as [|x l1 IH]; intros w; simpl.
  - reflexivity.
  - unfold bind. destruct (body x w) as [[[]|e] w1]; [|reflexivity].
    rewrite IH. reflexivity.
Qed.

Lemma with_events_nil (w : world) : with_events [] w = w.
Proof. destruct w. unfold with_events. simpl. now rewrite app_nil_r. Qed.

Lemma with_events_app (a b : list event) (w : world) :
  with_events b (with_events a w) = with_events (a ++ b) w.
Proof. unfold with_events. simpl. now rewrite app_assoc. Qed.

(** The loop body as a case table. *)
Lemma check_participant_cases env p w :
  check_participant env p w =
  if overdue env p then
    match reported_status env p with
    | Some s =>
        if str_in s ["Approved"; "Rejected"] then (Ok tt, repaired p s w)
        else if String.eqb s "Submitted"
             then (Ok tt, with_events (replay_events env p) w)
             else shutdown env p w
    | None => shutdown env p w
    end
  else (Ok tt, w).
Proof.
  unfold check_participant. cbv zeta. fold (overdue env p).
  destruct (overdue env p); [|reflexivity].
  unfold bind at 1. unfold emit at 1. unfold bind at 1.
  unfold ask_status, bind at 1, emit at 1. unfold reported_status.
  assert (forall w0,
            (bind (set_autorecruit env false)
               (fun _ => bind expire_hit
                  (fun _ => bind
                     (send_notification env "NotificationMissing"
                        (Participant.assignment_id p))
                     (fun _ => emit (Print (Abandoned_or_returned_notification_missed
                                              (Participant.id p)))))))
              (with_events (emergency_events p) w0)
            = shutdown env p w0) as Helse.
  { intros w0. unfold shutdown, first_hit, shutdown_events, emergency_events.
    unfold set_autorecruit, expire_hit, Participant_query_get, read,
      send_notification, emit, raise, with_events, bind.
    cbn [participant_table committed_table trace].
    destruct (find _ (participant_table w0));
      cbn [option_map participant_table committed_table trace];
      rewrite <- ?app_assoc; reflexivity. }
  assert (Build_world (participant_table w) (committed_table w)
            ((trace w ++ [Print (Running_emergency_code (Participant.id p)
                                   (Participant.status p))])
             ++ [Conn_get_assignment (Participant.assignment_id p)])
          = with_events (emergency_events p) w) as Hw
    by (unfold with_events, emergency_events; now rewrite <- app_assoc).
  destruct (get_assignment env (Participant.assignment_id p)) as [[|s others]|e];
    cbn [participant_table committed_table trace]; unfold ret at 1;
    rewrite Hw; try apply Helse.
  destruct (str_in s ["Approved"; "Rejected"]).
  - unfold repaired, repair_events, emergency_events, with_events, bind, emit,
      set_status, session_commit.
    cbn [participant_table committed_table trace].
    rewrite <- !app_assoc. reflexivity.
  - destruct (String.eqb s "Submitted"); [|apply Helse].
    unfold replay_events, emergency_events, with_events, bind,
      send_notification, emit, notification.
    cbn [participant_table committed_table trace].
    rewrite <- !app_assoc. reflexivity.
Qed.

(** The three tests on the status. *)
Lemma settling_or_submitted (s : string) :
  str_in s ["Approved"; "Rejected"; "Submitted"]
  = (str_in s ["Approved"; "Rejected"] || String.eqb s "Submitted")%bool.
Proof.
  unfold str_in. cbn [existsb].
  destruct (String.eqb s "Approved"), (String.eqb s "Rejected"),
    (String.eqb s "Submitted"); reflexivity.
Qed.

(** An unsettled participant that is overdue takes the final branch. *)
Lemma check_participant_unsettled env p w :
  overdue env p = true -> unsettled env p ->
  check_participant env p w = shutdown env p w.
Proof.
  intros Hov Hun. rewrite check_participant_cases, Hov.
  unfold unsettled in Hun.
  destruct (reported_status env p) as [s|]; [|reflexivity].
  rewrite settling_or_submitted in Hun.
  apply orb_false_iff in Hun. destruct Hun as [-> ->]. reflexivity.
Qed.

(** Writing a status leaves the HIT of participant 1 where it is. *)
Lemma first_hit_after_status_writes (p : Participant.t) (s : string)
    (rows : list Participant.t) :
  first_hit
    (map (fun r => if Participant.id r =? Participant.id p
                   then Participant.set_status s r else r) rows)
  = first_hit rows.
Proof.
  unfold first_hit. induction rows as [|r rows IH]; simpl; [reflexivity|].
  destruct (Participant.id r =? Participant.id p); simpl;
    destruct (Participant.id r =? 1); auto.
Qed.

Lemma check_participant_first_hit env p w :
  first_hit (participant_table (snd (check_participant env p w)))
  = first_hit (participant_table w).
Proof.
  rewrite check_participant_cases.
  assert (first_hit (participant_table (snd (shutdown env p w)))
          = first_hit (participant_table w)) as Hshut
    by (unfold shutdown;
        destruct (first_hit (participant_table w)) eqn:E; exact E).
  destruct (overdue env p); [|reflexivity].
  destruct (reported_status env p) as [s|]; [|exact Hshut].
  destruct (str_in s ["Approved"; "Rejected"]).
  - apply first_hit_after_status_writes.
  - destruct (String.eqb s "Submitted"); [reflexivity | exact Hshut].
Qed.

(** With participant 1 in the table the loop body returns, and its calls
    are those of [calls_for]. *)
Lemma check_participant_with_first env hit p w :
  first_hit (participant_table w) = Some hit ->
  fst (check_participant env p w) = Ok tt
  /\ trace (snd (check_participant env p w))
     = (trace w ++ calls_for env hit p)%list.
Proof.
  intros Hfirst. rewrite check_participant_cases. unfold calls_for.
  assert (shutdown env p w = (Ok tt, with_events (shutdown_events env p hit) w))
    as Hshut by (unfold shutdown; now rewrite Hfirst).
  destruct (overdue env p); [|cbn; now rewrite app_nil_r].
  destruct (reported_status env p) as [s|]; [|rewrite Hshut; now split].
  destruct (str_in s ["Approved"; "Rejected"]); [now split|].
  destruct (String.eqb s "Submitted"); [now split|].
  rewrite Hshut. now split.
Qed.

Lemma for_each_with_first env hit l :
  forall w,
    first_hit (participant_table w) = Some hit ->
    fst (for_each l (check_participant env) w) = Ok tt
    /\ first_hit (participant_table (snd (for_each l (check_participant env) w)))
       = Some hit
    /\ trace (snd (for_each l (check_participant env) w))
       = (trace w ++ flat_map (calls_for env hit) l)%list.
Proof.
  induction l as [|p l IH]; intros w Hfirst; cbn [for_each flat_map].
  - unfold ret. cbn. now rewrite app_nil_r.
  - unfold bind.
    destruct (check_participant_with_first env hit p w Hfirst) as [Hok Ht].
    pose proof (check_participant_first_hit env p w) as Hkeep.
    destruct (check_participant env p w) as [[[]|e] w1]; cbn [fst snd] in *;
      [|discriminate].
    rewrite Hfirst in Hkeep.
    destruct (IH w1 Hkeep) as (Hok' & Hfirst' & Ht').
    split; [exact Hok'|]. split; [exact Hfirst'|].
    rewrite Ht', Ht, app_assoc. reflexivity.
Qed.

(** A row is kept by the iterations for participants with another id,
    in the session and, once committed, in the database. *)
Lemma row_kept_by_the_body env (r p : Participant.t) w :
  Participant.id p <> Participant.id r ->
  In r (participant_table w) ->
  In r (participant_table (snd (check_participant env p w)))
  /\ (In r (committed_table w) ->
      In r (committed_table (snd (check_participant env p w)))).
Proof.
  intros Hid Hin. rewrite check_participant_cases.
  assert (In r (participant_table (snd (shutdown env p w)))
          /\ (In r (committed_table w) ->
              In r (committed_table (snd (shutdown env p w))))) as Hshut
    by (unfold shutdown; destruct (first_hit (participant_table w));
        now split).
  destruct (overdue env p); [|now split].
  destruct (reported_status env p) as [s|]; [|exact Hshut].
  destruct (str_in s ["Approved"; "Rejected"]).
  - assert (In r (map (fun r0 => if Participant.id r0 =? Participant.id p
                                 then Participant.set_status (lower s) r0
                                 else r0) (participant_table w))) as Hmap.
    { apply in_map_iff. exists r. split; [|exact Hin].
      assert ((Participant.id r =? Participant.id p) = false) as ->;
        [|reflexivity].
      apply Z.eqb_neq. intros Heq. apply Hid. now symmetry. }
    cbn. now split.
  - destruct (String.eqb s "Submitted"); [now split | exact Hshut].
Qed.

Lemma rows_kept env (r : Participant.t) l :
  (forall q, In q l -> Participant.id q <> Participant.id r) ->
  forall w,
    In r (participant_table w) ->
    In r (participant_table (snd (for_each l (check_participant env) w)))
    /\ (In r (committed_table w) ->
        In r (committed_table (snd (for_each l (check_participant env) w)))).
Proof.
  induction l as [|p l IH]; intros Hids w Hin; cbn [for_each].
  - now split.
  - unfold bind.
    destruct (row_kept_by_the_body env r p w (Hids p (or_introl eq_refl)) Hin)
      as [Hin1 Hcom1].
    destruct (check_participant env p w) as [[[]|e] w1]; cbn [fst snd] in *.
    + destruct (IH (fun q Hq => Hids q (or_intror Hq)) w1 Hin1) as [Hin2 Hcom2].
      split; [exact Hin2|]. intros Hc. apply Hcom2. now apply Hcom1.
    + now split.
Qed.

(** The participants selected before and after [p] have other ids. *)
Lemma others_have_other_ids rows before p after :
  unique_ids rows ->
  working rows = (before ++ p :: after)%list ->
  In p rows
  /\ Participant.status p = "working"
  /\ (forall q, In q before -> Participant.id q <> Participant.id p)
  /\ (forall q, In q after -> Participant.id q <> Participant.id p).
Proof.
  intros Huniq Hsel.
  assert (In p (working rows)) as Hp
    by (rewrite Hsel; apply in_or_app; right; now left).
  apply filter_In in Hp. destruct Hp as [Hin Hw]. apply String.eqb_eq in Hw.
  split; [exact Hin|]. split; [exact Hw|].
  pose proof (NoDup_map_of_filter Participant.id
                (fun q => String.eqb (Participant.status q) "working")
                rows Huniq) as Hnd.
  fold (working rows) in Hnd. rewrite Hsel, map_app in Hnd. cbn [map] in Hnd.
  apply NoDup_remove_2 in Hnd.
  split; intros q Hq Heq; apply Hnd; apply in_or_app; [left|right];
    apply in_map_iff; exists q; now split.
Qed.

(** The cycle around one of its participants, participant 1 being in
    the table: it returns, the rows of the ids it had no settled status
    for are kept, and its calls are those for the participants before,
    those for the participant, and those for the participants after. *)
Lemma cycle_around env w hit before p after :
  unique_ids (participant_table w) ->
  first_hit (participant_table w) = Some hit ->
  working (participant_table w) = (before ++ p :: after)%list ->
  exists w1,
    for_each before (check_participant env) w = (Ok tt, w1)
    /\ first_hit (participant_table w1) = Some hit
    /\ In p (participant_table w1)
    /\ trace w1 = (trace w ++ flat_map (calls_for env hit) before)%list
    /\ check_for_missed_notifications env w
       = bind (check_participant env p)
           (fun _ => for_each after (check_participant env)) w1
    /\ fst (check_for_missed_notifications env w) = Ok tt
    /\ trace (snd (check_for_missed_notifications env w))
       = (trace w ++ flat_map (calls_for env hit) before
          ++ calls_for env hit p ++ flat_map (calls_for env hit) after)%list.
Proof.
  intros Huniq Hfirst Hsel.
  destruct (others_have_other_ids _ _ _ _ Huniq Hsel)
    as (Hin & _ & Hbefore & _).
  destruct (for_each_with_first env hit before w Hfirst) as (Hok & Hf1 & Ht1).
  destruct (rows_kept env p before Hbefore w Hin) as [Hin1 _].
  destruct (for_each before (check_participant env) w) as [r1 w1] eqn:Hpre.
  cbn [fst snd] in *. subst r1. exists w1.
  split; [reflexivity|]. split; [exact Hf1|]. split; [exact Hin1|].
  split; [exact Ht1|].
  assert (check_for_missed_notifications env w
          = bind (check_participant env p)
              (fun _ => for_each after (check_participant env)) w1) as Hcycle.
  { unfold check_for_missed_notifications, bind at 1, read.
    fold (working (participant_table w)).
    rewrite Hsel, for_each_app. unfold bind at 1. rewrite Hpre. reflexivity. }
  split; [exact Hcycle|].
  destruct (for_each_with_first env hit (working (participant_table w)) w Hfirst)
    as (Hokc & _ & Htc).
  unfold check_for_missed_notifications, bind, read.
  fold (working (participant_table w)).
  split; [exact Hokc|].
  rewrite Htc, Hsel, flat_map_app. cbn [flat_map]. reflexivity.
Qed.

(** The row a participant has after the cycle, from the row it has when
    the loop reaches it. *)
Lemma row_after_the_loop env w1 p after (row : Participant.t) :
  (forall q, In q after -> Participant.id q <> Participant.id p) ->
  Participant.id row = Participant.id p ->
  In row (participant_table (snd (check_participant env p w1))) ->
  In row
    (participant_table
       (snd (bind (check_participant env p)
               (fun _ => for_each after (check_participant env)) w1)))
  /\ (In row (committed_table (snd (check_participant env p w1))) ->
      In row
        (committed_table
           (snd (bind (check_participant env p)
                   (fun _ => for_each after (check_participant env)) w1)))).
Proof.
  intros Hafter Hid Hin. unfold bind.
  destruct (check_participant env p w1) as [[[]|e] w2]; cbn [snd] in *;
    [|now split].
  apply rows_kept; [|exact Hin].
  intros q Hq. rewrite Hid. now apply Hafter.
Qed.


(** Without participant 1 the loop never expires a HIT and never posts
    the [NotificationMissing] alert; it ends with [AttributeError], just
    after the request that disables auto-recruitment, as soon as it meets
    an overdue participant that is unsettled. *)
Lemma for_each_without_first env l :
  forall w,
    first_hit (participant_table w) = None ->
    exists added,
      trace (snd (for_each l (check_participant env) w))
      = (trace w ++ added)%list
      /\ filter expires_or_alerts added = []
      /\ ((exists q, In q l /\ overdue env q = true /\ unsettled env q) ->
          fst (for_each l (check_participant env) w) = Raise AttributeError
          /\ exists earlier, added = (earlier ++ [disable_autorecruit env])%list).
Proof.
  induction l as [|p l IH]; intros w Hfirst; cbn [for_each].
  - exists []. cbn. rewrite app_nil_r. split; [reflexivity|].
    split; [reflexivity|]. intros (q & [] & _).
  - unfold bind. rewrite check_participant_cases.
    assert (shutdown env p w
            = (Raise AttributeError,
               with_events (emergency_events p ++ [disable_autorecruit env]) w))
      as Hshut by (unfold shutdown; now rewrite Hfirst).
    assert (forall w1 evs,
              first_hit (participant_table w1) = None ->
              trace w1 = (trace w ++ evs)%list ->
              filter expires_or_alerts evs = [] ->
              ((overdue env p = true /\ unsettled env p) -> False) ->
              exists added,
                trace (snd (for_each l (check_participant env) w1))
                = (trace w ++ added)%list
                /\ filter expires_or_alerts added = []
                /\ ((exists q, In q (p :: l) /\ overdue env q = true
                               /\ unsettled env q) ->
                    fst (for_each l (check_participant env) w1)
                    = Raise AttributeError
                    /\ exists earlier,
                         added = (earlier ++ [disable_autorecruit env])%list))
      as Hgo.
    { intros w1 evs Hf1 Ht1 Hquiet Hsettled.
      destruct (IH w1 Hf1) as (added & Ht & Hfilter & Hraise).
      exists (evs ++ added)%list. split; [now rewrite Ht, Ht1, app_assoc|].
      split; [now rewrite filter_app, Hquiet, Hfilter|].
      intros (q & [<-|Hq] & Hov & Hun); [exfalso; now apply Hsettled|].
      destruct Hraise as (Hr & earlier & ->); [now exists q|].
      split; [exact Hr|]. exists (evs ++ earlier)%list.
      now rewrite app_assoc. }
    assert (exists added,
              trace (snd (shutdown env p w)) = (trace w ++ added)%list
              /\ filter expires_or_alerts added = []
              /\ ((exists q, In q (p :: l) /\ overdue env q = true
                             /\ unsettled env q) ->
                  fst (shutdown env p w) = Raise AttributeError
                  /\ exists earlier,
                       added = (earlier ++ [disable_autorecruit env])%list))
      as Hstop.
    { rewrite Hshut. exists (emergency_events p ++ [disable_autorecruit env])%list.
      split; [reflexivity|]. split; [reflexivity|]. intros _.
      split; [reflexivity|]. now exists (emergency_events p). }
    destruct (overdue env p) eqn:Hov.
    + destruct (reported_status env p) as [s|] eqn:Hs.
      * destruct (str_in s ["Approved"; "Rejected"]) eqn:Hsettle.
        -- apply (Hgo (repaired p s w) (repair_events p s)).
           ++ cbn. now rewrite first_hit_after_status_writes.
           ++ reflexivity.
           ++ reflexivity.
           ++ intros [_ Hun]. unfold unsettled in Hun. rewrite Hs in Hun.
              rewrite settling_or_submitted, Hsettle in Hun. discriminate.
        -- destruct (String.eqb s "Submitted") eqn:Hsub.
           ++ apply (Hgo (with_events (replay_events env p) w)
                       (replay_events env p)).
              ** exact Hfirst.
              ** reflexivity.
              ** reflexivity.
              ** intros [_ Hun]. unfold unsettled in Hun. rewrite Hs in Hun.
                 rewrite settling_or_submitted, Hsettle, Hsub in Hun.
                 discriminate.
           ++ rewrite Hshut in *. exact Hstop.
      * rewrite Hshut in *. exact Hstop.
    + destruct (Hgo w [] Hfirst) as (added & Ht & Hfilter & Hraise).
      * now rewrite app_nil_r.
      * reflexivity.
      * intros [Hov' _]. discriminate.
      * exists added. now split.
Qed.

(** The platform does not answer: the participant is unsettled. *)
Lemma failed_query_unsettled env p e :
  get_assignment env (Participant.assignment_id p) = Raise e ->
  reported_status env p = None /\ unsettled env p.
Proof.
  intros H. unfold unsettled, reported_status. now rewrite H.
Qed.

(** C1, as the code has it.  When the status query for a working
    participant that is overdue raises, the bare [except] sets the status
    to [None], which reaches the final [else] branch, in that same cycle.
    With participant 1 in the table the cycle returns, and its calls for
    the participant are the request that disables auto-recruitment, the
    expiry of the HIT of participant 1 and the [NotificationMissing]
    notification for the participant's assignment; the participant's row
    is left as it was.  Without participant 1 the cycle ends with
    [AttributeError] right after a request that disables
    auto-recruitment, without an expiry or a [NotificationMissing]
    notification. *)
Theorem failed_query_takes_the_shutdown_path env w before p after e :
  unique_ids (participant_table w) ->
  working (participant_table w) = (before ++ p :: after)%list ->
  overdue env p = true ->
  get_assignment env (Participant.assignment_id p) = Raise e ->
  (forall hit,
     first_hit (participant_table w) = Some hit ->
     fst (check_for_missed_notifications env w) = Ok tt
     /\ In p (participant_table (snd (check_for_missed_notifications env w)))
     /\ trace (snd (check_for_missed_notifications env w))
        = (trace w ++ flat_map (calls_for env hit) before
           ++ [Print (Running_emergency_code (Participant.id p) "working");
               Conn_get_assignment (Participant.assignment_id p);
               disable_autorecruit env;
               Conn_expire_hit hit;
               notification env "NotificationMissing"
                 (Participant.assignment_id p);
               Print (Abandoned_or_returned_notification_missed
                        (Participant.id p))]
           ++ flat_map (calls_for env hit) after)%list)
  /\ (first_hit (participant_table w) = None ->
      fst (check_for_missed_notifications env w) = Raise AttributeError
      /\ In p (participant_table (snd (check_for_missed_notifications env w)))
      /\ exists earlier,
           trace (snd (check_for_missed_notifications env w))
           = (trace w ++ earlier ++ [disable_autorecruit env])%list
           /\ filter expires_or_alerts earlier = []).
Proof.
  intros Huniq Hsel Hov Hget.
  destruct (failed_query_unsettled env p e Hget) as [Hnone Hun].
  destruct (others_have_other_ids _ _ _ _ Huniq Hsel)
    as (Hin & Hw & Hbefore & Hafter).
  split.
  - intros hit Hfirst.
    destruct (cycle_around env w hit before p after Huniq Hfirst Hsel)
      as (w1 & Hpre & Hf1 & Hin1 & Ht1 & Hcycle & Hok & Htrace).
    split; [exact Hok|]. split.
    + rewrite Hcycle.
      apply (row_after_the_loop env w1 p after p Hafter eq_refl).
      rewrite check_participant_unsettled by assumption.
      unfold shutdown. now rewrite Hf1.
    + rewrite Htrace. unfold calls_for at 2. rewrite Hov, Hnone.
      unfold shutdown_events, emergency_events. rewrite Hw. reflexivity.
  - intros Hfirst.
    destruct (for_each_without_first env (working (participant_table w)) w Hfirst)
      as (added & Ht & Hfilter & Hraise).
    destruct Hraise as (Hr & earlier & ->).
    { exists p. split; [|now split].
      rewrite Hsel. apply in_or_app. right. now left. }
    unfold check_for_missed_notifications, bind, read.
    fold (working (participant_table w)).
    split; [exact Hr|]. split.
    + assert (forall l w0,
                In p (participant_table w0) ->
                (forall q, In q l -> Participant.id q = Participant.id p ->
                   overdue env q = true /\ unsettled env q) ->
                In p (participant_table
                        (snd (for_each l (check_participant env) w0)))) as Hkept.
      { induction l as [|q l IHl]; intros w0 Hin0 Hsame; cbn [for_each];
          [exact Hin0|].
        unfold bind.
        assert (In p (participant_table (snd (check_participant env q w0))))
          as Hq.
        { destruct (Z.eq_dec (Participant.id q) (Participant.id p)) as [Heq|Hne].
          - destruct (Hsame q (or_introl eq_refl) Heq) as [Hovq Hunq].
            rewrite check_participant_unsettled by assumption.
            unfold shutdown.
            now destruct (first_hit (participant_table w0)).
          - now apply (row_kept_by_the_body env p q w0 Hne). }
        destruct (check_participant env q w0) as [[[]|e0] w2]; cbn [snd] in *;
          [|exact Hq].
        apply IHl; [exact Hq|]. intros q0 Hq0. apply Hsame. now right. }
      apply Hkept; [exact Hin|].
      intros q Hq Heq. rewrite Hsel in Hq. apply in_app_or in Hq.
      destruct Hq as [Hq|[<-|Hq]].
      * exfalso. now apply (Hbefore q).
      * now split.
      * exfalso. now apply (Hafter q).
    + exists earlier. split; [exact Ht|].
      rewrite filter_app in Hfilter. apply app_eq_nil in Hfilter. tauto.
Qed.

Lemma failed_query_takes_the_shutdown_path_witness :
  check_for_missed_notifications ClockSamples.platform_unreachable
    ClockSamples.one_working =
    (Ok tt,
     with_events
       [Print (Running_emergency_code 1 "working");
        Conn_get_assignment "assignment-1";
        Requests_patch "https://api.heroku.com/apps/dlgr-5f3a/config-vars"
          [("auto_recruit", "false")];
        Conn_expire_hit "hit-A";
        Requests_post "http://dlgr-5f3a.herokuapp.com/notifications"
          [("Event.1.EventType", "NotificationMissing");
           ("Event.1.AssignmentId", "assignment-1")];
        Print (Abandoned_or_returned_notification_missed 1)]
       ClockSamples.one_working)
  /\ fst (check_for_missed_notifications
            (ClockSamples.env_unreachable_for_kim "Approved")
            ClockSamples.kim_and_lee) = Raise AttributeError.
Proof.
  split.
  - destruct (failed_query_takes_the_shutdown_path
                ClockSamples.platform_unreachable ClockSamples.one_working
                [] ClockSamples.erin [] RequestException) as [Hwith _].
    + repeat constructor. intros [].
    + reflexivity.
    + reflexivity.
    + reflexivity.
    + destruct (Hwith "hit-A" eq_refl) as (Hok & Hrow & Htrace).
      destruct (check_for_missed_notifications ClockSamples.platform_unreachable
                  ClockSamples.one_working) as [r wf] eqn:Hrun.
      cbn [fst snd] in *. subst r.
      assert (participant_table wf = [ClockSamples.erin]
              /\ committed_table wf = [ClockSamples.erin]) as [Hp Hc].
      { apply (f_equal snd) in Hrun. cbn [snd] in Hrun. rewrite <- Hrun.
        split; reflexivity. }
      destruct wf as [pt ct tr]. cbn [participant_table committed_table trace] in *.
      subst pt ct tr. reflexivity.
  - destruct (failed_query_takes_the_shutdown_path
                (ClockSamples.env_unreachable_for_kim "Approved")
                ClockSamples.kim_and_lee
                [] ClockSamples.kim [ClockSamples.lee] RequestException)
      as [_ Hwithout].
    + repeat constructor; cbn; intuition discriminate.
    + reflexivity.
    + reflexivity.
    + reflexivity.
    + now destruct (Hwithout eq_refl).
Defined.

(** C1, as stated, fails.  Erin is working and overdue, the status query
    for her assignment raises, and the cycle, far from deferring, takes all
    three corrective actions. *)
Lemma failed_query_does_not_defer :
  Participant.status ClockSamples.erin = "working"
  /\ overdue ClockSamples.platform_unreachable ClockSamples.erin = true
  /\ get_assignment ClockSamples.platform_unreachable
       (Participant.assignment_id ClockSamples.erin)
     = Raise RequestException
  /\ check_for_missed_notifications ClockSamples.platform_unreachable
       ClockSamples.one_working =
     (Ok tt,
      with_events
        [Print (Running_emergency_code 1 "working");
         Conn_get_assignment "assignment-1";
         disable_autorecruit ClockSamples.platform_unreachable;
         Conn_expire_hit "hit-A";
         notification ClockSamples.platform_unreachable
           "NotificationMissing" "assignment-1";
         Print (Abandoned_or_returned_notification_missed 1)]
        ClockSamples.one_working)
  /\ forallb (fun e => negb (corrective e))
       (trace (snd (check_for_missed_notifications
                      ClockSamples.platform_unreachable
                      ClockSamples.one_working))) = false.
Proof. repeat split. Qed.

Lemma lower_Approved : lower "Approved" = "approved".
Proof. reflexivity. Qed.

Lemma lower_Rejected : lower "Rejected" = "rejected".
Proof. reflexivity. Qed.

(** C5, as the code has it.  Participant 1 being in the table, the
    cycle returns, and for a working participant that is overdue and
    whose assignment the platform reports as [Approved] or [Rejected] it
    writes the lower-cased status into the participant's row and
    commits: the row is found with that status in the session and in the
    database after the cycle.  Its calls for the participant are the
    status query, the commit and two [print]s, between those for the
    participants before and those for the participants after: no
    notification is posted for it, the recruitment setting is not
    touched and no HIT is expired on its account. *)
Theorem approved_or_rejected_is_written_locally env w hit before p after s
    others :
  unique_ids (participant_table w) ->
  first_hit (participant_table w) = Some hit ->
  working (participant_table w) = (before ++ p :: after)%list ->
  overdue env p = true ->
  get_assignment env (Participant.assignment_id p) = Ok (s :: others) ->
  s = "Approved" \/ s = "Rejected" ->
  fst (check_for_missed_notifications env w) = Ok tt
  /\ ((s = "Approved" /\ lower s = "approved")
      \/ (s = "Rejected" /\ lower s = "rejected"))
  /\ In (Participant.set_status (lower s) p)
       (participant_table (snd (check_for_missed_notifications env w)))
  /\ In (Participant.set_status (lower s) p)
       (committed_table (snd (check_for_missed_notifications env w)))
  /\ trace (snd (check_for_missed_notifications env w))
     = (trace w ++ flat_map (calls_for env hit) before
        ++ [Print (Running_emergency_code (Participant.id p) "working");
            Conn_get_assignment (Participant.assignment_id p);
            Print (Status_set_to (lower s));
            Session_commit]
        ++ flat_map (calls_for env hit) after)%list.
Proof.
  intros Huniq Hfirst Hsel Hov Hget Hs.
  assert (reported_status env p = Some s) as Hrep
    by (unfold reported_status; now rewrite Hget).
  assert (str_in s ["Approved"; "Rejected"] = true) as Hlist
    by (destruct Hs as [-> | ->]; reflexivity).
  destruct (others_have_other_ids _ _ _ _ Huniq Hsel)
    as (Hin & Hw & Hbefore & Hafter).
  destruct (cycle_around env w hit before p after Huniq Hfirst Hsel)
    as (w1 & Hpre & Hf1 & Hin1 & Ht1 & Hcycle & Hok & Htrace).
  split; [exact Hok|]. split.
  { destruct Hs as [-> | ->]; [left | right]; split; reflexivity. }
  assert (check_participant env p w1 = (Ok tt, repaired p s w1)) as Hbody
    by (now rewrite check_participant_cases, Hov, Hrep, Hlist).
  assert (In (Participant.set_status (lower s) p)
            (participant_table (repaired p s w1))) as Hrow.
  { cbn. apply in_map_iff. exists p. rewrite Z.eqb_refl. now split. }
  destruct (row_after_the_loop env w1 p after
              (Participant.set_status (lower s) p) Hafter eq_refl)
    as [Hsession Hdatabase].
  { now rewrite Hbody. }
  rewrite <- Hcycle in Hsession, Hdatabase.
  split; [exact Hsession|]. split.
  - apply Hdatabase. rewrite Hbody. exact Hrow.
  - rewrite Htrace. unfold calls_for at 2. rewrite Hov, Hrep, Hlist.
    unfold repair_events, emergency_events. rewrite Hw. reflexivity.
Qed.

Lemma approved_or_rejected_is_written_locally_witness :
  In (Participant.set_status "approved" ClockSamples.erin)
    (committed_table
       (snd (check_for_missed_notifications
               (ClockSamples.env_answering (Ok ["Approved"]))
               WatchdogSamples.erin_and_judy)))
  /\ trace (snd (check_for_missed_notifications
                   (ClockSamples.env_answering (Ok ["Approved"]))
                   WatchdogSamples.erin_and_judy))
     = [Print (Running_emergency_code 1 "working");
        Conn_get_assignment "assignment-1";
        Print (Status_set_to "approved");
        Session_commit].
Proof.
  destruct (approved_or_rejected_is_written_locally
              (ClockSamples.env_answering (Ok ["Approved"]))
              WatchdogSamples.erin_and_judy "hit-A"
              [] ClockSamples.erin [WatchdogSamples.judy] "Approved" [])
    as (_ & _ & _ & Hdatabase & Htrace).
  - repeat constructor; cbn; intuition discriminate.
  - reflexivity.
  - reflexivity.
  - reflexivity.
  - reflexivity.
  - now left.
  - split; [exact Hdatabase|]. rewrite Htrace. reflexivity.
Defined.

(** C5, as stated, fails when the loop does not reach the participant.
    The table holds no participant 1.  Kim and Lee are working and
    overdue; the platform cannot be reached for Kim's assignment and
    reports Lee's as [Approved].  The cycle takes the final branch for
    Kim, [expire_hit] raises [AttributeError], and Lee is never asked
    about: her row still says ["working"] and nothing was committed. *)
Lemma approved_participant_is_not_reached :
  Participant.status ClockSamples.lee = "working"
  /\ overdue (ClockSamples.env_unreachable_for_kim "Approved") ClockSamples.lee
     = true
  /\ get_assignment (ClockSamples.env_unreachable_for_kim "Approved")
       (Participant.assignment_id ClockSamples.lee) = Ok ["Approved"]
  /\ check_for_missed_notifications
       (ClockSamples.env_unreachable_for_kim "Approved")
       ClockSamples.kim_and_lee
     = (Raise AttributeError,
        with_events
          [Print (Running_emergency_code 2 "working");
           Conn_get_assignment "assignment-2";
           disable_autorecruit (ClockSamples.env_unreachable_for_kim "Approved")]
          ClockSamples.kim_and_lee)
  /\ In ClockSamples.lee
       (participant_table
          (snd (check_for_missed_notifications
                  (ClockSamples.env_unreachable_for_kim "Approved")
                  ClockSamples.kim_and_lee)))
  /\ ~ In Session_commit
         (trace (snd (check_for_missed_notifications
                        (ClockSamples.env_unreachable_for_kim "Approved")
                        ClockSamples.kim_and_lee))).
Proof.
  repeat split.
  - cbn. tauto.
  - cbn. intros [H|[H|[H|[]]]]; discriminate.
Qed.

(** C6, as the code has it.  Participant 1 being in the table, the
    cycle returns, and for a working participant that is overdue and
    whose assignment the platform reports as [Submitted] it posts an
    [AssignmentSubmitted] notification for the participant's assignment
    to the [/notifications] route of the application, and does nothing
    else for it but query and print: the participant's row is untouched,
    so the status change is left to the handler of that route. *)
Theorem submitted_is_replayed_as_a_notification env w hit before p after
    others :
  unique_ids (participant_table w) ->
  first_hit (participant_table w) = Some hit ->
  working (participant_table w) = (before ++ p :: after)%list ->
  overdue env p = true ->
  get_assignment env (Participant.assignment_id p) = Ok ("Submitted" :: others) ->
  fst (check_for_missed_notifications env w) = Ok tt
  /\ In p (participant_table (snd (check_for_missed_notifications env w)))
  /\ (In p (committed_table w) ->
      In p (committed_table (snd (check_for_missed_notifications env w))))
  /\ trace (snd (check_for_missed_notifications env w))
     = (trace w ++ flat_map (calls_for env hit) before
        ++ [Print (Running_emergency_code (Participant.id p) "working");
            Conn_get_assignment (Participant.assignment_id p);
            Requests_post ("http://" ++ HOST env ++ "/notifications")
              [("Event.1.EventType", "AssignmentSubmitted");
               ("Event.1.AssignmentId", Participant.assignment_id p)];
            Print (Submitted_notification_missed (Participant.id p))]
        ++ flat_map (calls_for env hit) after)%list.
Proof.
  intros Huniq Hfirst Hsel Hov Hget.
  assert (reported_status env p = Some "Submitted") as Hrep
    by (unfold reported_status; now rewrite Hget).
  destruct (others_have_other_ids _ _ _ _ Huniq Hsel)
    as (Hin & Hw & Hbefore & Hafter).
  destruct (cycle_around env w hit before p after Huniq Hfirst Hsel)
    as (w1 & Hpre & Hf1 & Hin1 & Ht1 & Hcycle & Hok & Htrace).
  split; [exact Hok|].
  assert (check_participant env p w1
          = (Ok tt, with_events (replay_events env p) w1)) as Hbody
    by (now rewrite check_participant_cases, Hov, Hrep).
  destruct (row_after_the_loop env w1 p after p Hafter eq_refl)
    as [Hsession Hdatabase].
  { now rewrite Hbody. }
  rewrite <- Hcycle in Hsession, Hdatabase.
  split; [exact Hsession|]. split.
  - intros Hcommitted. apply Hdatabase. rewrite Hbody. cbn.
    destruct (rows_kept env p before Hbefore w Hin) as [_ Hkept].
    rewrite Hpre in Hkept. now apply Hkept.
  - rewrite Htrace. unfold calls_for at 2. rewrite Hov, Hrep. cbn [str_in existsb].
    unfold replay_events, emergency_events, notification. rewrite Hw.
    reflexivity.
Qed.

Lemma submitted_is_replayed_as_a_notification_witness :
  check_for_missed_notifications (ClockSamples.env_answering (Ok ["Submitted"]))
    WatchdogSamples.erin_and_judy =
    (Ok tt,
     with_events
       [Print (Running_emergency_code 1 "working");
        Conn_get_assignment "assignment-1";
        Requests_post "http://dlgr-5f3a.herokuapp.com/notifications"
          [("Event.1.EventType", "AssignmentSubmitted");
           ("Event.1.AssignmentId", "assignment-1")];
        Print (Submitted_notification_missed 1)]
       WatchdogSamples.erin_and_judy)
  /\ In ClockSamples.erin
       (participant_table
          (snd (check_for_missed_notifications
                  (ClockSamples.env_answering (Ok ["Submitted"]))
                  WatchdogSamples.erin_and_judy))).
Proof.
  destruct (submitted_is_replayed_as_a_notification
              (ClockSamples.env_answering (Ok ["Submitted"]))
              WatchdogSamples.erin_and_judy "hit-A"
              [] ClockSamples.erin [WatchdogSamples.judy] [])
    as (_ & Hrow & _ & _).
  - repeat constructor; cbn; intuition discriminate.
  - reflexivity.
  - reflexivity.
  - reflexivity.
  - reflexivity.
  - split; [reflexivity | exact Hrow].
Defined.

(** C6, as stated, fails when the loop does not reach the participant:
    in the table without participant 1 the cycle ends on Kim, and no
    notification is posted for Lee, whose assignment the platform
    reports as [Submitted]. *)
Lemma submitted_participant_is_not_reached :
  Participant.status ClockSamples.lee = "working"
  /\ overdue (ClockSamples.env_unreachable_for_kim "Submitted") ClockSamples.lee
     = true
  /\ get_assignment (ClockSamples.env_unreachable_for_kim "Submitted")
       (Participant.assignment_id ClockSamples.lee) = Ok ["Submitted"]
  /\ check_for_missed_notifications
       (ClockSamples.env_unreachable_for_kim "Submitted")
       ClockSamples.kim_and_lee
     = (Raise AttributeError,
        with_events
          [Print (Running_emergency_code 2 "working");
           Conn_get_assignment "assignment-2";
           disable_autorecruit (ClockSamples.env_unreachable_for_kim "Submitted")]
          ClockSamples.kim_and_lee)
  /\ filter expires_or_alerts
       (trace (snd (check_for_missed_notifications
                      (ClockSamples.env_unreachable_for_kim "Submitted")
                      ClockSamples.kim_and_lee))) = []
  /\ ~ In (notification (ClockSamples.env_unreachable_for_kim "Submitted")
             "AssignmentSubmitted" "assignment-3")
         (trace (snd (check_for_missed_notifications
                        (ClockSamples.env_unreachable_for_kim "Submitted")
                        ClockSamples.kim_and_lee))).
Proof.
  repeat split.
  cbn. intros [H|[H|[H|[]]]]; discriminate.
Qed.

(** A participant that is not overdue is left alone: no query is made. *)
Lemma check_participant_not_overdue env p w :
  overdue env p = false -> check_participant env p w = (Ok tt, w).
Proof.
  intros H. now rewrite check_participant_cases, H.
Qed.

(** The test is the one of the code, in doubles.  With a duration of
    4.29 hours the product [duration * 60 * 60] falls just below 15444,
    and a participant created 15564 seconds ago is overdue; with 0.03
    hours the sum is just above 228, and a participant created 228
    seconds ago is not. *)
Example overdue_is_tested_in_doubles :
  overdue (ClockSamples.env_lasting ClockSamples.hours_4_29
             (ClockSamples.seconds 15564)) ClockSamples.erin = true
  /\ overdue (ClockSamples.env_lasting ClockSamples.hours_0_03
                (ClockSamples.seconds 228)) ClockSamples.erin = false
  /\ overdue (ClockSamples.env_lasting ClockSamples.hours_0_03
                (ClockSamples.seconds 228 + 1)) ClockSamples.erin = true.
Proof. repeat split. Qed.

End WatchdogProps.

(** ** The bad-data check *)

Module BadDataProps.
Import Clock ClockVocabulary.

Lemma slice_from_last {A : Type} (n : Z) (l : list A) :
  1 <= n ->
  slice_from (- n) l = skipn (List.length l - Z.to_nat n) l.
Proof.
  intros Hn. unfold slice_from.
  assert ((- n <? 0) = true) as -> by (apply Z.ltb_lt; lia).
  f_equal. lia.
Qed.

Lemma slice_from_short {A : Type} (n : Z) (l : list A) :
  Z.of_nat (List.length l) < n -> slice_from (- n) l = l.
Proof.
  intros Hn. unfold slice_from.
  assert ((- n <? 0) = true) as -> by (apply Z.ltb_lt; lia).
  replace (Z.to_nat (Z.max 0 (- n + Z.of_nat (List.length l)))) with 0%nat by lia.
  reflexivity.
Qed.

Lemma slice_from_nonpositive {A : Type} (n : Z) (l : list A) :
  n <= 0 -> slice_from (- n) l = skipn (Z.to_nat (- n)) l.
Proof.
  intros Hn. unfold slice_from.
  assert ((- n <? 0) = false) as -> by (apply Z.ltb_ge; lia).
  destruct (Z_le_gt_dec (- n) (Z.of_nat (List.length l))) as [Hle|Hgt].
  - now rewrite Z.min_l by exact Hle.
  - rewrite Z.min_r by lia. rewrite Nat2Z.id.
    rewrite skipn_all. symmetry. apply skipn_all2. lia.
Qed.

Lemma all_bad_data_iff (l : list Participant.t) :
  all_bad_data l = true <-> forall q, In q l -> Participant.status q = "bad_data".
Proof.
  unfold all_bad_data, all. rewrite forallb_forall. split.
  - intros H q Hq. apply String.eqb_eq. apply H.
    apply in_map_iff. exists q. now split.
  - intros H b Hb. apply in_map_iff in Hb. destruct Hb as (q & <- & Hq).
    apply String.eqb_eq. now apply H.
Qed.

(** The sort: it raises when an end time that is set meets one that is
    not, and sorts otherwise. *)
Lemma sort_by_end_time_comparable (l : list Participant.t) :
  comparable_end_times l ->
  sort_by_end_time l = Ok (sort_by_key end_time_leb Participant.end_time l).
Proof.
  intros Hcmp. unfold sort_by_end_time.
  match goal with
  | |- (if ?mixed then _ else _) = _ =>
      assert (mixed = false) as ->; [|reflexivity]
  end.
  apply andb_false_iff. destruct Hcmp as [Hset|Hunset]; [left|right].
  - destruct (existsb _ _) eqn:E; [|reflexivity].
    apply existsb_exists in E. destruct E as (k & Hk & Hnone).
    apply in_map_iff in Hk. destruct Hk as (p & <- & Hp).
    destruct (Participant.end_time p) eqn:Ep; [discriminate|].
    exfalso. now apply (Hset p Hp).
  - destruct (existsb _ _) eqn:E; [|reflexivity].
    apply existsb_exists in E. destruct E as (k & Hk & Hsome).
    apply in_map_iff in Hk. destruct Hk as (p & <- & Hp).
    rewrite (Hunset p Hp) in Hsome. discriminate.
Qed.

Lemma sort_by_end_time_mixed (l : list Participant.t) a b :
  In a l -> In b l ->
  Participant.end_time a = None -> Participant.end_time b <> None ->
  sort_by_end_time l = Raise TypeError.
Proof.
  intros Ha Hb Hnone Hsome. unfold sort_by_end_time.
  match goal with
  | |- (if ?mixed then _ else _) = _ =>
      assert (mixed = true) as ->; [|reflexivity]
  end.
  apply andb_true_iff. split; apply existsb_exists.
  - exists None. split; [|reflexivity].
    apply in_map_iff. exists a. now split.
  - exists (Participant.end_time b). split.
    + apply in_map_iff. now exists b.
    + now destruct (Participant.end_time b).
Qed.

(** End times that can be compared are sorted as integers are. *)
Lemma sorted_by_end_time (l : list Participant.t) :
  comparable_end_times l ->
  StronglySorted ends_no_later
    (sort_by_key end_time_leb Participant.end_time l).
Proof.
  intros Hcmp.
  set (key' := fun p : Participant.t =>
                 match Participant.end_time p with
                 | Some z => z
                 | None => 0
                 end).
  assert (sort_by_key end_time_leb Participant.end_time l
          = sort_by_key Z.leb key' l) as ->.
  { apply sort_by_key_ext. intros x y Hx Hy. unfold key', end_time_leb.
    destruct Hcmp as [Hset|Hunset].
    - pose proof (Hset x Hx). pose proof (Hset y Hy).
      destruct (Participant.end_time x), (Participant.end_time y);
        congruence.
    - now rewrite (Hunset x Hx), (Hunset y Hy). }
  pose proof (sort_by_key_sorted Z.leb key' Zleb_total Zleb_trans l) as Hs.
  revert Hs. generalize (sort_by_key Z.leb key' l). intros sorted Hs.
  induction Hs as [|x rest Hrest IH Hx]; constructor; [exact IH|].
  rewrite Forall_forall in *. intros y Hy. specialize (Hx y Hy).
  unfold ends_no_later, key' in *. apply Z.leb_le in Hx.
  destruct (Participant.end_time x), (Participant.end_time y); auto.
Qed.

(** The job, case by case. *)
Lemma check_for_bad_data_unfold env w :
  check_for_bad_data env w =
  match recently_finished env (participant_table w) with
  | Raise e => (Raise e, w)
  | Ok examined =>
      if all_bad_data examined then
        match first_hit (participant_table w) with
        | Some hit =>
            (Ok tt,
             with_events
               [disable_autorecruit env;
                Conn_expire_hit hit;
                Print (Most_recent_participants_have_bad_data
                         (bad_data_threshold env))]
               w)
        | None => (Raise AttributeError, with_events [disable_autorecruit env] w)
        end
      else (Ok tt, w)
  end.
Proof.
  unfold check_for_bad_data, bind at 1.
  destruct (recently_finished env (participant_table w)) as [examined|e];
    [|reflexivity].
  fold (all_bad_data examined).
  destruct (all_bad_data examined); [|reflexivity].
  unfold set_autorecruit, expire_hit, Participant_query_get, read, emit,
    raise, with_events, bind, first_hit.
  cbn [participant_table committed_table trace].
  destruct (find _ (participant_table w)); simpl; rewrite <- ?app_assoc; reflexivity.
Qed.

(** What the job does once the condition holds: the request that
    disables auto-recruitment, then the expiry of the HIT of participant
    1, which raises if there is no such participant. *)
Lemma shutdown_of_the_check env w examined :
  recently_finished env (participant_table w) = Ok examined ->
  (forall q, In q examined -> Participant.status q = "bad_data") ->
  check_for_bad_data env w =
  match first_hit (participant_table w) with
  | Some hit =>
      (Ok tt,
       with_events
         [disable_autorecruit env;
          Conn_expire_hit hit;
          Print (Most_recent_participants_have_bad_data (bad_data_threshold env))]
         w)
  | None => (Raise AttributeError, with_events [disable_autorecruit env] w)
  end.
Proof.
  intros Hsel Hall. rewrite check_for_bad_data_unfold, Hsel.
  apply all_bad_data_iff in Hall. now rewrite Hall.
Qed.

Lemma no_shutdown_of_the_check env w examined :
  recently_finished env (participant_table w) = Ok examined ->
  (exists q, In q examined /\ Participant.status q <> "bad_data") ->
  check_for_bad_data env w = (Ok tt, w).
Proof.
  intros Hsel (q & Hq & Hstatus). rewrite check_for_bad_data_unfold, Hsel.
  destruct (all_bad_data examined) eqn:E; [|reflexivity].
  exfalso. apply Hstatus. now apply (proj1 (all_bad_data_iff _) E).
Qed.

Lemma recently_finished_comparable env rows :
  comparable_end_times (finished rows) ->
  recently_finished env rows
  = Ok (slice_from (- bad_data_threshold env)
          (sort_by_key end_time_leb Participant.end_time (finished rows))).
Proof.
  intros Hcmp. unfold recently_finished. fold (finished rows).
  now rewrite sort_by_end_time_comparable.
Qed.

(** The participants looked at are the last ones of the finished
    participants in the order of their end times. *)
Lemma recently_finished_last env rows :
  1 <= bad_data_threshold env ->
  comparable_end_times (finished rows) ->
  exists earlier examined,
    recently_finished env rows = Ok examined
    /\ sort_by_key end_time_leb Participant.end_time (finished rows)
       = (earlier ++ examined)%list
    /\ List.length examined
       = Nat.min (Z.to_nat (bad_data_threshold env)) (List.length (finished rows))
    /\ (forall a b, In a earlier -> In b examined -> ends_no_later a b).
Proof.
  intros Hn Hcmp.
  set (sorted := sort_by_key end_time_leb Participant.end_time (finished rows)).
  set (k := (List.length sorted - Z.to_nat (bad_data_threshold env))%nat).
  exists (firstn k sorted), (skipn k sorted).
  split.
  { rewrite recently_finished_comparable by exact Hcmp.
    now rewrite slice_from_last by exact Hn. }
  split; [symmetry; apply firstn_skipn|]. split.
  - rewrite length_skipn. subst k sorted.
    rewrite sort_by_key_length. lia.
  - intros a b Ha Hb.
    apply (StronglySorted_app_le ends_no_later
             (firstn k sorted) (skipn k sorted)); [|exact Ha|exact Hb].
    rewrite firstn_skipn. now apply sorted_by_end_time.
Qed.

(** C4, as the code has it.  For a threshold [N >= 1], the check sorts
    the finished participants (status other than ["working"]) by end
    time and looks at the last [N], or at all of them if they are fewer.
    If these all have the status ["bad_data"], it disables
    auto-recruitment and then expires the HIT recorded on participant 1,
    which raises [AttributeError] if the table holds no participant 1; if
    one of them has another status, it does nothing.  This is so when the
    end times can be compared, that is, when all are set or none is;
    otherwise the sort raises [TypeError] and nothing is done. *)
Theorem bad_data_check_looks_at_the_last_finished env w :
  1 <= bad_data_threshold env ->
  (comparable_end_times (finished (participant_table w)) ->
   exists earlier examined,
     recently_finished env (participant_table w) = Ok examined
     /\ Permutation (earlier ++ examined) (finished (participant_table w))
     /\ List.length examined
        = Nat.min (Z.to_nat (bad_data_threshold env))
            (List.length (finished (participant_table w)))
     /\ (forall a b, In a earlier -> In b examined -> ends_no_later a b)
     /\ ((forall q, In q examined -> Participant.status q = "bad_data") ->
         check_for_bad_data env w =
         match first_hit (participant_table w) with
         | Some hit =>
             (Ok tt,
              with_events
                [disable_autorecruit env;
                 Conn_expire_hit hit;
                 Print (Most_recent_participants_have_bad_data
                          (bad_data_threshold env))] w)
         | None =>
             (Raise AttributeError, with_events [disable_autorecruit env] w)
         end)
     /\ ((exists q, In q examined /\ Participant.status q <> "bad_data") ->
         check_for_bad_data env w = (Ok tt, w)))
  /\ (forall a b,
        In a (finished (participant_table w)) ->
        In b (finished (participant_table w)) ->
        Participant.end_time a = None -> Participant.end_time b <> None ->
        check_for_bad_data env w = (Raise TypeError, w)).
Proof.
  intros Hn. split.
  - intros Hcmp.
    destruct (recently_finished_last env (participant_table w) Hn Hcmp)
      as (earlier & examined & Hsel & Hsplit & Hlen & Hle).
    exists earlier, examined.
    split; [exact Hsel|]. split.
    { rewrite <- Hsplit. apply sort_by_key_perm. }
    split; [exact Hlen|]. split; [exact Hle|]. split.
    + now apply shutdown_of_the_check.
    + now apply no_shutdown_of_the_check.
  - intros a b Ha Hb Hnone Hsome. rewrite check_for_bad_data_unfold.
    unfold recently_finished. fold (finished (participant_table w)).
    now rewrite (sort_by_end_time_mixed _ a b Ha Hb Hnone Hsome).
Qed.

Lemma bad_data_check_looks_at_the_last_finished_witness :
  check_for_bad_data ClockSamples.env_threshold_3 ClockSamples.three_of_three_bad
  = (Ok tt,
     with_events
       [disable_autorecruit ClockSamples.env_threshold_3;
        Conn_expire_hit "hit-A";
        Print (Most_recent_participants_have_bad_data 3)]
       ClockSamples.three_of_three_bad).
Proof.
  destruct (bad_data_check_looks_at_the_last_finished
              ClockSamples.env_threshold_3 ClockSamples.three_of_three_bad)
    as [Hsorted _].
  - vm_compute. discriminate.
  - destruct Hsorted as (earlier & examined & Hsel & _ & _ & _ & Hshut & _).
    + left. intros p [<-|[<-|[<-|[]]]]; discriminate.
    + apply Hshut. vm_compute in Hsel. inversion Hsel. subst examined.
      intros q [<-|[<-|[<-|[]]]]; reflexivity.
Defined.

(** C4, as stated, fails on the job that is expired.  Carol, the first
    participant, has finished with bad data, which fires the check for a
    threshold of 1.  The assignment that is still open, and the most
    recent one, is Dave's, under HIT B; the HIT the check expires is A,
    the one recorded on Carol's row. *)
Lemma bad_data_check_expires_the_first_hit :
  bad_data_threshold ClockSamples.platform_unreachable = 1
  /\ recently_finished ClockSamples.platform_unreachable
       (participant_table ClockSamples.two_participants)
     = Ok [ClockSamples.carol]
  /\ Participant.status ClockSamples.carol = "bad_data"
  /\ spec_most_recent_open_assignment
       (participant_table ClockSamples.two_participants) = Some ClockSamples.dave
  /\ Participant.hit_id ClockSamples.dave = "hit-B"
  /\ check_for_bad_data ClockSamples.platform_unreachable
       ClockSamples.two_participants =
     (Ok tt,
      with_events
        [disable_autorecruit ClockSamples.platform_unreachable;
         Conn_expire_hit "hit-A";
         Print (Most_recent_participants_have_bad_data 1)]
        ClockSamples.two_participants)
  /\ ~ In (Conn_expire_hit (Participant.hit_id ClockSamples.dave))
         (trace (snd (check_for_bad_data ClockSamples.platform_unreachable
                        ClockSamples.two_participants))).
Proof.
  repeat split.
  vm_compute. intros [H|[H|[H|[]]]]; discriminate.
Qed.

(** C10, as the code has it.  When fewer participants have finished
    than the threshold, the check looks at all of them, a list shorter
    than the threshold.  When nobody has finished (every participant is
    still working, or there is none), that list is empty, the condition
    [all(...)] holds of it, and the check takes the shutdown branch: it
    disables auto-recruitment and then calls [expire_hit()], which
    expires the HIT of participant 1 if the table holds that
    participant and raises [AttributeError], expiring nothing, if it
    does not. *)
Theorem bad_data_check_with_nobody_finished env w :
  (Z.of_nat (List.length (finished (participant_table w))) < bad_data_threshold env ->
   comparable_end_times (finished (participant_table w)) ->
   recently_finished env (participant_table w)
   = Ok (sort_by_key end_time_leb Participant.end_time
           (finished (participant_table w)))
   /\ Permutation
        (sort_by_key end_time_leb Participant.end_time
           (finished (participant_table w)))
        (finished (participant_table w)))
  /\ ((forall p, In p (participant_table w) -> Participant.status p = "working") ->
      recently_finished env (participant_table w) = Ok []
      /\ all_bad_data [] = true
      /\ check_for_bad_data env w =
           bind (set_autorecruit env false)
             (fun _ =>
                bind expire_hit
                  (fun _ =>
                     emit (Print (Most_recent_participants_have_bad_data
                                    (bad_data_threshold env))))) w
      /\ check_for_bad_data env w =
         match first_hit (participant_table w) with
         | Some hit =>
             (Ok tt,
              with_events
                [disable_autorecruit env;
                 Conn_expire_hit hit;
                 Print (Most_recent_participants_have_bad_data
                          (bad_data_threshold env))] w)
         | None =>
             (Raise AttributeError, with_events [disable_autorecruit env] w)
         end).
Proof.
  split.
  - intros Hfew Hcmp.
    rewrite recently_finished_comparable by exact Hcmp.
    rewrite slice_from_short by (now rewrite sort_by_key_length).
    split; [reflexivity | apply sort_by_key_perm].
  - intros Hworking.
    assert (finished (participant_table w) = []) as Hnone.
    { apply filter_nil_iff. intros p Hp. rewrite (Hworking p Hp). reflexivity. }
    assert (recently_finished env (participant_table w) = Ok []) as Hempty.
    { unfold recently_finished. fold (finished (participant_table w)).
      rewrite Hnone. unfold slice_from. simpl. now rewrite skipn_nil. }
    split; [exact Hempty|]. split; [reflexivity|]. split.
    + unfold check_for_bad_data, bind at 1. rewrite Hempty. reflexivity.
    + apply (shutdown_of_the_check env w []); [exact Hempty|]. intros q [].
Qed.

(** Erin is the only participant and is still working: the check shuts
    the experiment down. *)
Lemma bad_data_check_with_nobody_finished_witness :
  check_for_bad_data ClockSamples.platform_unreachable ClockSamples.one_working =
    (Ok tt,
     with_events
       [Requests_patch "https://api.heroku.com/apps/dlgr-5f3a/config-vars"
          [("auto_recruit", "false")];
        Conn_expire_hit "hit-A";
        Print (Most_recent_participants_have_bad_data 1)]
       ClockSamples.one_working)
  /\ recently_finished ClockSamples.platform_unreachable
       (participant_table ClockSamples.one_working)
     = Ok (sort_by_key end_time_leb Participant.end_time
             (finished (participant_table ClockSamples.one_working))).
Proof.
  destruct (bad_data_check_with_nobody_finished
              ClockSamples.platform_unreachable ClockSamples.one_working)
    as [Hfew Hnobody].
  split.
  - destruct Hnobody as (_ & _ & _ & Hrun).
    + intros p [<-|[]]. reflexivity.
    + exact Hrun.
  - apply Hfew.
    + vm_compute. reflexivity.
    + left. intros p [].
Defined.

(** C10, as stated, fails before the first participant.  On the empty
    table nobody has finished, so the condition holds; the check
    disables auto-recruitment, and [expire_hit] then raises
    [AttributeError] on the missing participant 1: no HIT is expired. *)
Lemma nobody_finished_and_nothing_expired :
  finished (participant_table ClockSamples.no_participant) = []
  /\ recently_finished ClockSamples.platform_unreachable
       (participant_table ClockSamples.no_participant) = Ok []
  /\ check_for_bad_data ClockSamples.platform_unreachable
       ClockSamples.no_participant
     = (Raise AttributeError,
        with_events [disable_autorecruit ClockSamples.platform_unreachable]
          ClockSamples.no_participant)
  /\ filter expires_or_alerts
       (trace (snd (check_for_bad_data ClockSamples.platform_unreachable
                      ClockSamples.no_participant))) = [].
Proof. repeat split. Qed.

(** Before the first participant exists there is no row to read the HIT
    from: the check has disabled auto-recruitment when [expire_hit]
    raises, and no HIT is expired. *)
Lemma check_for_bad_data_on_an_empty_table env w :
  participant_table w = [] ->
  check_for_bad_data env w =
    (Raise AttributeError, with_events [disable_autorecruit env] w).
Proof.
  intros Hempty. rewrite check_for_bad_data_unfold, Hempty.
  unfold recently_finished, slice_from. simpl. rewrite skipn_nil. reflexivity.
Qed.

Example two_of_three_bad_does_nothing :
  recently_finished ClockSamples.env_threshold_3
    (participant_table ClockSamples.two_of_three_bad)
    = Ok [ClockSamples.frank; ClockSamples.grace "approved"; ClockSamples.heidi]
  /\ check_for_bad_data ClockSamples.env_threshold_3 ClockSamples.two_of_three_bad
     = (Ok tt, ClockSamples.two_of_three_bad).
Proof. split; reflexivity. Qed.

(** A participant the watchdog has just set to [rejected] has no end
    time; beside one that has, the sort of the check raises. *)
Example end_time_not_set_breaks_the_sort :
  check_for_bad_data ClockSamples.env_threshold_3
    (Build_world
       [ClockSamples.frank; Participant.set_status "rejected" ClockSamples.dave]
       [] [])
  = (Raise TypeError,
     Build_world
       [ClockSamples.frank; Participant.set_status "rejected" ClockSamples.dave]
       [] []).
Proof. reflexivity. Qed.

(** With a threshold of 0 the slice [[-0:]] is the whole list, and with a
    negative one it drops participants from the front. *)
Example slice_with_threshold_zero :
  slice_from (- 0) [1; 2; 3] = [1; 2; 3].
Proof. reflexivity. Qed.

Example slice_with_threshold_two :
  slice_from (- 2) [1; 2; 3] = [2; 3].
Proof. reflexivity. Qed.

Example slice_with_negative_threshold :
  slice_from (- (- 2)) [1; 2; 3] = [3].
Proof. reflexivity. Qed.

End BadDataProps.

(* ================================================================== *)
(** * Part III.  Further properties of the clock process               *)
(* ================================================================== *)

Module WatchdogCoverage.
Import Clock ClockVocabulary.

Lemma for_each_quiet env l w :
  (forall p, In p l -> overdue env p = false) ->
  for_each l (check_participant env) w = (Ok tt, w).
Proof.
  induction l as [|p l IH]; intros Hl; simpl; [reflexivity|].
  unfold bind. rewrite WatchdogProps.check_participant_cases.
  rewrite (Hl p (or_introl eq_refl)).
  apply IH. intros q Hq. apply Hl. now right.
Qed.

(** X1.  A cycle in which no working participant is overdue, by the
    test of the code, makes no call at all, not even a status query, and
    leaves the world as it was. *)
Theorem cycle_without_overdue_participant_is_silent env w :
  (forall p, In p (participant_table w) ->
     Participant.status p = "working" -> overdue env p = false) ->
  check_for_missed_notifications env w = (Ok tt, w).
Proof.
  intros H. unfold check_for_missed_notifications, bind, read.
  apply for_each_quiet. intros p Hp.
  apply filter_In in Hp. destruct Hp as [Hin Hw]. apply String.eqb_eq in Hw.
  now apply H.
Qed.

Lemma cycle_without_overdue_participant_is_silent_witness :
  check_for_missed_notifications ClockSamples.platform_unreachable
    WatchdogSamples.judy_only = (Ok tt, WatchdogSamples.judy_only).
Proof.
  apply (cycle_without_overdue_participant_is_silent
           ClockSamples.platform_unreachable WatchdogSamples.judy_only).
  intros p [<-|[]] _. reflexivity.
Defined.

(** What one run of the loop body adds to the trace. *)
Lemma check_participant_adds env p w :
  exists added,
    trace (snd (check_participant env p w)) = (trace w ++ added)%list
    /\ (added <> [] -> overdue env p = true)
    /\ (forall e, In e added -> concerns p e).
Proof.
  rewrite WatchdogProps.check_participant_cases.
  destruct (overdue env p).
  - assert (exists added,
              trace (snd (shutdown env p w)) = (trace w ++ added)%list
              /\ (added <> [] -> true = true)
              /\ (forall e, In e added -> concerns p e)) as Hshut.
    { unfold shutdown. destruct (first_hit (participant_table w)) as [hit|].
      - exists (shutdown_events env p hit). split; [reflexivity|].
        split; [reflexivity|].
        intros e He. simpl in He.
        destruct He as [<-|[<-|[<-|[<-|[<-|[<-|[]]]]]]]; simpl; auto.
      - eexists. split; [reflexivity|]. split; [reflexivity|].
        intros e He. simpl in He.
        destruct He as [<-|[<-|[<-|[]]]]; simpl; auto. }
    destruct (reported_status env p) as [s|]; [|exact Hshut].
    destruct (str_in s ["Approved"; "Rejected"]).
    + eexists. split; [reflexivity|]. split; [reflexivity|].
      intros e He. simpl in He.
      destruct He as [<-|[<-|[<-|[<-|[]]]]]; simpl; auto.
    + destruct (String.eqb s "Submitted"); [|exact Hshut].
      exists (replay_events env p). split; [reflexivity|]. split; [reflexivity|].
      intros e He. simpl in He.
      destruct He as [<-|[<-|[<-|[<-|[]]]]]; simpl; auto.
  - exists []. simpl. rewrite app_nil_r. split; [reflexivity|].
    split; [congruence | intros e []].
Qed.

Lemma for_each_check_participant_adds env l :
  forall w,
  exists added,
    trace (snd (for_each l (check_participant env) w)) = (trace w ++ added)%list
    /\ (forall e, In e added ->
          exists p, In p l /\ overdue env p = true /\ concerns p e).
Proof.
  induction l as [|p l IH]; intros w; simpl.
  - exists []. rewrite app_nil_r. split; [reflexivity | intros e []].
  - unfold bind.
    destruct (check_participant_adds env p w) as (a1 & Ht1 & Hne1 & Hc1).
    destruct (check_participant env p w) as [[[]|e] w1]; simpl in Ht1.
    + destruct (IH w1) as (a2 & Ht2 & Hc2).
      exists (a1 ++ a2)%list. rewrite Ht2, Ht1, app_assoc. split; [reflexivity|].
      intros e He. apply in_app_or in He. destruct He as [He|He].
      * exists p. split; [now left|]. split; [|now apply Hc1].
        apply Hne1. intros ->. contradiction.
      * destruct (Hc2 e He) as (q & Hq & Hov & Hcq).
        exists q. split; [now right|]. now split.
    + exists a1. split; [exact Ht1|].
      intros e0 He. exists p. split; [now left|]. split; [|now apply Hc1].
      apply Hne1. intros ->. contradiction.
Qed.

(** X2.  Whatever the table and whatever the platform answers, also when
    the cycle ends in an exception, every call of a cycle is made on
    behalf of a participant that is in the table, working and overdue by
    the test of the code: every status query is for the assignment of
    such a participant, and every notification posted names the
    assignment of one.  Participants that have finished, and working
    ones the test does not find overdue, are never asked about. *)
Theorem cycle_calls_concern_overdue_workers env w :
  exists added,
    trace (snd (check_for_missed_notifications env w)) = (trace w ++ added)%list
    /\ (forall e, In e added ->
          exists p, In p (participant_table w)
                    /\ Participant.status p = "working"
                    /\ overdue env p = true
                    /\ concerns p e).
Proof.
  unfold check_for_missed_notifications, bind, read.
  destruct (for_each_check_participant_adds env
              (filter (fun p => String.eqb (Participant.status p) "working")
                 (participant_table w)) w) as (added & Ht & Hc).
  exists added. split; [exact Ht|].
  intros e He. destruct (Hc e He) as (p & Hp & Hov & Hcp).
  apply filter_In in Hp. destruct Hp as [Hin Hw].
  exists p. split; [exact Hin|]. split; [now apply String.eqb_eq|].
  now split.
Qed.






Example erin_is_rejected_and_judy_left_alone :
  participant_table
    (snd (check_for_missed_notifications
            (ClockSamples.env_answering (Ok ["Rejected"]))
            WatchdogSamples.erin_and_judy))
  = [Participant.set_status "rejected" ClockSamples.erin; WatchdogSamples.judy].
Proof. reflexivity. Qed.

Lemma for_each_shutdowns env hit l :
  (forall p, In p l -> overdue env p = true -> unsettled env p) ->
  forall w,
    first_hit (participant_table w) = Some hit ->
    for_each l (check_participant env) w
    = (Ok tt, with_events (shutdown_round env hit l) w).
Proof.
  induction l as [|p l IH]; intros Hl w Hfirst.
  - simpl. unfold ret. now rewrite WatchdogProps.with_events_nil.
  - cbn [for_each]. unfold bind.
    unfold shutdown_round. cbn [flat_map]. fold (shutdown_round env hit l).
    assert (forall q, In q l -> overdue env q = true -> unsettled env q) as Hl'
      by (intros q Hq; apply Hl; now right).
    destruct (overdue env p) eqn:E.
    + rewrite (WatchdogProps.check_participant_unsettled env p w E
                 (Hl p (or_introl eq_refl) E)).
      unfold shutdown. rewrite Hfirst.
      rewrite (IH Hl' (with_events (shutdown_events env p hit) w))
        by exact Hfirst.
      now rewrite WatchdogProps.with_events_app.
    + rewrite WatchdogProps.check_participant_cases, E.
      rewrite (IH Hl' w Hfirst). reflexivity.
Qed.

Lemma shutdown_round_holds_the_commands env hit rows p :
  In p rows -> Participant.status p = "working" -> overdue env p = true ->
  In (disable_autorecruit env) (shutdown_round env hit (working rows))
  /\ In (Conn_expire_hit hit) (shutdown_round env hit (working rows))
  /\ In (notification env "NotificationMissing" (Participant.assignment_id p))
       (shutdown_round env hit (working rows)).
Proof.
  intros Hin Hw Hov.
  assert (forall e, In e (shutdown_events env p hit) ->
            In e (shutdown_round env hit (working rows))) as Hsub.
  { intros e He. unfold shutdown_round. apply in_flat_map.
    exists p. split.
    - apply filter_In. split; [exact Hin | now apply String.eqb_eq].
    - now rewrite Hov. }
  repeat split; apply Hsub; simpl; tauto.
Qed.

(** X4.  The shutdown is not latched.  When participant 1 is in the
    table and the platform gives, for every working participant that is
    overdue, no status or a status other than [Approved], [Rejected] and
    [Submitted], the cycle issues the three commands of the final [else]
    branch once per such participant and leaves the tables as they were.
    Nothing of it restrains a later cycle: at whatever time it runs, if
    the participants it finds overdue are again unsettled, it issues the
    three commands again for each of them. *)
Theorem shutdown_is_repeated_by_the_next_cycle env w hit :
  first_hit (participant_table w) = Some hit ->
  (forall p, In p (participant_table w) ->
     Participant.status p = "working" -> overdue env p = true ->
     unsettled env p) ->
  check_for_missed_notifications env w
  = (Ok tt,
     with_events (shutdown_round env hit (working (participant_table w))) w)
  /\ (forall p, In p (participant_table w) ->
        Participant.status p = "working" -> overdue env p = true ->
        In (disable_autorecruit env)
          (shutdown_round env hit (working (participant_table w)))
        /\ In (Conn_expire_hit hit)
             (shutdown_round env hit (working (participant_table w)))
        /\ In (notification env "NotificationMissing"
                 (Participant.assignment_id p))
             (shutdown_round env hit (working (participant_table w))))
  /\ (forall later,
        (forall p, In p (participant_table w) ->
           Participant.status p = "working" -> overdue later p = true ->
           unsettled later p) ->
        check_for_missed_notifications later
          (with_events (shutdown_round env hit (working (participant_table w))) w)
        = (Ok tt,
           with_events
             (shutdown_round env hit (working (participant_table w))
              ++ shutdown_round later hit (working (participant_table w))) w)
        /\ (forall p, In p (participant_table w) ->
              Participant.status p = "working" -> overdue later p = true ->
              In (disable_autorecruit later)
                (shutdown_round later hit (working (participant_table w)))
              /\ In (Conn_expire_hit hit)
                   (shutdown_round later hit (working (participant_table w)))
              /\ In (notification later "NotificationMissing"
                       (Participant.assignment_id p))
                   (shutdown_round later hit (working (participant_table w))))).
Proof.
  intros Hfirst H.
  assert (forall env0,
            (forall p, In p (participant_table w) ->
               Participant.status p = "working" -> overdue env0 p = true ->
               unsettled env0 p) ->
            forall p, In p (working (participant_table w)) ->
              overdue env0 p = true -> unsettled env0 p) as Hl.
  { intros env0 H0 p Hp Hov. apply filter_In in Hp. destruct Hp as [Hin Hw].
    apply String.eqb_eq in Hw. now apply H0. }
  split; [|split].
  - unfold check_for_missed_notifications, bind, read.
    fold (working (participant_table w)).
    now apply for_each_shutdowns; [apply Hl|].
  - intros p. apply shutdown_round_holds_the_commands.
  - intros later Hlater. split.
    + unfold check_for_missed_notifications, bind, read.
      change (participant_table
                (with_events
                   (shutdown_round env hit (working (participant_table w))) w))
        with (participant_table w).
      fold (working (participant_table w)).
      rewrite (for_each_shutdowns later hit _ (Hl later Hlater)) by exact Hfirst.
      now rewrite WatchdogProps.with_events_app.
    + intros p. apply shutdown_round_holds_the_commands.
Qed.

Lemma shutdown_is_repeated_by_the_next_cycle_witness :
  check_for_missed_notifications
    (ClockSamples.an_hour_later (Raise RequestException))
    (snd (check_for_missed_notifications ClockSamples.platform_unreachable
            WatchdogSamples.erin_and_judy))
  = (Ok tt,
     with_events
       (shutdown_events ClockSamples.platform_unreachable ClockSamples.erin
          "hit-A"
        ++ shutdown_events (ClockSamples.an_hour_later (Raise RequestException))
             ClockSamples.erin "hit-A"
        ++ shutdown_events (ClockSamples.an_hour_later (Raise RequestException))
             WatchdogSamples.judy "hit-A")
       WatchdogSamples.erin_and_judy).
Proof.
  destruct (shutdown_is_repeated_by_the_next_cycle
              ClockSamples.platform_unreachable WatchdogSamples.erin_and_judy
              "hit-A") as (Hfirst & _ & Hlater).
  - reflexivity.
  - intros p _ _ _. exact I.
  - rewrite Hfirst.
    destruct (Hlater (ClockSamples.an_hour_later (Raise RequestException)))
      as [Hsecond _].
    + intros p _ _ _. exact I.
    + cbn [snd]. rewrite Hsecond. reflexivity.
Defined.

End WatchdogCoverage.

Module ClockJobsCoverage.
Import Clock ClockVocabulary.

Lemma string_length_app (a b : string) :
  String.length (a ++ b) = (String.length a + String.length b)%nat.
Proof. induction a as [|c a IH]; simpl; [reflexivity | now rewrite IH]. Qed.

Lemma substring_of_prefix (a b : string) :
  substring 0 (String.length a) (a ++ b) = a.
Proof.
  induction a as [|c a IH]; simpl.
  - now destruct b.
  - now rewrite IH.
Qed.

Lemma substring_nothing (s : string) : substring 0 0 s = "".
Proof. now destruct s. Qed.

(** X6.  [set_autorecruit] takes the name of the application to be the
    [HOST] without its last 14 characters, the length of
    [".herokuapp.com"], whatever these characters are: the request goes to
    [https://api.heroku.com/apps/<name>/config-vars] with [auto_recruit]
    set to ["true"] or ["false"].  A [HOST] of at most 14 characters gives
    the empty name. *)
Theorem set_autorecruit_drops_the_last_14_characters env autorecruit w :
  (forall name suffix,
     HOST env = name ++ suffix -> String.length suffix = 14%nat ->
     set_autorecruit env autorecruit w =
       (Ok tt,
        with_events
          [Requests_patch ("https://api.heroku.com/apps/" ++ name ++ "/config-vars")
             [("auto_recruit", if autorecruit then "true" else "false")]] w))
  /\ ((String.length (HOST env) <= 14)%nat ->
      set_autorecruit env autorecruit w =
        (Ok tt,
         with_events
           [Requests_patch "https://api.heroku.com/apps//config-vars"
              [("auto_recruit", if autorecruit then "true" else "false")]] w)).
Proof.
  split.
  - intros name suffix Hhost Hlen.
    unfold set_autorecruit, emit, with_events, drop_last. rewrite Hhost.
    rewrite string_length_app, Hlen.
    replace (String.length name + 14 - String.length ".herokuapp.com")%nat
      with (String.length name) by (simpl; lia).
    rewrite substring_of_prefix. now destruct autorecruit.
  - intros Hshort.
    unfold set_autorecruit, emit, with_events, drop_last.
    replace (String.length (HOST env) - String.length ".herokuapp.com")%nat
      with 0%nat by (simpl; lia).
    rewrite substring_nothing. now destruct autorecruit.
Qed.

Lemma set_autorecruit_drops_the_last_14_characters_witness :
  set_autorecruit ClockSamples.platform_unreachable true ClockSamples.one_working
  = (Ok tt,
     with_events
       [Requests_patch "https://api.heroku.com/apps/dlgr-5f3a/config-vars"
          [("auto_recruit", "true")]] ClockSamples.one_working)
  /\ set_autorecruit WatchdogSamples.env_custom_domain false ClockSamples.one_working
     = (Ok tt,
        with_events
          [Requests_patch "https://api.heroku.com/apps/lab.ex/config-vars"
             [("auto_recruit", "false")]] ClockSamples.one_working).
Proof.
  split.
  - apply (proj1 (set_autorecruit_drops_the_last_14_characters
                    ClockSamples.platform_unreachable true ClockSamples.one_working)
             "dlgr-5f3a" ".herokuapp.com"); reflexivity.
  - apply (proj1 (set_autorecruit_drops_the_last_14_characters
                    WatchdogSamples.env_custom_domain false ClockSamples.one_working)
             "lab.ex" "ample-univ.org"); reflexivity.
Defined.

(** X7.  A threshold of 0 does not switch the bad-data check off, and a
    negative one does not either: the slice [[-threshold:]] then starts
    at index [-threshold], so the check looks at all the finished
    participants, in the order of their end times, but the [-threshold]
    that ended first; with a threshold of 0 it looks at all of them.  If
    those it looks at all have bad data, it disables auto-recruitment
    and then expires the HIT of participant 1, or raises
    [AttributeError] if the table holds no participant 1; if one of them
    has another status it does nothing.  This is so when the end times
    can be compared, that is, when all are set or none is. *)
Theorem nonpositive_threshold_keeps_the_check_on env w :
  bad_data_threshold env <= 0 ->
  comparable_end_times (finished (participant_table w)) ->
  recently_finished env (participant_table w)
  = Ok (skipn (Z.to_nat (- bad_data_threshold env))
          (sort_by_key end_time_leb Participant.end_time
             (finished (participant_table w))))
  /\ (bad_data_threshold env = 0 ->
      exists examined,
        recently_finished env (participant_table w) = Ok examined
        /\ Permutation examined (finished (participant_table w)))
  /\ ((forall q,
         In q (skipn (Z.to_nat (- bad_data_threshold env))
                 (sort_by_key end_time_leb Participant.end_time
                    (finished (participant_table w)))) ->
         Participant.status q = "bad_data") ->
      check_for_bad_data env w =
      match first_hit (participant_table w) with
      | Some hit =>
          (Ok tt,
           with_events
             [disable_autorecruit env;
              Conn_expire_hit hit;
              Print (Most_recent_participants_have_bad_data
                       (bad_data_threshold env))] w)
      | None => (Raise AttributeError, with_events [disable_autorecruit env] w)
      end)
  /\ ((exists q,
         In q (skipn (Z.to_nat (- bad_data_threshold env))
                 (sort_by_key end_time_leb Participant.end_time
                    (finished (participant_table w))))
         /\ Participant.status q <> "bad_data") ->
      check_for_bad_data env w = (Ok tt, w)).
Proof.
  intros Hn Hcmp.
  assert (recently_finished env (participant_table w)
          = Ok (skipn (Z.to_nat (- bad_data_threshold env))
                  (sort_by_key end_time_leb Participant.end_time
                     (finished (participant_table w))))) as Hsel.
  { rewrite BadDataProps.recently_finished_comparable by exact Hcmp.
    now rewrite BadDataProps.slice_from_nonpositive by exact Hn. }
  split; [exact Hsel|]. split; [|split].
  - intros H0. eexists. split; [exact Hsel|].
    rewrite H0. cbn [Z.opp Z.to_nat skipn]. apply sort_by_key_perm.
  - now apply BadDataProps.shutdown_of_the_check.
  - now apply BadDataProps.no_shutdown_of_the_check.
Qed.

Lemma nonpositive_threshold_keeps_the_check_on_witness :
  recently_finished WatchdogSamples.env_threshold_0
    (participant_table ClockSamples.three_of_three_bad)
  = Ok [ClockSamples.frank; ClockSamples.grace "bad_data"; ClockSamples.heidi]
  /\ check_for_bad_data WatchdogSamples.env_threshold_0
       ClockSamples.three_of_three_bad
     = (Ok tt,
        with_events
          [disable_autorecruit WatchdogSamples.env_threshold_0;
           Conn_expire_hit "hit-A";
           Print (Most_recent_participants_have_bad_data 0)]
          ClockSamples.three_of_three_bad)
  /\ check_for_bad_data (ClockSamples.env_threshold (- 1))
       ClockSamples.two_of_three_bad
     = (Ok tt, ClockSamples.two_of_three_bad).
Proof.
  assert (comparable_end_times
            (finished (participant_table ClockSamples.three_of_three_bad)))
    as Hcmp3 by (left; intros p [<-|[<-|[<-|[]]]]; discriminate).
  assert (comparable_end_times
            (finished (participant_table ClockSamples.two_of_three_bad)))
    as Hcmp2 by (left; intros p [<-|[<-|[<-|[]]]]; discriminate).
  split; [|split].
  - destruct (nonpositive_threshold_keeps_the_check_on
                WatchdogSamples.env_threshold_0 ClockSamples.three_of_three_bad)
      as [Hsel _]; [vm_compute; discriminate | exact Hcmp3 |].
    rewrite Hsel. reflexivity.
  - destruct (nonpositive_threshold_keeps_the_check_on
                WatchdogSamples.env_threshold_0 ClockSamples.three_of_three_bad)
      as (_ & _ & Hshut & _); [vm_compute; discriminate | exact Hcmp3 |].
    apply Hshut. intros q [<-|[<-|[<-|[]]]]; reflexivity.
  - destruct (nonpositive_threshold_keeps_the_check_on
                (ClockSamples.env_threshold (- 1)) ClockSamples.two_of_three_bad)
      as (_ & _ & _ & Hnone); [vm_compute; discriminate | exact Hcmp2 |].
    apply Hnone. exists (ClockSamples.grace "approved").
    split; [left; reflexivity | discriminate].
Defined.

End ClockJobsCoverage.

(* ================================================================== *)
(** * Part IV.  Further properties of the experiment class             *)
(* ================================================================== *)

Module AllocatorCoverage.
Import Experiment ExperimentVocabulary ExperimentCoverageVocabulary.

Lemma logged_tables self lines w :
  network_table (logged self lines w) = network_table w
  /\ node_table (logged self lines w) = node_table w
  /\ random_pos (logged self lines w) = random_pos w
  /\ requests_made (logged self lines w) = requests_made w.
Proof. unfold logged. simpl. auto. Qed.

(** X8.  [get_network_for_participant] only reads the database: it
    returns its choice and writes log lines, but creates no node and
    changes no network, so the candidates of every participant are the
    same after the call as before.  Recording the participation is left
    to the caller. *)
Theorem get_network_for_participant_only_reads env self p w :
  network_table (snd (get_network_for_participant env self p w)) = network_table w
  /\ node_table (snd (get_network_for_participant env self p w)) = node_table w
  /\ (forall q,
        legal_networks (snd (get_network_for_participant env self p w)) q
        = legal_networks w q)
  /\ (exists lines,
        trace (snd (get_network_for_participant env self p w))
        = (trace w ++ lines)%list
        /\ forall e, In e lines -> is_log_line e).
Proof.
  assert (network_table (snd (get_network_for_participant env self p w))
          = network_table w
          /\ node_table (snd (get_network_for_participant env self p w))
             = node_table w
          /\ exists lines,
               trace (snd (get_network_for_participant env self p w))
               = (trace w ++ lines)%list
               /\ forall e, In e lines -> is_log_line e) as (Hnet & Hnode & Hlines).
  { unfold get_network_for_participant.
    rewrite AllocatorProps.get_network_for_participant_with_unfold.
    destruct (legal_networks w p) as [|first others].
    - simpl. split; [reflexivity|]. split; [reflexivity|].
      unfold logged; simpl. destruct (verbose self).
      + eexists. split; [reflexivity|]. intros e [<-|[]]. exact I.
      + exists []. rewrite app_nil_r. split; [reflexivity | intros e []].
    - cbv zeta.
      destruct (filter _ (first :: others)) as [|chosen rest].
      + unfold choose_network, random_choice, logged. simpl.
        split; [reflexivity|]. split; [reflexivity|].
        destruct (verbose self).
        * eexists. rewrite <- app_assoc. split; [reflexivity|].
          intros e [<-|[<-|[]]]; exact I.
        * exists []. rewrite app_nil_r. split; [reflexivity | intros e []].
      + simpl. split; [reflexivity|]. split; [reflexivity|].
        unfold logged; simpl. destruct (verbose self).
        * eexists. split; [reflexivity|]. intros e [<-|[<-|[]]]; exact I.
        * exists []. rewrite app_nil_r. split; [reflexivity | intros e []]. }
  split; [exact Hnet|]. split; [exact Hnode|]. split; [|exact Hlines].
  intros q. unfold legal_networks. now rewrite Hnet, Hnode.
Qed.

(** X9.  When exactly one network is eligible for the participant, that
    network is returned whatever number the random generator draws. *)
Theorem single_candidate_is_chosen env self p w net :
  legal_networks w p = [net] ->
  fst (get_network_for_participant env self p w) = Ok (Some net).
Proof.
  intros Hone. unfold get_network_for_participant.
  rewrite AllocatorProps.get_network_for_participant_with_unfold, Hone.
  cbv zeta. cbn [filter].
  destruct (String.eqb (Network.role net) "practice"); [reflexivity|].
  unfold choose_network, random_choice. cbn [List.length].
  rewrite Nat.mod_1_r. reflexivity.
Qed.

Lemma single_candidate_is_chosen_witness :
  fst (get_network_for_participant ExperimentSamples.sample_env
         ExperimentSamples.sample_self ExperimentSamples.alice
         ExperimentSamples.sample_world)
  = Ok (Some ExperimentSamples.experiment_4).
Proof.
  apply (single_candidate_is_chosen ExperimentSamples.sample_env
           ExperimentSamples.sample_self ExperimentSamples.alice
           ExperimentSamples.sample_world ExperimentSamples.experiment_4).
  reflexivity.
Defined.

End AllocatorCoverage.

Module FailureCoverage.
Import Experiment ExperimentVocabulary ExperimentCoverageVocabulary.

Lemma same_key_same_row {A : Type} (key : A -> Z) (l : list A) (a b : A) :
  NoDup (map key l) -> In a l -> In b l -> key a = key b -> a = b.
Proof.
  induction l as [|x l IH]; simpl; intros Hnd Ha Hb Hk; [contradiction|].
  inversion Hnd as [|? ? Hx Hnd']; subst.
  destruct Ha as [<-|Ha], Hb as [<-|Hb].
  - reflexivity.
  - exfalso. apply Hx. rewrite Hk. now apply in_map.
  - exfalso. apply Hx. rewrite <- Hk. now apply in_map.
  - now apply IH.
Qed.

Lemma NoDup_map_filter {A : Type} (key : A -> Z) (f : A -> bool) (l : list A) :
  NoDup (map key l) -> NoDup (map key (filter f l)).
Proof.
  induction l as [|x l IH]; simpl; intros Hnd; [constructor|].
  inversion Hnd as [|? ? Hx Hnd']; subst.
  destruct (f x); simpl; [|now apply IH].
  constructor; [|now apply IH].
  intros Hin. apply Hx. apply in_map_iff in Hin. destruct Hin as (y & Hy & Hin).
  apply filter_In in Hin. rewrite <- Hy. apply in_map. tauto.
Qed.

Lemma row_after_untouched env l r :
  ~ In (Node.id r) (map Node.id l) -> row_after env l r = r.
Proof.
  revert r. induction l as [|x l IH]; intros r Hr; simpl; [reflexivity|].
  simpl in Hr.
  destruct (Node.id r =? Node.id x) eqn:E.
  - exfalso. apply Hr. left. apply Z.eqb_eq in E. now symmetry.
  - apply IH. tauto.
Qed.

Lemma row_after_hit env l r :
  node_fail_contract env ->
  Forall (fun n => Node.failed n = false) l ->
  NoDup (map Node.id l) ->
  In r l ->
  exists r', node_fail env r = Ok r' /\ row_after env l r = r'.
Proof.
  intros contract Hl. revert r.
  induction Hl as [|x l Hx Hl IH]; intros r Hnd Hr; [contradiction|].
  simpl in Hnd. inversion Hnd as [|? ? Hnotin Hnd']; subst.
  simpl.
  destruct (Node.id r =? Node.id x) eqn:E.
  - apply Z.eqb_eq in E.
    assert (r = x) as ->.
    { destruct Hr as [<-|Hr]; [reflexivity|].
      exfalso. apply Hnotin. rewrite <- E. now apply in_map. }
    destruct (contract x Hx) as (x' & Hx' & _ & Hid & _).
    exists x'. split; [exact Hx'|]. rewrite Hx'.
    apply row_after_untouched. now rewrite Hid.
  - destruct Hr as [<-|Hr]; [rewrite Z.eqb_refl in E; discriminate|].
    now apply IH.
Qed.

(** With unique node ids, [fail_participant] rewrites the node table row
    by row. *)
Lemma fail_participant_rows env p w :
  node_fail_contract env -> unique_node_ids w ->
  fail_participant env p w =
    (Ok tt,
     Build_world (network_table w)
       (map (fail_row env (Participant.id p)) (node_table w))
       (random_pos w) (requests_made w)
       (trace w ++ map Call_Node_fail (participant_nodes p w))).
Proof.
  intros contract Hnd.
  pose proof (FailureProps.participant_nodes_not_failed p w) as Hl.
  assert (fail_participant env p w =
            for_each (participant_nodes p w) (Node_fail env) w) as ->
    by reflexivity.
  rewrite (FailureProps.for_each_Node_fail env contract _ Hl).
  f_equal. f_equal. apply map_ext_in. intros r Hr.
  unfold fail_row.
  destruct ((Node.participant_id r =? Participant.id p)
            && Bool.eqb (Node.failed r) false)%bool eqn:E.
  - assert (In r (participant_nodes p w)) as Hsel
      by (apply filter_In; now split).
    destruct (row_after_hit env (participant_nodes p w) r contract Hl) as (r' & Hr' & ->).
    + now apply NoDup_map_filter.
    + exact Hsel.
    + now rewrite Hr'.
  - apply row_after_untouched. intros Hin.
    apply in_map_iff in Hin. destruct Hin as (x & Hid & Hx).
    assert (x = r) as ->.
    { apply (same_key_same_row Node.id (node_table w)); auto.
      unfold participant_nodes in Hx. apply filter_In in Hx. tauto. }
    unfold participant_nodes in Hx. apply filter_In in Hx.
    destruct Hx as [_ Hx]. congruence.
Qed.

Lemma fail_row_id env pid r :
  node_fail_contract env -> Node.id (fail_row env pid r) = Node.id r.
Proof.
  intros contract. unfold fail_row.
  destruct (Node.participant_id r =? pid); simpl; [|reflexivity].
  destruct (Node.failed r) eqn:Ef; simpl; [reflexivity|].
  now destruct (contract r Ef) as (r' & -> & _ & Hid & _).
Qed.

Lemma fail_row_commutes env p q r :
  node_fail_contract env ->
  fail_row env q (fail_row env p r) = fail_row env p (fail_row env q r).
Proof.
  intros contract. unfold fail_row.
  destruct (Node.failed r) eqn:Ef.
  - rewrite !andb_false_r. rewrite Ef. rewrite !andb_false_r. reflexivity.
  - destruct (contract r Ef) as (r' & Hr' & Hf' & _ & Hp').
    rewrite Hr'. cbn [Bool.eqb]. rewrite !andb_true_r.
    destruct (Node.participant_id r =? p) eqn:Ep,
             (Node.participant_id r =? q) eqn:Eq;
      rewrite ?Hf', ?Hp', ?Ep, ?Eq, ?Ef, ?Hr'; cbn [Bool.eqb andb];
      rewrite ?andb_false_r, ?Ep, ?Eq, ?Hr'; cbn [andb Bool.eqb]; reflexivity.
Qed.

Lemma fail_row_keeps env pid r :
  node_fail_contract env -> node_fail_keeps_network env ->
  Node.participant_id (fail_row env pid r) = Node.participant_id r
  /\ Node.network_id (fail_row env pid r) = Node.network_id r.
Proof.
  intros contract keeps. unfold fail_row.
  destruct (Node.participant_id r =? pid); simpl; [|now split].
  destruct (Node.failed r) eqn:Ef; simpl; [now split|].
  destruct (contract r Ef) as (r' & Hr' & _ & _ & Hp). rewrite Hr'.
  split; [exact Hp | now apply keeps].
Qed.

(** X10.  A failed node still counts as participation.  After the nodes
    of a participant were failed, the participant is not sent again to a
    network in which they had a node, failed or not: the allocator looks
    at all the nodes of the participant, whatever their [failed] flag. *)
Theorem failed_participation_still_counts env self p w net :
  node_fail_contract env -> node_fail_keeps_network env -> unique_node_ids w ->
  has_node w p net ->
  forall net', Network.id net' = Network.id net ->
    fst (get_network_for_participant env self p (snd (fail_participant env p w)))
    <> Ok (Some net').
Proof.
  intros contract keeps Hnd (n & Hn & Hp & Hnet) net' Hid Hres.
  rewrite (fail_participant_rows env p w contract Hnd) in Hres.
  cbn [snd] in Hres.
  match type of Hres with
  | fst (get_network_for_participant env self p ?after) = _ =>
      set (w1 := after) in *
  end.
  assert (has_node w1 p net') as Hstill.
  { exists (fail_row env (Participant.id p) n).
    destruct (fail_row_keeps env (Participant.id p) n contract keeps) as [Hp' Hn'].
    split; [|split].
    - subst w1. cbn [node_table]. now apply in_map.
    - now rewrite Hp'.
    - rewrite Hn'. congruence. }
  pose proof (AllocatorProps.get_network_for_participant_with_eligible self
                (choose_network env) p w1
                (fun networks w0 =>
                   AllocatorProps.choose_network_picks env networks p w0)) as Hel.
  unfold get_network_for_participant in Hres. rewrite Hres in Hel.
  apply AllocatorProps.legal_networks_spec in Hel.
  destruct Hel as (_ & _ & Hnone). now apply Hnone.
Qed.

Lemma sample_node_fail_contract :
  node_fail_contract ExperimentSamples.sample_env.
Proof. intros n Hn. eexists. split; [reflexivity|]. simpl. auto. Qed.

Lemma sample_node_fail_keeps_network :
  node_fail_keeps_network ExperimentSamples.sample_env.
Proof. intros n n' [= <-]. reflexivity. Qed.

Lemma sample_world_unique_node_ids :
  unique_node_ids ExperimentSamples.sample_world.
Proof.
  unfold unique_node_ids. simpl. constructor.
  - simpl. intros [H|[]]. discriminate.
  - constructor; [intros [] | constructor].
Qed.

Lemma failed_participation_still_counts_witness :
  fst (get_network_for_participant ExperimentSamples.sample_env
         ExperimentSamples.sample_self ExperimentSamples.alice
         (snd (fail_participant ExperimentSamples.sample_env
                 ExperimentSamples.alice ExperimentSamples.sample_world)))
  <> Ok (Some ExperimentSamples.experiment_2).
Proof.
  apply (failed_participation_still_counts ExperimentSamples.sample_env
           ExperimentSamples.sample_self ExperimentSamples.alice
           ExperimentSamples.sample_world ExperimentSamples.experiment_2
           sample_node_fail_contract sample_node_fail_keeps_network
           sample_world_unique_node_ids).
  - exists ExperimentSamples.alice_node_2. simpl. auto.
  - reflexivity.
Defined.

(** X11.  Each of the five failure handlers ([data_check_failed],
    [attention_check_failed], [assignment_abandoned],
    [assignment_returned], [assignment_reassigned]), like
    [fail_participant] itself, returns normally and touches nothing but
    the nodes of its participant that had not failed: the networks and
    the number of nodes are unchanged, every node of another participant
    and every node that had already failed is found again as it was, and
    a node that has not failed afterwards is a row that was there
    before. *)
Theorem failure_handlers_touch_only_the_live_nodes env handler p w :
  node_fail_contract env -> unique_node_ids w ->
  In handler (fail_participant env :: ExperimentHandlers.failure_handlers env) ->
  fst (handler p w) = Ok tt
  /\ network_table (snd (handler p w)) = network_table w
  /\ List.length (node_table (snd (handler p w))) = List.length (node_table w)
  /\ (forall n, In n (node_table w) ->
        Node.participant_id n <> Participant.id p \/ Node.failed n = true ->
        In n (node_table (snd (handler p w))))
  /\ (forall n, In n (node_table (snd (handler p w))) ->
        Node.failed n = false -> In n (node_table w)).
Proof.
  intros contract Hnd Hh.
  assert (handler p w = fail_participant env p w) as ->.
  { simpl in Hh. destruct Hh as [<-|[<-|[<-|[<-|[<-|[<-|[]]]]]]]; reflexivity. }
  rewrite (fail_participant_rows env p w contract Hnd). cbn [fst snd network_table node_table].
  split; [reflexivity|]. split; [reflexivity|]. split; [apply length_map|].
  split.
  - intros n Hn Hcase. apply in_map_iff. exists n. split; [|exact Hn].
    unfold fail_row. destruct Hcase as [Hp|Hf].
    + apply Z.eqb_neq in Hp. now rewrite Hp.
    + rewrite Hf. now rewrite andb_false_r.
  - intros n Hn Hf. apply in_map_iff in Hn. destruct Hn as (r & Hr & Hin).
    unfold fail_row in Hr.
    destruct ((Node.participant_id r =? Participant.id p)
              && Bool.eqb (Node.failed r) false)%bool eqn:E; [|now subst].
    apply andb_true_iff in E. destruct E as [_ E].
    assert (Node.failed r = false) as Hrf by (now destruct (Node.failed r)).
    destruct (contract r Hrf) as (r' & Hr' & Hf' & _). rewrite Hr' in Hr.
    subst. congruence.
Qed.

Lemma failure_handlers_touch_only_the_live_nodes_witness :
  node_table (snd (ExperimentHandlers.assignment_returned
                     ExperimentSamples.sample_env ExperimentSamples.alice
                     ExperimentSamples.sample_world))
  = [ExperimentSamples.alice_node_1; Node.Build 2 7 2 true]
  /\ In ExperimentSamples.alice_node_1
       (node_table (snd (ExperimentHandlers.assignment_returned
                           ExperimentSamples.sample_env ExperimentSamples.alice
                           ExperimentSamples.sample_world))).
Proof.
  split; [reflexivity|].
  destruct (failure_handlers_touch_only_the_live_nodes
              ExperimentSamples.sample_env
              (ExperimentHandlers.assignment_returned ExperimentSamples.sample_env)
              ExperimentSamples.alice ExperimentSamples.sample_world
              sample_node_fail_contract sample_world_unique_node_ids)
    as (_ & _ & _ & Hkept & _).
  - simpl. tauto.
  - apply Hkept; [simpl; tauto | now right].
Defined.

(** X12.  Failing two participants gives the same node table in either
    order. *)
Theorem failing_two_participants_commutes env p q w :
  node_fail_contract env -> unique_node_ids w ->
  fst (fail_participant env q (snd (fail_participant env p w))) = Ok tt
  /\ fst (fail_participant env p (snd (fail_participant env q w))) = Ok tt
  /\ node_table (snd (fail_participant env q (snd (fail_participant env p w))))
     = node_table (snd (fail_participant env p (snd (fail_participant env q w)))).
Proof.
  intros contract Hnd.
  assert (forall a, unique_node_ids (snd (fail_participant env a w))) as Hnd'.
  { intros a. rewrite (fail_participant_rows env a w contract Hnd).
    unfold unique_node_ids in *. cbn [snd node_table]. rewrite map_map.
    erewrite map_ext; [exact Hnd|].
    intros r. now apply fail_row_id. }
  rewrite (fail_participant_rows env q _ contract (Hnd' p)).
  rewrite (fail_participant_rows env p _ contract (Hnd' q)).
  rewrite (fail_participant_rows env p w contract Hnd).
  rewrite (fail_participant_rows env q w contract Hnd).
  cbn [fst snd node_table]. split; [reflexivity|]. split; [reflexivity|].
  rewrite !map_map. apply map_ext. intros r. now apply fail_row_commutes.
Qed.

Lemma failing_two_participants_commutes_witness :
  node_table (snd (fail_participant ExperimentSamples.sample_env ExperimentSamples.bob
                     (snd (fail_participant ExperimentSamples.sample_env
                             ExperimentSamples.alice ExperimentSamples.sample_world))))
  = node_table (snd (fail_participant ExperimentSamples.sample_env ExperimentSamples.alice
                       (snd (fail_participant ExperimentSamples.sample_env
                               ExperimentSamples.bob ExperimentSamples.sample_world)))).
Proof.
  apply (failing_two_participants_commutes ExperimentSamples.sample_env
           ExperimentSamples.alice ExperimentSamples.bob
           ExperimentSamples.sample_world
           sample_node_fail_contract sample_world_unique_node_ids).
Defined.

End FailureCoverage.

Module NetworksCoverage.
Import Experiment ExperimentVocabulary.

Lemma filter_and_split {A : Type} (g f : A -> bool) (l : list A) :
  Permutation
    (filter (fun x => (g x && f x)%bool) l
     ++ filter (fun x => (g x && negb (f x))%bool) l)
    (filter g l).
Proof.
  induction l as [|x l IH]; simpl; [constructor|].
  destruct (g x), (f x); simpl.
  - now apply perm_skip.
  - eapply Permutation_trans; [apply Permutation_sym, Permutation_middle|].
    now apply perm_skip.
  - exact IH.
  - exact IH.
Qed.

(** X13.  For every [role] argument, [networks(role, full=True)] and
    [networks(role, full=False)] split [networks(role)]: each network of
    that role is in exactly one of the two lists, by its [full] flag, and
    the calls neither raise nor change anything. *)
Theorem networks_splits_by_full role w :
  exists every full_ones open_ones,
    networks role None w = (Ok every, w)
    /\ networks role (Some true) w = (Ok full_ones, w)
    /\ networks role (Some false) w = (Ok open_ones, w)
    /\ Permutation (full_ones ++ open_ones) every
    /\ (forall n, In n every <->
          In n (network_table w)
          /\ match role with Some r => Network.role n = r | None => True end)
    /\ (forall n, In n full_ones <-> In n every /\ Network.full n = true)
    /\ (forall n, In n open_ones <-> In n every /\ Network.full n = false).
Proof.
  set (g := fun n : Network.t =>
              match role with
              | Some r => String.eqb (Network.role n) r
              | None => true
              end).
  exists (filter g (network_table w)),
         (filter (fun n => (g n && Network.full n)%bool) (network_table w)),
         (filter (fun n => (g n && negb (Network.full n))%bool) (network_table w)).
  split; [|split; [|split; [|split; [|split; [|split]]]]].
  - unfold networks, read, g. destruct role as [r|]; [reflexivity|].
    f_equal. f_equal. induction (network_table w) as [|x l IH]; simpl; congruence.
  - unfold networks, read, g. destruct role as [r|]; f_equal; f_equal;
      apply filter_ext; intros n; now destruct (Network.full n).
  - unfold networks, read, g. destruct role as [r|]; f_equal; f_equal;
      apply filter_ext; intros n; now destruct (Network.full n).
  - apply filter_and_split.
  - intros n. rewrite filter_In. unfold g. destruct role as [r|].
    + now rewrite String.eqb_eq.
    + tauto.
  - intros n. rewrite !filter_In, andb_true_iff. tauto.
  - intros n. rewrite !filter_In, andb_true_iff, negb_true_iff. tauto.
Qed.

End NetworksCoverage.

Module CompletionCoverage.
Import Experiment ExperimentVocabulary.

(** X14.  [experiment_completed] answers [False] when the request, or
    the decoding of its body, raises [RequestException] or [ValueError]
    (the error is logged), and also when the status document has no
    [completed] entry; any other exception of the request is raised to the
    caller. *)
Theorem experiment_completed_error_handling env self w :
  (forall e, requests_json env (requests_made w) "/summary" = Raise e ->
     (e = ValueError \/ e = RequestException ->
      experiment_completed env self w =
        (Ok (PyBool false),
         Build_world (network_table w) (node_table w) (random_pos w)
           (S (requests_made w))
           (trace w ++ [Requests_get "/summary"; Logger_exception; Logger_debug []])))
     /\ (e <> ValueError -> e <> RequestException ->
         experiment_completed env self w =
           (Raise e,
            Build_world (network_table w) (node_table w) (random_pos w)
              (S (requests_made w)) (trace w ++ [Requests_get "/summary"]))))
  /\ (forall data,
        requests_json env (requests_made w) "/summary" = Ok data ->
        dict_get data "completed" = None ->
        experiment_completed env self w =
          (Ok (PyBool false),
           Build_world (network_table w) (node_table w) (random_pos w)
             (S (requests_made w))
             (trace w ++ [Requests_get "/summary"; Logger_debug data]))).
Proof.
  split.
  - intros e He. split.
    + intros Hcaught.
      unfold experiment_completed, bind, try_except, requests_get_json.
      rewrite CompletionProps.status_url_ignores_the_application, He.
      assert ((exn_eqb e ValueError || exn_eqb e RequestException)%bool = true) as ->
        by (destruct Hcaught as [-> | ->]; reflexivity).
      unfold emit, ret, bind. simpl. rewrite <- !app_assoc. reflexivity.
    + intros Hv Hr.
      unfold experiment_completed, bind, try_except, requests_get_json.
      rewrite CompletionProps.status_url_ignores_the_application, He.
      assert ((exn_eqb e ValueError || exn_eqb e RequestException)%bool = false) as ->
        by (destruct e; try reflexivity; congruence).
      reflexivity.
  - intros data Hdata Hkey.
    unfold experiment_completed, bind, try_except, requests_get_json.
    rewrite CompletionProps.status_url_ignores_the_application, Hdata.
    unfold emit, ret, dict_get_default. rewrite Hkey. simpl.
    rewrite <- !app_assoc. reflexivity.
Qed.

Lemma experiment_completed_error_handling_witness :
  fst (experiment_completed ExperimentSamples.sample_env
         ExperimentSamples.sample_self ExperimentSamples.sample_world)
  = Ok (PyBool false).
Proof.
  destruct (experiment_completed_error_handling ExperimentSamples.sample_env
              ExperimentSamples.sample_self ExperimentSamples.sample_world)
    as [Hraise _].
  destruct (Hraise RequestException eq_refl) as [Hcaught _].
  rewrite Hcaught; [reflexivity | now right].
Defined.

(** X16.  In debug mode [_finish_experiment] makes no status request,
    does not sleep and does not destroy anything: whatever the fuel, it
    exports the data from the local database and returns the file. *)
Theorem finish_experiment_in_debug_mode_only_exports env self fuel w :
  dict_get (exp_config self) "mode" = Some "debug" ->
  _finish_experiment env self fuel w =
    (Ok (Some (export_filename env (app_id self) true)),
     with_events
       [Data_export (app_id self) true;
        Logger_debug_exported (export_filename env (app_id self) true)] w)
  /\ requests_made (snd (_finish_experiment env self fuel w)) = requests_made w.
Proof.
  intros Hmode.
  rewrite (CompletionProps.finish_experiment_debug env self fuel w Hmode).
  split; reflexivity.
Qed.

Lemma finish_experiment_in_debug_mode_only_exports_witness :
  _finish_experiment ExperimentSamples.sample_env CompletionSamples.debug_self 0
    ExperimentSamples.sample_world =
    (Ok (Some "5f3a-data.zip"),
     with_events [Data_export "5f3a" true; Logger_debug_exported "5f3a-data.zip"]
       ExperimentSamples.sample_world).
Proof.
  apply (finish_experiment_in_debug_mode_only_exports ExperimentSamples.sample_env
           CompletionSamples.debug_self 0 ExperimentSamples.sample_world).
  reflexivity.
Defined.

End CompletionCoverage.

(* ================================================================== *)
(** * Part V.  Set-up, summary, launch and loading                     *)
(* ================================================================== *)

(** ** The order on strings *)

Lemma ascii_compare_lt_trans (a b c : ascii) :
  Ascii.compare a b = Lt -> Ascii.compare b c = Lt -> Ascii.compare a c = Lt.
Proof.
  unfold Ascii.compare. rewrite !N.compare_lt_iff. apply N.lt_trans.
Qed.

Lemma string_compare_lt_trans (s1 : string) :
  forall s2 s3,
    String.compare s1 s2 = Lt -> String.compare s2 s3 = Lt ->
    String.compare s1 s3 = Lt.
Proof.
  induction s1 as [|c1 s1 IH]; intros [|c2 s2] [|c3 s3]; simpl;
    try discriminate; try reflexivity.
  destruct (Ascii.compare c1 c2) eqn:E12; try discriminate;
    destruct (Ascii.compare c2 c3) eqn:E23; try discriminate; intros H1 H2.
  - apply Ascii.compare_eq_iff in E12, E23. subst.
    assert (Ascii.compare c3 c3 = Eq) as ->
      by (unfold Ascii.compare; apply N.compare_refl).
    now apply (IH s2 s3).
  - apply Ascii.compare_eq_iff in E12. subst. now rewrite E23.
  - apply Ascii.compare_eq_iff in E23. subst. now rewrite E12.
  - now rewrite (ascii_compare_lt_trans c1 c2 c3 E12 E23).
Qed.

Lemma string_leb_total (a b : string) :
  String.leb a b = false -> String.leb b a = true.
Proof.
  intros H. destruct (String.leb_total a b) as [H'|H']; congruence.
Qed.

Lemma string_leb_trans (a b c : string) :
  String.leb a b = true -> String.leb b c = true -> String.leb a c = true.
Proof.
  unfold String.leb.
  destruct (String.compare a b) eqn:Eab; try discriminate;
    destruct (String.compare b c) eqn:Ebc; try discriminate; intros _ _.
  - apply String.compare_eq_iff in Eab, Ebc. subst.
    destruct (String.compare c c) eqn:E; try reflexivity.
    pose proof (String.compare_antisym c c) as Ha. rewrite E in Ha. discriminate.
  - apply String.compare_eq_iff in Eab. subst. now rewrite Ebc.
  - apply String.compare_eq_iff in Ebc. subst. now rewrite Eab.
  - now rewrite (string_compare_lt_trans a b c Eab Ebc).
Qed.

(** ** [log_summary] *)

Module SummaryCoverage.
Import PyMore Lifecycle LifecycleVocabulary.

Lemma dict_get_counter_add (k s : string) (c : dict nat) :
  dict_get (counter_add k c) s =
  if String.eqb s k
  then Some (S (match dict_get c k with Some m => m | None => 0%nat end))
  else dict_get c s.
Proof.
  induction c as [|[k' n] c IH]; simpl.
  - reflexivity.
  - destruct (String.eqb k k') eqn:Ekk'.
    + apply String.eqb_eq in Ekk'. subst k'. simpl.
      now destruct (String.eqb s k).
    + simpl. rewrite IH.
      destruct (String.eqb s k') eqn:Esk'; [|reflexivity].
      apply String.eqb_eq in Esk'. subst k'.
      rewrite String.eqb_sym in Ekk'. now rewrite Ekk'.
Qed.

Lemma counter_add_keys (k : string) (c : dict nat) :
  map fst (counter_add k c)
  = if existsb (String.eqb k) (map fst c) then map fst c
    else (map fst c ++ [k])%list.
Proof.
  induction c as [|[k' n] c IH]; simpl; [reflexivity|].
  destruct (String.eqb k k'); simpl; [reflexivity|].
  rewrite IH. now destruct (existsb (String.eqb k) (map fst c)).
Qed.

Lemma counter_add_NoDup (k : string) (c : dict nat) :
  NoDup (map fst c) -> NoDup (map fst (counter_add k c)).
Proof.
  intros Hnd. rewrite counter_add_keys.
  destruct (existsb (String.eqb k) (map fst c)) eqn:E; [exact Hnd|].
  apply NoDup_app; [exact Hnd | repeat constructor; intros [] |].
  intros x Hx [Heq|[]]. subst x.
  assert (existsb (String.eqb k) (map fst c) = true); [|congruence].
  apply existsb_exists. exists k. split; [exact Hx | apply String.eqb_refl].
Qed.

Lemma counter_add_sum (k : string) (c : dict nat) :
  list_sum (map snd (counter_add k c)) = S (list_sum (map snd c)).
Proof.
  induction c as [|[k' n] c IH]; simpl; [reflexivity|].
  destruct (String.eqb k k'); simpl; [reflexivity|]. rewrite IH. lia.
Qed.

Lemma occurrences_snoc (s k : string) (l : list string) :
  occurrences s (l ++ [k])
  = (occurrences s l + if String.eqb s k then 1 else 0)%nat.
Proof.
  unfold occurrences. rewrite filter_app, length_app. simpl.
  now destruct (String.eqb s k).
Qed.

(** What the dict of a [Counter] holds for the elements counted so far. *)
Lemma Counter_fold (l2 : list string) :
  forall (l1 : list string) (c : dict nat),
    NoDup (map fst c) ->
    (forall s, dict_get c s
               = if Nat.eqb (occurrences s l1) 0 then None
                 else Some (occurrences s l1)) ->
    list_sum (map snd c) = List.length l1 ->
    let c' := fold_left (fun c k => counter_add k c) l2 c in
    NoDup (map fst c')
    /\ (forall s, dict_get c' s
                  = if Nat.eqb (occurrences s (l1 ++ l2)) 0 then None
                    else Some (occurrences s (l1 ++ l2)))
    /\ list_sum (map snd c') = List.length (l1 ++ l2).
Proof.
  induction l2 as [|k l2 IH]; intros l1 c Hnd Hget Hsum; cbv zeta.
  - simpl. rewrite app_nil_r. auto.
  - simpl fold_left.
    replace (l1 ++ k :: l2)%list with ((l1 ++ [k]) ++ l2)%list
      by (now rewrite <- app_assoc).
    apply IH.
    + now apply counter_add_NoDup.
    + intros s. rewrite dict_get_counter_add, occurrences_snoc.
      destruct (String.eqb s k) eqn:E.
      * apply String.eqb_eq in E. subst s. rewrite Hget.
        destruct (occurrences k l1) as [|m]; simpl.
        -- reflexivity.
        -- rewrite Nat.add_1_r. reflexivity.
      * rewrite Nat.add_0_r. apply Hget.
    + rewrite counter_add_sum, Hsum, length_app. simpl. lia.
Qed.

Lemma In_dict_get {V : Type} (c : dict V) (s : string) (v : V) :
  NoDup (map fst c) -> (In (s, v) c <-> dict_get c s = Some v).
Proof.
  induction c as [|[k' v'] c IH]; simpl; intros Hnd.
  - split; [contradiction | discriminate].
  - inversion Hnd as [|? ? Hnotin Hnd']; subst.
    destruct (String.eqb s k') eqn:E.
    + apply String.eqb_eq in E. subst k'. split.
      * intros [[= ->]|Hin]; [reflexivity|].
        exfalso. apply Hnotin. apply in_map_iff. now exists (s, v).
      * intros [= ->]. now left.
    + apply String.eqb_neq in E. rewrite <- (IH Hnd'). split.
      * intros [[= -> ->]|Hin]; [congruence | exact Hin].
      * intros Hin. now right.
Qed.

Lemma sorted_without_duplicates (l : list (string * nat)) :
  StronglySorted (fun a b => String.leb (fst a) (fst b) = true) l ->
  NoDup (map fst l) ->
  StronglySorted (fun a b => String.ltb (fst a) (fst b) = true) l.
Proof.
  induction 1 as [|x l Hs IH Hx]; intros Hnd; [constructor|].
  simpl in Hnd. inversion Hnd as [|? ? Hnotin Hnd']; subst.
  constructor; [now apply IH|].
  rewrite Forall_forall in *. intros y Hy.
  specialize (Hx y Hy). unfold String.leb in Hx. unfold String.ltb.
  destruct (String.compare (fst x) (fst y)) eqn:E; try discriminate; [|reflexivity].
  exfalso. apply Hnotin. apply String.compare_eq_iff in E. rewrite E.
  now apply in_map.
Qed.

Lemma log_summary_result self w :
  log_summary self w =
    (Ok (sort_by_key String.leb fst
           (Counter (map Participant.status (participant_table w)))),
     if Experiment.verbose self
     then with_events
            [Stdout_status_summary
               (sort_by_key String.leb fst
                  (Counter (map Participant.status (participant_table w))))] w
     else w).
Proof.
  unfold log_summary, bind, read, emit, ret, with_events.
  now destruct (Experiment.verbose self).
Qed.

(** X17.  [log_summary] returns one pair for each status that occurs
    among the participants, with the number of participants that have
    it, and nothing else: no status is listed twice or with a count of 0,
    and the counts add up to the number of participants. *)
Theorem log_summary_counts_every_status self w :
  exists sorted_counts,
    fst (log_summary self w) = Ok sorted_counts
    /\ (forall s n,
          In (s, n) sorted_counts <->
          n = occurrences s (map Participant.status (participant_table w))
          /\ (0 < n)%nat)
    /\ NoDup (map fst sorted_counts)
    /\ list_sum (map snd sorted_counts) = List.length (participant_table w).
Proof.
  rewrite log_summary_result. cbn [fst]. eexists. split; [reflexivity|].
  set (statuses := map Participant.status (participant_table w)).
  destruct (Counter_fold statuses [] [] (NoDup_nil _)
              (fun s => eq_refl) eq_refl) as (Hnd & Hget & Hsum).
  cbn [app] in Hget, Hsum. fold (Counter statuses) in Hnd, Hget, Hsum.
  pose proof (sort_by_key_perm String.leb (@fst string nat) (Counter statuses))
    as Hperm.
  assert (NoDup (map fst (sort_by_key String.leb fst (Counter statuses)))) as Hnd'.
  { eapply Permutation_NoDup; [|exact Hnd].
    apply Permutation_map, Permutation_sym, Hperm. }
  split; [|split].
  - intros s n. rewrite sort_by_key_In, (In_dict_get _ _ _ Hnd), Hget.
    destruct (occurrences s statuses) as [|m] eqn:E; simpl.
    + split; [discriminate | intros [-> H]; lia].
    + split; [intros [= <-]; split; [reflexivity | lia] | intros [-> _]; reflexivity].
  - exact Hnd'.
  - rewrite (Permutation_list_sum (Permutation_map snd Hperm)), Hsum.
    unfold statuses. apply length_map.
Qed.

(** X18.  The summary is in ascending order of the status strings, so it
    does not depend on the order in which the dict lists its items; when
    the experiment is verbose the list logged is the list returned; and
    the call changes nothing else. *)
Theorem log_summary_is_sorted_by_status self w :
  exists sorted_counts,
    fst (log_summary self w) = Ok sorted_counts
    /\ StronglySorted (fun a b => String.ltb (fst a) (fst b) = true) sorted_counts
    /\ snd (log_summary self w)
       = (if Experiment.verbose self
          then with_events [Stdout_status_summary sorted_counts] w
          else w).
Proof.
  rewrite log_summary_result. cbn [fst snd]. eexists.
  split; [reflexivity|]. split; [|reflexivity].
  set (statuses := map Participant.status (participant_table w)).
  destruct (Counter_fold statuses [] [] (NoDup_nil _)
              (fun s => eq_refl) eq_refl) as (Hnd & _ & _).
  cbn [app] in Hnd. fold (Counter statuses) in Hnd.
  pose proof (sort_by_key_perm String.leb (@fst string nat) (Counter statuses))
    as Hperm.
  assert (NoDup (map fst (sort_by_key String.leb fst (Counter statuses)))) as Hnd'.
  { eapply Permutation_NoDup; [|exact Hnd].
    apply Permutation_map, Permutation_sym, Hperm. }
  pose proof (sort_by_key_sorted String.leb (@fst string nat)
                string_leb_total string_leb_trans (Counter statuses)) as Hsorted.
  now apply sorted_without_duplicates.
Qed.

Example summary_of_four_participants :
  fst (log_summary ExperimentSamples.sample_self LifecycleSamples.four_participants)
  = Ok [("approved", 1%nat); ("bad_data", 1%nat); ("working", 2%nat)].
Proof. reflexivity. Qed.

End SummaryCoverage.

(** ** [setup] *)

Module SetupCoverage.
Import PyMore Lifecycle LifecycleVocabulary.

Lemma lift_networks_all w :
  lift (Experiment.networks None None) w = (Ok (network_table w), w).
Proof.
  unfold lift, Experiment.networks, Experiment.read, inner. simpl.
  rewrite app_nil_r. now destruct w.
Qed.

(** A loop of [setup]. *)
Lemma add_network_rounds ext role n :
  forall w,
  exists rows,
    repeat_times n (add_network ext role) w
    = (Ok tt,
       with_events (map Session_add rows)
         (with_networks (network_table w ++ rows) w))
    /\ List.length rows = n
    /\ Forall (created_with ext role) rows.
Proof.
  induction n as [|n IH]; intros w.
  - exists []. simpl. unfold ret, with_events, with_networks. simpl.
    rewrite !app_nil_r. split; [now destruct w|]. split; [reflexivity | constructor].
  - cbn [repeat_times]. unfold bind. unfold add_network at 1.
    match goal with
    | |- context [repeat_times n _ ?w1] => destruct (IH w1) as (rows & Hrun & Hlen & Hall)
    end.
    exists (set_role role (create_network ext (network_table w)) :: rows).
    rewrite Hrun. unfold with_events, with_networks. simpl.
    rewrite <- !app_assoc. simpl.
    split; [reflexivity|]. split; [now rewrite Hlen|].
    constructor; [now eexists | exact Hall].
Qed.

Lemma created_with_role ext role rows :
  Forall (created_with ext role) rows ->
  map Network.role rows = repeat role (List.length rows).
Proof.
  induction 1 as [|n rows (rows0 & ->) Hall IH]; simpl; [reflexivity|].
  now rewrite IH.
Qed.

(** [setup] on an empty network table. *)
Lemma setup_on_empty_table ext self w :
  network_table w = [] ->
  exists practice experiment,
    setup ext self w =
      (Ok tt,
       with_events (map Session_add (practice ++ experiment) ++ [Session_commit])
         (with_networks (practice ++ experiment) w))
    /\ List.length practice = Z.to_nat (Experiment.practice_repeats self)
    /\ List.length experiment = Z.to_nat (Experiment.experiment_repeats self)
    /\ Forall (created_with ext "practice") practice
    /\ Forall (created_with ext "experiment") experiment.
Proof.
  intros Hempty. unfold setup. unfold bind at 1.
  rewrite lift_networks_all, Hempty.
  unfold bind at 1.
  destruct (add_network_rounds ext "practice"
              (Z.to_nat (Experiment.practice_repeats self)) w)
    as (practice & Hp & Hplen & Hpall).
  rewrite Hp. unfold bind at 1.
  match goal with
  | |- context [repeat_times _ (add_network ext "experiment") ?w1] =>
      destruct (add_network_rounds ext "experiment"
                  (Z.to_nat (Experiment.experiment_repeats self)) w1)
        as (experiment & He & Helen & Heall)
  end.
  rewrite He. exists practice, experiment.
  unfold emit, with_events, with_networks. simpl. rewrite Hempty. simpl.
  rewrite map_app, <- !app_assoc.
  split; [reflexivity|]. auto.
Qed.

(** X19.  On an empty network table [setup] adds [practice_repeats]
    networks with the role ["practice"] and then [experiment_repeats]
    networks with the role ["experiment"], each as [create_network]
    returns it (a negative count adds none), and commits once, after the
    last one. *)
Theorem setup_creates_practice_then_experiment_networks ext self w :
  network_table w = [] ->
  exists created,
    setup ext self w =
      (Ok tt,
       with_events (map Session_add created ++ [Session_commit])
         (with_networks created w))
    /\ map Network.role created
       = (repeat "practice" (Z.to_nat (Experiment.practice_repeats self))
          ++ repeat "experiment" (Z.to_nat (Experiment.experiment_repeats self)))%list
    /\ Forall (fun n => exists role, created_with ext role n) created.
Proof.
  intros Hempty.
  destruct (setup_on_empty_table ext self w Hempty)
    as (practice & experiment & Hrun & Hplen & Helen & Hpall & Heall).
  exists (practice ++ experiment)%list. split; [exact Hrun|]. split.
  - rewrite map_app, (created_with_role ext _ _ Hpall),
      (created_with_role ext _ _ Heall), Hplen, Helen. reflexivity.
  - apply Forall_app. split.
    + eapply Forall_impl; [|exact Hpall]. intros n Hn. now exists "practice".
    + eapply Forall_impl; [|exact Heall]. intros n Hn. now exists "experiment".
Qed.

Lemma setup_creates_practice_then_experiment_networks_witness :
  network_table (snd (setup LifecycleSamples.sample_ext ExperimentSamples.sample_self
                        LifecycleSamples.empty_world))
  = [Network.Build 1 "practice" false; Network.Build 2 "practice" false;
     Network.Build 3 "experiment" false; Network.Build 4 "experiment" false]
  /\ exists created,
       setup LifecycleSamples.sample_ext ExperimentSamples.sample_self
         LifecycleSamples.empty_world =
         (Ok tt,
          with_events (map Session_add created ++ [Session_commit])
            (with_networks created LifecycleSamples.empty_world))
       /\ map Network.role created
          = (repeat "practice"
               (Z.to_nat (Experiment.practice_repeats ExperimentSamples.sample_self))
             ++ repeat "experiment"
                  (Z.to_nat (Experiment.experiment_repeats
                               ExperimentSamples.sample_self)))%list
       /\ Forall (fun n => exists role, created_with LifecycleSamples.sample_ext role n)
            created.
Proof.
  split; [reflexivity|].
  apply (setup_creates_practice_then_experiment_networks
           LifecycleSamples.sample_ext ExperimentSamples.sample_self
           LifecycleSamples.empty_world).
  reflexivity.
Defined.

Lemma setup_with_networks ext self w :
  network_table w <> [] -> setup ext self w = (Ok tt, w).
Proof.
  intros Hne. unfold setup. unfold bind at 1. rewrite lift_networks_all.
  destruct (network_table w); [congruence | reflexivity].
Qed.

(** X20.  [setup] creates the networks once: when the table holds a
    network it does nothing at all, whatever the repeat counts are, so a
    second call after one that created a network changes nothing.  With
    both counts at 0 or below no network is ever created, and every call
    commits. *)
Theorem setup_creates_the_networks_once ext self w :
  (network_table w <> [] -> setup ext self w = (Ok tt, w))
  /\ (0 < Experiment.practice_repeats self \/ 0 < Experiment.experiment_repeats self ->
      setup ext self (snd (setup ext self w)) = (Ok tt, snd (setup ext self w)))
  /\ (Experiment.practice_repeats self <= 0 ->
      Experiment.experiment_repeats self <= 0 ->
      network_table w = [] ->
      setup ext self w = (Ok tt, with_events [Session_commit] w)).
Proof.
  split; [apply setup_with_networks|]. split.
  - intros Hsome. apply setup_with_networks.
    destruct (network_table w) as [|n rows] eqn:Et.
    + destruct (setup_on_empty_table ext self w Et)
        as (practice & experiment & Hrun & Hplen & Helen & _).
      rewrite Hrun. cbn [snd]. unfold with_events, with_networks.
      cbn [network_table]. intros Hnil.
      apply (f_equal (@List.length _)) in Hnil.
      rewrite length_app, Hplen, Helen in Hnil. simpl in Hnil. lia.
    + rewrite setup_with_networks by (rewrite Et; discriminate).
      cbn [snd]. rewrite Et. discriminate.
  - intros Hp He Hempty.
    destruct (setup_on_empty_table ext self w Hempty)
      as (practice & experiment & Hrun & Hplen & Helen & _).
    rewrite Hrun.
    assert (practice = []) as ->
      by (apply length_zero_iff_nil; rewrite Hplen; lia).
    assert (experiment = []) as ->
      by (apply length_zero_iff_nil; rewrite Helen; lia).
    unfold with_events, with_networks. simpl. rewrite <- Hempty. reflexivity.
Qed.

Lemma setup_creates_the_networks_once_witness :
  setup LifecycleSamples.sample_ext ExperimentSamples.sample_self
    (snd (setup LifecycleSamples.sample_ext ExperimentSamples.sample_self
            LifecycleSamples.empty_world))
  = (Ok tt,
     snd (setup LifecycleSamples.sample_ext ExperimentSamples.sample_self
            LifecycleSamples.empty_world)).
Proof.
  apply (setup_creates_the_networks_once LifecycleSamples.sample_ext
           ExperimentSamples.sample_self LifecycleSamples.empty_world).
  left. reflexivity.
Defined.

Lemma created_with_full ext role n :
  (forall rows, Network.full (create_network ext rows) = false) ->
  created_with ext role n -> Network.full n = false /\ Network.role n = role.
Proof. intros Hfull (rows & ->). simpl. now split. Qed.

(** X21.  After [setup] on an empty table, with [create_network] giving
    networks that are not full, a participant without a node is sent to a
    practice network if [practice_repeats] is positive, to an experiment
    network if only [experiment_repeats] is, and gets [None] if neither
    is. *)
Theorem first_allocation_after_setup env ext self p w :
  network_table w = [] ->
  (forall n, In n (node_table w) -> Node.participant_id n <> Participant.id p) ->
  (forall rows, Network.full (create_network ext rows) = false) ->
  (0 < Experiment.practice_repeats self ->
   exists net,
     fst (Experiment.get_network_for_participant env self p
            (inner (snd (setup ext self w)))) = Ok (Some net)
     /\ Network.role net = "practice")
  /\ (Experiment.practice_repeats self <= 0 ->
      0 < Experiment.experiment_repeats self ->
      exists net,
        fst (Experiment.get_network_for_participant env self p
               (inner (snd (setup ext self w)))) = Ok (Some net)
        /\ Network.role net = "experiment")
  /\ (Experiment.practice_repeats self <= 0 ->
      Experiment.experiment_repeats self <= 0 ->
      fst (Experiment.get_network_for_participant env self p
             (inner (snd (setup ext self w)))) = Ok None).
Proof.
  intros Hempty Hnodes Hfull.
  destruct (setup_on_empty_table ext self w Hempty)
    as (practice & experiment & Hrun & Hplen & Helen & Hpall & Heall).
  rewrite Hrun. cbn [snd].
  set (w1 := inner (with_events
                      (map Session_add (practice ++ experiment) ++ [Session_commit])
                      (with_networks (practice ++ experiment) w))).
  assert (forall net, In net (ExperimentVocabulary.legal_networks w1 p)
                      <-> In net (practice ++ experiment)%list) as Hlegal.
  { intros net. rewrite AllocatorProps.legal_networks_spec.
    unfold ExperimentVocabulary.eligible, ExperimentVocabulary.has_node.
    subst w1. cbn [inner with_events with_networks Experiment.network_table
                   Experiment.node_table network_table node_table].
    split; [tauto|]. intros Hin. split; [exact Hin|]. split.
    - rewrite Forall_forall in Hpall, Heall.
      apply in_app_or in Hin. destruct Hin as [Hin|Hin].
      + now destruct (created_with_full ext _ net Hfull (Hpall net Hin)).
      + now destruct (created_with_full ext _ net Hfull (Heall net Hin)).
    - intros (n & Hn & Hp & _). now apply (Hnodes n Hn). }
  pose proof (AllocatorProps.get_network_for_participant_with_eligible self
                (Experiment.choose_network env) p w1
                (fun networks w0 =>
                   AllocatorProps.choose_network_picks env networks p w0)) as Hres.
  fold (Experiment.get_network_for_participant env self p w1) in Hres.
  split; [|split].
  - intros Hpos.
    destruct practice as [|n0 practice']; [simpl in Hplen; lia|].
    inversion Hpall as [|? ? Hn0 _]; subst.
    destruct (created_with_full ext _ n0 Hfull Hn0) as [_ Hrole0].
    assert (In n0 (filter (fun net => String.eqb (Network.role net) "practice")
                     (ExperimentVocabulary.legal_networks w1 p))) as Hin0.
    { apply filter_In. split; [apply Hlegal; now left | now rewrite Hrole0]. }
    unfold Experiment.get_network_for_participant.
    rewrite AllocatorProps.get_network_for_participant_with_unfold.
    destruct (ExperimentVocabulary.legal_networks w1 p) as [|first others];
      [contradiction|].
    cbv zeta.
    destruct (filter _ (first :: others)) as [|chosen rest] eqn:Ef; [contradiction|].
    exists chosen. split; [reflexivity|].
    assert (In chosen (filter (fun net => String.eqb (Network.role net) "practice")
                         (first :: others))) as Hc by (rewrite Ef; now left).
    apply filter_In in Hc. now apply String.eqb_eq.
  - intros Hp He.
    assert (practice = []) as ->
      by (apply length_zero_iff_nil; rewrite Hplen; lia).
    destruct experiment as [|n0 experiment']; [simpl in Helen; lia|].
    destruct (fst (Experiment.get_network_for_participant env self p w1))
      as [[net|]|e]; [| |contradiction].
    + exists net. split; [reflexivity|].
      apply Hlegal in Hres. rewrite Forall_forall in Heall.
      now destruct (created_with_full ext _ net Hfull (Heall net Hres)).
    + exfalso.
      assert (In n0 (ExperimentVocabulary.legal_networks w1 p)) as Hin
        by (apply Hlegal; now left).
      now rewrite Hres in Hin.
  - intros Hp He.
    assert (practice = []) as ->
      by (apply length_zero_iff_nil; rewrite Hplen; lia).
    assert (experiment = []) as ->
      by (apply length_zero_iff_nil; rewrite Helen; lia).
    destruct (fst (Experiment.get_network_for_participant env self p w1))
      as [[net|]|e]; [|reflexivity|contradiction].
    exfalso. apply Hlegal in Hres. contradiction.
Qed.

Lemma first_allocation_after_setup_witness :
  exists net,
    fst (Experiment.get_network_for_participant ExperimentSamples.sample_env
           ExperimentSamples.sample_self ExperimentSamples.bob
           (inner (snd (setup LifecycleSamples.sample_ext
                          ExperimentSamples.sample_self
                          LifecycleSamples.empty_world)))) = Ok (Some net)
    /\ Network.role net = "practice".
Proof.
  apply (first_allocation_after_setup ExperimentSamples.sample_env
           LifecycleSamples.sample_ext ExperimentSamples.sample_self
           ExperimentSamples.bob LifecycleSamples.empty_world).
  - reflexivity.
  - intros n [].
  - intros rows. reflexivity.
  - reflexivity.
Defined.

End SetupCoverage.

(** ** [run], [collect] and the working-directory wrapper *)

Module LaunchCoverage.
Import PyMore Lifecycle LifecycleVocabulary.

Lemma exp_class_working_dir_unfold ext (A : Type) (meth : M world A) w :
  exp_class_working_dir ext meth w
  = (fst (meth (entered ext w)), left (cwd w) (snd (meth (entered ext w)))).
Proof.
  unfold exp_class_working_dir, try_finally.
  unfold bind at 1. unfold os_chdir at 1.
  unfold bind at 1. unfold emit at 1.
  unfold bind at 1. unfold emit at 1.
  cbn [network_table node_table participant_table random_pos requests_made
       cwd trace].
  rewrite <- !app_assoc. cbn [app]. fold (entered ext w).
  destruct (meth (entered ext w)) as [r w1].
  unfold bind, emit, os_chdir, left. cbn [fst snd network_table node_table
    participant_table random_pos requests_made cwd trace].
  rewrite <- app_assoc. reflexivity.
Qed.

(** The configuration [run] settles on. *)
Lemma run_body_outcome env ext self fuel exp_config app_id bot kwargs w :
  match fst (run_body env ext self fuel exp_config app_id bot kwargs w) with
  | Raise _ => True
  | Ok (self', _) =>
      Experiment.exp_config self'
      = match exp_config with
        | None | Some [] => if bot then dict_set kwargs "recruiter" "bots" else kwargs
        | Some ((_ :: _) as given) => given
        end
      /\ (forall a, app_id = Some a -> Experiment.app_id self' = a)
  end.
Proof.
  unfold run_body. unfold bind at 1.
  destruct (match app_id with Some a => ret a | None => make_uuid env ext end w)
    as [[a|e] w1] eqn:Eid; [|exact I].
  unfold bind at 1.
  match goal with
  | |- context [(if ?c then emit ?a else emit ?b) w1] =>
      destruct ((if c then emit a else emit b) w1) as [[[]|e] w2] eqn:Elaunch
  end.
  - unfold bind.
    match goal with
    | |- context [lift ?c w2] => destruct (lift c w2) as [[d|e] w3]
    end; [|exact I].
    cbn [fst ret Experiment.exp_config Experiment.app_id]. split.
    + destruct exp_config as [[|c cs]|]; reflexivity.
    + intros a0 ->. unfold ret in Eid. now inversion Eid.
  - exact I.
Qed.

(** X22.  The wrapper [exp_class_working_dir] runs its method in the
    directory of the experiment, with the configuration loaded, and,
    whether the method returns or raises, clears the configuration and
    goes back to the directory it was called from; the outcome is the
    outcome of the method.  So after [run] the working directory is the
    one before the call, also when the run raised. *)
Theorem exp_class_working_dir_always_restores env ext self fuel exp_config
    app_id bot kwargs w :
  (forall (A : Type) (meth : M world A),
     exp_class_working_dir ext meth w
     = (fst (meth (entered ext w)),
        left (cwd w) (snd (meth (entered ext w)))))
  /\ cwd (snd (run env ext self fuel exp_config app_id bot kwargs w)) = cwd w
  /\ (exists during,
        trace (snd (run env ext self fuel exp_config app_id bot kwargs w))
        = (during ++ [Config_clear; Os_chdir (cwd w)])%list).
Proof.
  split; [intros A meth; apply exp_class_working_dir_unfold|].
  unfold run. rewrite exp_class_working_dir_unfold. cbn [snd].
  split; [reflexivity|]. eexists. reflexivity.
Qed.

(** X23.  [run] takes [exp_config or kwargs]: when a non-empty
    [exp_config] is given, the keyword arguments play no part, and neither
    does the [recruiter='bots'] that [bot=True] writes into them.
    Outside debug mode, where [bot] is passed on to no one, a run with
    [bot=True] is then the same as a run with [bot=False]. *)
Theorem run_ignores_kwargs_beside_exp_config env ext self fuel first others
    app_id w :
  (forall bot kwargs kwargs',
     run env ext self fuel (Some (first :: others)) app_id bot kwargs w
     = run env ext self fuel (Some (first :: others)) app_id bot kwargs' w)
  /\ (is_debug (first :: others) = false ->
      forall kwargs kwargs',
        run env ext self fuel (Some (first :: others)) app_id true kwargs w
        = run env ext self fuel (Some (first :: others)) app_id false kwargs' w)
  /\ (forall bot kwargs self' data,
        fst (run env ext self fuel (Some (first :: others)) app_id bot kwargs w)
        = Ok (self', data) ->
        Experiment.exp_config self' = first :: others).
Proof.
  split; [reflexivity|]. split.
  - intros Hmode kwargs kwargs'. unfold run.
    rewrite !exp_class_working_dir_unfold.
    assert (run_body env ext self fuel (Some (first :: others)) app_id true kwargs
              (entered ext w)
            = run_body env ext self fuel (Some (first :: others)) app_id false
                kwargs' (entered ext w)) as ->; [|reflexivity].
    unfold run_body, bind.
    destruct (match app_id with Some a => ret a | None => make_uuid env ext end
                (entered ext w)) as [[a|e] w1]; [|reflexivity].
    cbv zeta. unfold is_debug in Hmode. rewrite Hmode. reflexivity.
  - intros bot kwargs self' data. unfold run.
    rewrite exp_class_working_dir_unfold. cbn [fst]. intros Hres.
    pose proof (run_body_outcome env ext self fuel (Some (first :: others))
                  app_id bot kwargs (entered ext w)) as Hout.
    rewrite Hres in Hout. tauto.
Qed.

Lemma run_ignores_kwargs_beside_exp_config_witness :
  run ExperimentSamples.sample_env LifecycleSamples.sample_ext
    ExperimentSamples.sample_self 3 (Some [("mode", "sandbox")]) (Some "5f3a")
    true [("mode", "debug")] LifecycleSamples.empty_world
  = run ExperimentSamples.sample_env LifecycleSamples.sample_ext
      ExperimentSamples.sample_self 3 (Some [("mode", "sandbox")]) (Some "5f3a")
      false [] LifecycleSamples.empty_world
  /\ In (Deploy_sandbox_shared_setup "5f3a" true [("mode", "sandbox")])
       (trace (snd (run ExperimentSamples.sample_env LifecycleSamples.sample_ext
                      ExperimentSamples.sample_self 3 (Some [("mode", "sandbox")])
                      (Some "5f3a") true [("mode", "debug")]
                      LifecycleSamples.empty_world))).
Proof.
  split.
  - apply (run_ignores_kwargs_beside_exp_config ExperimentSamples.sample_env
             LifecycleSamples.sample_ext ExperimentSamples.sample_self 3
             ("mode", "sandbox") [] (Some "5f3a") LifecycleSamples.empty_world).
    reflexivity.
  - vm_compute. tauto.
Defined.

Lemma collect_lookup env ext self fuel app_id exp_config bot kwargs w :
  collect env ext self fuel app_id exp_config bot kwargs w =
  match data_load ext app_id with
  | Data_loaded results =>
      (Ok (self, Some results),
       after_lookup ext self app_id [Data_found_retrieving app_id] w)
  | Data_raises e =>
      if issubclass e IOError then
        let w1 := after_lookup ext self app_id
                    [Could_not_fetch_data_checking_registry app_id] w in
        if is_registered ext app_id then (Raise RuntimeError, w1)
        else if (is_debug kwargs || is_debug (or_empty exp_config))%bool
             then (Raise RuntimeError, w1)
             else if negb (uuid_parses ext app_id) then (Raise ValueError, w1)
                  else
                    bind (log_retrieve self
                            (Appears_to_be_a_new_experiment_id app_id))
                      (fun _ =>
                         run env ext self fuel (Some (or_empty exp_config))
                           (Some app_id) bot kwargs) w1
      else (Raise e, after_lookup ext self app_id [] w)
  end.
Proof.
  unfold collect. unfold bind at 1. unfold try_finally.
  unfold bind at 1. unfold os_chdir at 1.
  unfold bind at 1. unfold emit at 1.
  cbn [network_table node_table participant_table random_pos requests_made
       cwd trace].
  destruct (data_load ext app_id) as [results|e].
  - unfold log_retrieve, after_lookup, with_events, bind, emit, ret, os_chdir.
    destruct (Experiment.verbose self);
      cbn [fst snd network_table node_table participant_table random_pos
           requests_made cwd trace map app];
      rewrite <- ?app_assoc; reflexivity.
  - destruct (issubclass e IOError).
    + unfold log_retrieve at 1.
      assert (forall w0 : world,
                (if Experiment.verbose self
                 then emit (Stdout_retrieve
                              (Could_not_fetch_data_checking_registry app_id))
                 else ret tt) w0
                = (Ok tt,
                   with_events
                     (if Experiment.verbose self
                      then [Stdout_retrieve
                              (Could_not_fetch_data_checking_registry app_id)]
                      else []) w0)) as Hlog.
      { intros w0. unfold emit, ret, with_events.
        destruct (Experiment.verbose self); [reflexivity|].
        rewrite app_nil_r. now destruct w0. }
      unfold bind at 1. rewrite Hlog. unfold ret at 1.
      unfold os_chdir, with_events.
      cbn [fst snd network_table node_table participant_table random_pos
           requests_made cwd trace].
      match goal with
      | |- (if _ then _ else _) ?wa = _ =>
          assert (wa = after_lookup ext self app_id
                         [Could_not_fetch_data_checking_registry app_id] w)
            as ->
      end.
      { unfold after_lookup, with_events. cbn [map].
        rewrite <- !app_assoc. reflexivity. }
      cbv zeta. unfold is_debug, or_empty.
      destruct (is_registered ext app_id); [reflexivity|].
      destruct exp_config as [[|entry others]|]; cbv iota beta;
        (match goal with
         | |- (if ?debug then _ else _) _ = _ => destruct debug; [reflexivity|]
         end);
        destruct (uuid_parses ext app_id); reflexivity.
    + unfold raise, after_lookup, with_events, os_chdir.
      cbn [fst snd network_table node_table participant_table random_pos
           requests_made cwd trace map app].
      destruct (Experiment.verbose self); cbn [app];
        rewrite <- ?app_assoc; reflexivity.
Qed.

Lemma after_lookup_keeps ext self app_id line w :
  filter launches (trace (after_lookup ext self app_id line w))
  = filter launches (trace w)
  /\ cwd (after_lookup ext self app_id line w) = cwd w
  /\ network_table (after_lookup ext self app_id line w) = network_table w.
Proof.
  unfold after_lookup, with_events.
  cbn [trace cwd network_table]. split; [|split; reflexivity].
  rewrite !filter_app. cbn [filter launches].
  assert (filter launches
            (if Experiment.verbose self then map Stdout_retrieve line else [])
          = []) as ->.
  { destruct (Experiment.verbose self); [|reflexivity].
    induction line as [|t line IH]; [reflexivity|exact IH]. }
  now rewrite app_nil_r.
Qed.


(** X24.  [collect] starts no experiment unless the data could not be
    fetched, the id is not registered, neither the keyword arguments nor
    [exp_config] ask for debug mode, and the id parses as a UUID.  When
    data is found it is returned.  The clause [except IOError] covers
    [IOError] and what derives from it, the [RequestException] of
    [requests] included: only an exception of [data_load] outside that
    class goes to the caller.  After an [IOError], a registered id, or
    debug mode, gives [RuntimeError], also when the id is no UUID;
    otherwise an id that is no UUID gives [ValueError].  In each of
    these cases nothing was launched and the working directory is the
    one before the call. *)
Theorem collect_launches_nothing_unless_the_id_is_new env ext self fuel app_id
    exp_config bot kwargs w :
  (forall data,
     data_load ext app_id = Data_loaded data ->
     collect env ext self fuel app_id exp_config bot kwargs w
     = (Ok (self, Some data),
        after_lookup ext self app_id [Data_found_retrieving app_id] w))
  /\ (forall e,
        data_load ext app_id = Data_raises e ->
        issubclass e IOError = false ->
        collect env ext self fuel app_id exp_config bot kwargs w
        = (Raise e, after_lookup ext self app_id [] w))
  /\ (forall e,
        data_load ext app_id = Data_raises e ->
        issubclass e IOError = true ->
        is_registered ext app_id = true
        \/ is_debug kwargs = true
        \/ is_debug (or_empty exp_config) = true
        \/ uuid_parses ext app_id = false ->
        collect env ext self fuel app_id exp_config bot kwargs w
        = (Raise (if (is_registered ext app_id || is_debug kwargs
                      || is_debug (or_empty exp_config))%bool
                  then RuntimeError else ValueError),
           after_lookup ext self app_id
             [Could_not_fetch_data_checking_registry app_id] w))
  /\ (forall e, issubclass e IOError = true <-> e = IOError \/ e = RequestException)
  /\ (forall line,
        filter launches (trace (after_lookup ext self app_id line w))
        = filter launches (trace w)
        /\ cwd (after_lookup ext self app_id line w) = cwd w).
Proof.
  split; [|split; [|split; [|split]]].
  - intros data Hload. rewrite collect_lookup, Hload. reflexivity.
  - intros e Hload Hclass. rewrite collect_lookup, Hload, Hclass. reflexivity.
  - intros e Hload Hclass Hrefused.
    rewrite collect_lookup, Hload, Hclass. cbv zeta.
    destruct (is_registered ext app_id); [reflexivity|].
    cbn [orb].
    destruct (is_debug kwargs || is_debug (or_empty exp_config))%bool eqn:Edebug;
      [reflexivity|].
    apply Bool.orb_false_iff in Edebug. destruct Edebug as [Ek Ec].
    destruct Hrefused as [H|[H|[H|H]]]; try congruence.
    now rewrite H.
  - intros e. destruct e; cbn; split; intros H; try discriminate;
      try (destruct H; discriminate); auto.
  - intros line. pose proof (after_lookup_keeps ext self app_id line w). tauto.
Qed.

Lemma collect_launches_nothing_unless_the_id_is_new_witness :
  collect ExperimentSamples.sample_env LifecycleSamples.sample_ext
    ExperimentSamples.sample_self 3 "not-a-uuid" None false [("mode", "debug")]
    LifecycleSamples.empty_world
  = (Raise RuntimeError,
     after_lookup LifecycleSamples.sample_ext ExperimentSamples.sample_self
       "not-a-uuid" [Could_not_fetch_data_checking_registry "not-a-uuid"]
       LifecycleSamples.empty_world)
  /\ collect ExperimentSamples.sample_env LifecycleSamples.sample_ext
       ExperimentSamples.sample_self 3 "5f3a" None false []
       LifecycleSamples.empty_world
     = (Ok (ExperimentSamples.sample_self, Some "5f3a-data.zip"),
        after_lookup LifecycleSamples.sample_ext ExperimentSamples.sample_self
          "5f3a" [Data_found_retrieving "5f3a"] LifecycleSamples.empty_world)
  /\ collect ExperimentSamples.sample_env LifecycleSamples.ext_unreachable
       ExperimentSamples.sample_self 3 "taken" None false []
       LifecycleSamples.empty_world
     = (Raise RuntimeError,
        after_lookup LifecycleSamples.ext_unreachable
          ExperimentSamples.sample_self "taken"
          [Could_not_fetch_data_checking_registry "taken"]
          LifecycleSamples.empty_world).
Proof.
  split; [|split].
  - destruct (collect_launches_nothing_unless_the_id_is_new
                ExperimentSamples.sample_env LifecycleSamples.sample_ext
                ExperimentSamples.sample_self 3 "not-a-uuid" None false
                [("mode", "debug")] LifecycleSamples.empty_world)
      as (_ & _ & Hrefused & _).
    apply (Hrefused IOError); [reflexivity|reflexivity|].
    right. left. reflexivity.
  - destruct (collect_launches_nothing_unless_the_id_is_new
                ExperimentSamples.sample_env LifecycleSamples.sample_ext
                ExperimentSamples.sample_self 3 "5f3a" None false
                [] LifecycleSamples.empty_world)
      as (Hfound & _).
    apply Hfound. reflexivity.
  - destruct (collect_launches_nothing_unless_the_id_is_new
                ExperimentSamples.sample_env LifecycleSamples.ext_unreachable
                ExperimentSamples.sample_self 3 "taken" None false
                [] LifecycleSamples.empty_world)
      as (_ & _ & Hrefused & _).
    apply (Hrefused RequestException); [reflexivity|reflexivity|].
    left. reflexivity.
Defined.





End LaunchCoverage.

(** ** [load] *)

Module LoaderCoverage.
Import PyMore Loader LoaderVocabulary.

Lemma prefix_append (a b : string) :
  prefix a b = true <-> exists c, b = (a ++ c)%string.
Proof.
  revert a. induction b as [|y b IH]; intros [|x a]; cbn [prefix].
  - split; [exists EmptyString; reflexivity|reflexivity].
  - split; [discriminate|]. intros [c Hc]. discriminate.
  - split; [|reflexivity]. intros _. exists (String y b). reflexivity.
  - destruct (ascii_dec x y) as [->|Hne].
    + rewrite IH. split; intros [c Hc]; exists c.
      * cbn. now rewrite <- Hc.
      * cbn in Hc. now inversion Hc.
    + split; [discriminate|]. intros [c Hc]. cbn in Hc. congruence.
Qed.

Lemma str_contains_unfold needle hay :
  str_contains needle hay
  = (prefix needle hay
     || match hay with
        | EmptyString => false
        | String _ rest => str_contains needle rest
        end)%bool.
Proof. destruct hay; reflexivity. Qed.

Lemma str_contains_occurs_in needle hay :
  str_contains needle hay = true <-> occurs_in needle hay.
Proof.
  unfold occurs_in. induction hay as [|h rest IH];
    rewrite str_contains_unfold, Bool.orb_true_iff, prefix_append.
  - split.
    + intros [[c Hc]|H]; [|discriminate]. exists EmptyString, c. exact Hc.
    + intros (before & after & H). left.
      destruct before; [|discriminate]. exists after. exact H.
  - rewrite IH. split.
    + intros [[c Hc]|(before & after & H)].
      * exists EmptyString, c. exact Hc.
      * exists (String h before), after. cbn. now rewrite <- H.
    + intros (before & after & H). destruct before as [|b before].
      * left. exists after. exact H.
      * right. exists before, after. cbn in H. now inversion H.
Qed.

Lemma length_append (a b : string) :
  String.length (a ++ b) = (String.length a + String.length b)%nat.
Proof. induction a as [|x a IH]; cbn; [reflexivity|now rewrite IH]. Qed.

Lemma occurs_in_length needle hay :
  occurs_in needle hay -> (String.length needle <= String.length hay)%nat.
Proof.
  intros (before & after & ->). rewrite !length_append. lia.
Qed.

Lemma qualifies_iff (m : string * class_) :
  qualifies m = true
  <-> exists base rest,
        bases (snd m) = base :: rest /\ occurs_in base "Experiment".
Proof.
  unfold qualifies, derives_from_experiment.
  destruct (bases (snd m)) as [|base rest].
  - split; [discriminate|]. intros (b & r & H & _). discriminate.
  - destruct (str_contains base "Experiment") eqn:E.
    + split; [|reflexivity]. intros _. exists base, rest.
      split; [reflexivity|]. now apply str_contains_occurs_in.
    + split; [discriminate|]. intros (b & r & H & Hb). inversion H. subst.
      apply str_contains_occurs_in in Hb. congruence.
Qed.

(** The list comprehension of [load]: a filter, unless some class has
    no base. *)
Lemma experiment_classes_filter classes :
  (forall m, In m classes -> bases (snd m) <> []) ->
  experiment_classes classes = Some (filter qualifies classes).
Proof.
  induction classes as [|m classes IH]; intros Hbases; [reflexivity|].
  cbn [experiment_classes filter].
  rewrite IH by (intros x Hx; apply Hbases; now right).
  assert (derives_from_experiment m = Some (qualifies m)) as ->.
  { unfold qualifies, derives_from_experiment.
    destruct (bases (snd m)) as [|base rest] eqn:Eb.
    - exfalso. apply (Hbases m); [now left|exact Eb].
    - now destruct (str_contains base "Experiment"). }
  reflexivity.
Qed.

Lemma experiment_classes_without_base classes m :
  In m classes -> bases (snd m) = [] -> experiment_classes classes = None.
Proof.
  intros Hin Hnone. induction classes as [|c classes IH]; [destruct Hin|].
  cbn [experiment_classes]. destruct Hin as [->|Hin].
  - unfold derives_from_experiment. now rewrite Hnone.
  - rewrite (IH Hin). now destruct (derives_from_experiment c).
Qed.

Lemma experiment_classes_some classes exps :
  experiment_classes classes = Some exps ->
  forall m, In m classes -> bases (snd m) <> [].
Proof.
  intros Hsome m Hin Hnone.
  rewrite (experiment_classes_without_base classes m Hin Hnone) in Hsome.
  discriminate.
Qed.

Lemma filter_first {A : Type} (f : A -> bool) before x after :
  (forall y, In y before -> f y = false) -> f x = true ->
  filter f (before ++ x :: after) = x :: filter f after.
Proof.
  intros Hbefore Hx. induction before as [|b before IH]; cbn [app filter].
  - now rewrite Hx.
  - rewrite (Hbefore b) by now left. apply IH. intros y Hy. apply Hbefore.
    now right.
Qed.

(** X26.  [load] returns the first member class, in the order of
    [inspect.getmembers], whose first base has a name that occurs in the
    string "Experiment" -- provided every member class has a base.  The
    test is [name in "Experiment"], a test on substrings: a class
    derived from a class called [Exp] passes it, and a class derived
    from a subclass of [Experiment] with a longer name does not. *)
Theorem load_returns_the_first_class_whose_base_name_occurs_in_Experiment
    getcwd sys_path before name c after :
  (forall m, In m (before ++ (name, c) :: after) -> bases (snd m) <> []) ->
  (forall m, In m before -> qualifies m = false) ->
  qualifies (name, c) = true ->
  fst (fst (load getcwd sys_path
              (Loaded_module (before ++ (name, c) :: after))))
  = Returns name c
  /\ (forall m,
        qualifies m = true
        <-> exists base rest,
              bases (snd m) = base :: rest /\ occurs_in base "Experiment")
  /\ (forall m base rest,
        bases (snd m) = base :: rest ->
        (10 < String.length base)%nat -> qualifies m = false).
Proof.
  intros Hbases Hbefore Hq. split; [|split].
  - unfold load. rewrite (experiment_classes_filter _ Hbases).
    rewrite (filter_first qualifies before (name, c) after Hbefore Hq).
    reflexivity.
  - apply qualifies_iff.
  - intros m base rest Hb Hlen.
    destruct (qualifies m) eqn:E; [|reflexivity].
    apply qualifies_iff in E. destruct E as (b & r & Hb' & Hocc).
    rewrite Hb in Hb'. inversion Hb'. subst b r.
    apply occurs_in_length in Hocc. cbn in Hocc. lia.
Qed.

Lemma load_returns_the_first_class_whose_base_name_occurs_in_Experiment_witness :
  fst (fst (load "/app" ["/usr/lib/python"]
              (Loaded_module [LoaderSamples.helper; LoaderSamples.my_exp;
                              LoaderSamples.real_exp])))
  = Returns "Memory" (Build_class ["Exp"; "object"]).
Proof.
  apply (load_returns_the_first_class_whose_base_name_occurs_in_Experiment
           "/app" ["/usr/lib/python"] [LoaderSamples.helper] "Memory"
           (Build_class ["Exp"; "object"]) [LoaderSamples.real_exp]).
  - intros m [<-|[<-|[<-|[]]]]; discriminate.
  - intros m [<-|[]]. reflexivity.
  - reflexivity.
Defined.

Lemma experiment_classes_cases classes :
  (experiment_classes classes = None
   /\ exists m, In m classes /\ bases (snd m) = [])
  \/ (experiment_classes classes = Some (filter qualifies classes)
      /\ forall m, In m classes -> bases (snd m) <> []).
Proof.
  destruct (experiment_classes classes) as [exps|] eqn:E.
  - right. pose proof (experiment_classes_some classes exps E) as Hbases.
    split; [|exact Hbases].
    rewrite <- E. now apply experiment_classes_filter.
  - left. split; [reflexivity|].
    induction classes as [|c classes IH]; [discriminate|].
    cbn [experiment_classes] in E. unfold derives_from_experiment in E.
    destruct (bases (snd c)) as [|base rest] eqn:Eb.
    + exists c. split; [now left|exact Eb].
    + destruct (experiment_classes classes) as [exps|]; [discriminate|].
      destruct (IH eq_refl) as (m & Hin & Hm). exists m. split; [now right|].
      exact Hm.
Qed.

Lemma filter_head_In {A : Type} (f : A -> bool) l x rest :
  filter f l = x :: rest -> In x l /\ f x = true.
Proof.
  intros H. apply filter_In. rewrite H. now left.
Qed.

(** X27.  How [load] fails.  One member class without a base makes the
    list comprehension raise [IndexError], also when another class would
    have been chosen; so does a module none of whose classes passes the
    test.  Conversely, when [load] returns a class, every member class
    has a base and the class returned is a member that passes the test.
    [logger.error] is called when [imp.load_source] raises [ImportError]
    and in no other case: the [IndexError]s, and any other exception of
    the import, reach the caller unlogged. *)
Theorem load_fails_with_IndexError_unless_a_class_is_found getcwd sys_path :
  (forall classes m,
     In m classes -> bases (snd m) = [] ->
     load getcwd sys_path (Loaded_module classes)
     = (Raises IndexError, snd (fst (load getcwd sys_path (Loaded_module classes))),
        false))
  /\ (forall classes,
        (forall m, In m classes -> qualifies m = false) ->
        fst (fst (load getcwd sys_path (Loaded_module classes)))
        = Raises IndexError)
  /\ (forall classes name c,
        fst (fst (load getcwd sys_path (Loaded_module classes)))
        = Returns name c ->
        In (name, c) classes
        /\ qualifies (name, c) = true
        /\ forall m, In m classes -> bases (snd m) <> [])
  /\ (forall src,
        snd (load getcwd sys_path src) = true <-> src = ImportError_raised)
  /\ fst (fst (load getcwd sys_path ImportError_raised)) = Raises_ImportError
  /\ (forall e,
        fst (fst (load getcwd sys_path (Other_exception_raised e))) = Raises e).
Proof.
  split; [|split; [|split; [|split; [|split]]]].
  - intros classes m Hin Hnone. unfold load.
    now rewrite (experiment_classes_without_base classes m Hin Hnone).
  - intros classes Hnone. unfold load.
    destruct (experiment_classes_cases classes) as [[-> _]|[-> _]];
      [reflexivity|].
    destruct (filter qualifies classes) as [|[name c] exps] eqn:E;
      [reflexivity|].
    apply filter_head_In in E. destruct E as [Hin Hq].
    rewrite (Hnone _ Hin) in Hq. discriminate.
  - intros classes name c. unfold load.
    destruct (experiment_classes_cases classes) as [[-> _]|[-> Hbases]];
      [discriminate|].
    destruct (filter qualifies classes) as [|[name' c'] exps] eqn:E;
      [discriminate|].
    cbn [fst]. intros Hret. inversion Hret. subst name' c'.
    apply filter_head_In in E. destruct E as [Hin Hq]. now repeat split.
  - intros src. unfold load. destruct src as [classes| |e].
    + destruct (experiment_classes classes) as [[|[name c] exps]|];
        (split; [discriminate|discriminate]).
    + split; reflexivity.
    + split; discriminate.
  - reflexivity.
  - reflexivity.
Qed.

Lemma load_fails_with_IndexError_unless_a_class_is_found_witness :
  load "/app" ["/usr/lib/python"]
    (Loaded_module [LoaderSamples.real_exp; LoaderSamples.old_style])
  = (Raises IndexError, ["/usr/lib/python"; "/app"], false)
  /\ fst (fst (load "/app" ["/usr/lib/python"]
                 (Loaded_module [LoaderSamples.helper])))
     = Raises IndexError.
Proof.
  destruct (load_fails_with_IndexError_unless_a_class_is_found
              "/app" ["/usr/lib/python"]) as (Hbase & Hnone & _).
  split.
  - apply (Hbase [LoaderSamples.real_exp; LoaderSamples.old_style]
             LoaderSamples.old_style).
    + right. left. reflexivity.
    + reflexivity.
  - apply Hnone. intros m [<-|[]]. reflexivity.
Defined.

Lemma existsb_eqb_In (x : string) (l : list string) :
  existsb (String.eqb x) l = true <-> In x l.
Proof.
  rewrite existsb_exists. split.
  - intros (y & Hin & Heq). apply String.eqb_eq in Heq. now subst y.
  - intros Hin. exists x. split; [exact Hin|apply String.eqb_refl].
Qed.

Lemma load_sys_path getcwd sys_path src :
  snd (fst (load getcwd sys_path src))
  = if existsb (String.eqb getcwd) sys_path then sys_path
    else (sys_path ++ [getcwd])%list.
Proof.
  unfold load. destruct src as [classes| |e]; [|reflexivity|reflexivity].
  now destruct (experiment_classes classes) as [[|[name c] exps]|].
Qed.

(** X28.  What [load] does to [sys.path], whatever the outcome, also
    when it raises: afterwards the working directory is on the path; the
    entries that were there are kept, in their order, and at most the
    working directory is appended; a path that holds it already is left
    as it is, so a second [load] changes nothing; and a path without
    duplicates stays without duplicates. *)
Theorem load_puts_the_working_directory_on_sys_path_once getcwd sys_path src :
  let after := snd (fst (load getcwd sys_path src)) in
  In getcwd after
  /\ (after = sys_path \/ after = (sys_path ++ [getcwd])%list)
  /\ (In getcwd sys_path <-> after = sys_path)
  /\ (forall src', snd (fst (load getcwd after src')) = after)
  /\ (NoDup sys_path -> NoDup after).
Proof.
  cbv zeta. rewrite load_sys_path.
  destruct (existsb (String.eqb getcwd) sys_path) eqn:E.
  - apply existsb_eqb_In in E. split; [exact E|]. split; [now left|].
    split; [tauto|]. split; [|tauto].
    intros src'. rewrite load_sys_path.
    apply existsb_eqb_In in E. now rewrite E.
  - assert (~ In getcwd sys_path) as Hnot.
    { intros Hin. apply existsb_eqb_In in Hin. congruence. }
    split; [apply in_or_app; right; now left|]. split; [now right|].
    split; [|split].
    + split; [contradiction|]. intros Heq.
      apply (f_equal (@List.length string)) in Heq.
      rewrite length_app in Heq. cbn in Heq. lia.
    + intros src'. rewrite load_sys_path.
      assert (existsb (String.eqb getcwd) (sys_path ++ [getcwd]) = true) as ->;
        [|reflexivity].
      apply existsb_eqb_In, in_or_app. right. now left.
    + intros Hnd. apply NoDup_app; [exact Hnd|repeat constructor; intros []|].
      intros x Hx [<-|[]]. contradiction.
Qed.

Lemma load_puts_the_working_directory_on_sys_path_once_witness :
  NoDup (snd (fst (load "/app" ["/usr/lib/python"] ImportError_raised)))
  /\ snd (fst (load "/app" ["/usr/lib/python"; "/app"] ImportError_raised))
     = ["/usr/lib/python"; "/app"].
Proof.
  split.
  - destruct (load_puts_the_working_directory_on_sys_path_once
                "/app" ["/usr/lib/python"] ImportError_raised)
      as (_ & _ & _ & _ & Hnodup).
    apply Hnodup. repeat constructor. intros [].
  - destruct (load_puts_the_working_directory_on_sys_path_once
                "/app" ["/usr/lib/python"; "/app"] ImportError_raised)
      as (_ & _ & Hkept & _).
    apply Hkept. right. left. reflexivity.
Defined.

End LoaderCoverage.

(** ** The [recruiter] property *)

Module RecruiterCoverage.
Import Experiment.

Ltac by_setting :=
  repeat match goal with
         | |- context [String.eqb ?a ?b] =>
             let E := fresh "E" in
             destruct (String.eqb a b) eqn:E;
             [apply String.eqb_eq in E; try subst a
             |apply String.eqb_neq in E]
         end;
  cbn [andb negb fst snd raise ret];
  repeat split; intros;
  repeat match goal with
         | H : _ /\ _ |- _ => destruct H
         end;
  try congruence.

(** X29.  Which recruiter the [recruiter] property gives.  While the
    configuration is not loaded the property raises [RuntimeError]: the
    [except] clause covers the reading of the mode only, not that of the
    [recruiter] setting.  With the configuration loaded, ['bots'] gives
    the bot recruiter in every mode; debug mode gives [HotAirRecruiter]
    for every other setting but ['bogus'], so no MTurk recruiter is ever
    returned in debug mode, also under ['mturklarge']; ['bogus'] raises
    [NotImplementedError] in every mode; a setting the code does not know
    gives [MTurkRecruiter] outside debug mode.  The property changes
    nothing. *)
Theorem recruiter_by_mode_and_setting env w :
  snd (recruiter env w) = w
  /\ (fst (recruiter env w) = Raise RuntimeError <-> config env = None)
  /\ (forall settings,
        config env = Some settings ->
        let mode := dict_get settings "mode" in
        let setting := dict_get settings "recruiter" in
        (fst (recruiter env w) = Raise NotImplementedError
         <-> setting = Some "bogus")
        /\ (fst (recruiter env w) = Ok BotRecruiter <-> setting = Some "bots")
        /\ (fst (recruiter env w) = Ok HotAirRecruiter
            <-> mode = Some "debug"
                /\ setting <> Some "bots" /\ setting <> Some "bogus")
        /\ (fst (recruiter env w) = Ok MTurkLargeRecruiter
            <-> setting = Some "mturklarge" /\ mode <> Some "debug")
        /\ (fst (recruiter env w) = Ok MTurkRecruiter
            <-> mode <> Some "debug"
                /\ setting <> Some "bogus" /\ setting <> Some "bots"
                /\ setting <> Some "mturklarge")).
Proof.
  split; [apply RecruitmentProps.recruiter_keeps_the_world|].
  unfold recruiter, bind, try_except, config_get.
  destruct (config env) as [settings|].
  - split.
    + unfold ret.
      destruct (dict_get settings "recruiter") as [r|];
        destruct (dict_get settings "mode") as [m|]; by_setting.
    + intros settings' Heq. inversion Heq. subst settings'. cbv zeta.
      unfold ret.
      destruct (dict_get settings "recruiter") as [r|];
        destruct (dict_get settings "mode") as [m|]; by_setting.
  - split; [split; reflexivity|]. intros settings Heq. discriminate.
Qed.

End RecruiterCoverage.
